(** * Height-field generation of nature-environment (src/index.js)

    src/index.js holds three successive versions of the generator:

    - lines 1-442: [Terrain]/[Chunk], [getHeight({x, z}, offset)]
      (module [Variant1]);
    - lines 444-867: [Terrain]/[Chunk], [getHeight(x, z)], water level 0.35
      (module [Variant2]);
    - lines 868-1251: [MapGenerator], two-pass normalisation and the falloff
      mask (module [Variant3]).

    JavaScript numbers are modelled as exact rationals extended with
    [Infinity], [-Infinity] and [NaN]: the rounding of binary64 arithmetic is
    left out, the special values and the division by zero are kept.  There is
    one zero, which divides like [+0].  The external noise libraries
    ([noise.simplex2], [perlin.get]) are not part of the repository and are
    section variables. *)

From Stdlib Require Import ZArith QArith Qabs Qround Qminmax Lqa Lia List Bool.
From stdpp Require Import base list strings.

Open Scope Q_scope.

(** ** JavaScript numbers *)

Inductive number : Type :=
| Fin (q : Q)
| PInf
| NInf
| NaN.

Declare Scope num_scope.
Delimit Scope num_scope with num.
Bind Scope num_scope with number.

Definition ofZ (z : Z) : number := Fin (inject_Z z).

Definition nopp (a : number) : number :=
  match a with
  | Fin q => Fin (- q)
  | PInf => NInf
  | NInf => PInf
  | NaN => NaN
  end.

Definition nadd (a b : number) : number :=
  match a, b with
  | NaN, _ | _, NaN => NaN
  | Fin p, Fin q => Fin (Qred (p + q))
  | PInf, NInf | NInf, PInf => NaN
  | PInf, _ | _, PInf => PInf
  | NInf, _ | _, NInf => NInf
  end.

Definition nsub (a b : number) : number := nadd a (nopp b).

(** [inf_signed c] is the infinity whose sign is given by comparing a finite
    factor with zero; [Infinity * 0] is [NaN]. *)
Definition inf_signed (c : comparison) (pos : number) : number :=
  match c with
  | Gt => pos
  | Lt => nopp pos
  | Eq => NaN
  end.

Definition nmul (a b : number) : number :=
  match a, b with
  | NaN, _ | _, NaN => NaN
  | Fin p, Fin q => Fin (Qred (p * q))
  | Fin p, PInf | PInf, Fin p => inf_signed (p ?= 0) PInf
  | Fin p, NInf | NInf, Fin p => inf_signed (p ?= 0) NInf
  | PInf, PInf | NInf, NInf => PInf
  | PInf, NInf | NInf, PInf => NInf
  end.

Definition ndiv (a b : number) : number :=
  match a, b with
  | NaN, _ | _, NaN => NaN
  | Fin p, Fin q =>
      match q ?= 0 with
      | Eq => inf_signed (p ?= 0) PInf
      | _ => Fin (Qred (p / q))
      end
  | Fin _, (PInf | NInf) => Fin 0
  | PInf, Fin q => match q ?= 0 with Lt => NInf | _ => PInf end
  | NInf, Fin q => match q ?= 0 with Lt => PInf | _ => NInf end
  | (PInf | NInf), (PInf | NInf) => NaN
  end.

(** [a < b]: false as soon as one side is [NaN]. *)
Definition nlt (a b : number) : bool :=
  match a, b with
  | NaN, _ | _, NaN => false
  | Fin p, Fin q => match p ?= q with Lt => true | _ => false end
  | NInf, (Fin _ | PInf) => true
  | Fin _, PInf => true
  | _, _ => false
  end.

Infix "+" := nadd : num_scope.
Infix "-" := nsub : num_scope.
Infix "*" := nmul : num_scope.
Infix "/" := ndiv : num_scope.
Infix "<?" := nlt : num_scope.

Definition Math_max (a b : number) : number :=
  match a, b with
  | NaN, _ | _, NaN => NaN
  | _, _ => if nlt a b then b else a
  end.

Definition Math_min (a b : number) : number :=
  match a, b with
  | NaN, _ | _, NaN => NaN
  | _, _ => if nlt b a then b else a
  end.

Definition Math_abs (a : number) : number :=
  match a with
  | Fin q => Fin (Qabs q)
  | PInf | NInf => PInf
  | NaN => NaN
  end.

Definition Math_floor (a : number) : number :=
  match a with
  | Fin q => ofZ (Qfloor q)
  | _ => a
  end.

(** [Math.pow] at the natural exponents the source uses ([a = 3]). *)
Fixpoint Math_pow (x : number) (n : nat) : number :=
  match n with
  | O => Fin 1
  | S O => x
  | S n' => (x * Math_pow x n')%num
  end.

Definition Number_MAX_SAFE_INTEGER : number := ofZ 9007199254740991.
Definition Number_MIN_SAFE_INTEGER : number := ofZ (-9007199254740991).

(** ** Exceptions and loops *)

Inductive error : Type := RangeError.

(** [Hang]: a [for] loop whose bound is [Infinity] never exits. *)
Inductive result (A : Type) : Type :=
| Ok (a : A)
| Throw (e : error)
| Hang.
Arguments Ok {A} a.
Arguments Throw {A} e.
Arguments Hang {A}.

Definition bind {A B} (r : result A) (k : A -> result B) : result B :=
  match r with
  | Ok a => k a
  | Throw e => Throw e
  | Hang => Hang
  end.

Notation "'let*' x ':=' r 'in' k" := (bind r (fun x => k))
  (at level 10, x pattern, r at level 100, k at level 200).

(** The number of iterations of [for (let i = 0; i < bound; i++)]:
    the counter takes the values [0, 1, ...] below [bound]; [None] when the
    loop does not terminate. *)
Definition iterations (bound : number) : option Z :=
  match bound with
  | Fin q => Some (Z.max 0 (Qceiling q))
  | PInf => None
  | NInf | NaN => Some 0%Z
  end.

Fixpoint forM {S} (l : list Z) (body : Z -> S -> result S) (s : S) : result S :=
  match l with
  | [] => Ok s
  | i :: l' => let* s' := body i s in forM l' body s'
  end.

(** [for (let i = 0; i < bound; i++) body]; no loop of the source whose bound
    can be [Infinity] has a body that throws. *)
Definition for_lt {S} (bound : number) (body : Z -> S -> result S) (s : S)
  : result S :=
  match iterations bound with
  | None => Hang
  | Some n => forM (seqZ 0 n) body s
  end.

(** [mapS f l s]: the results of [f] along [l], the state threaded from one
    call to the next; the functional reading of a loop that fills an array. *)
Fixpoint mapS {A B S} (f : A -> S -> B * S) (l : list A) (s : S)
  : list B * S :=
  match l with
  | [] => ([], s)
  | a :: l' =>
      let '(b, s) := f a s in
      let '(bs, s) := mapS f l' s in
      (b :: bs, s)
  end.

(** ** Utils (lines 26-37, repeated at 469-480 and 913-919) *)

Definition inverseLerp (min max value : number) : number :=
  let value := Math_max min (Math_min max value) in
  ((value - min) / (max - min))%num.

(** [ToLength] of the specification of [Array.from] on an array-like. *)
Definition ToLength (n : number) : Z :=
  match n with
  | Fin q => Z.min (Z.max 0 (Qfloor q)) 9007199254740991
  | PInf => 9007199254740991
  | NInf | NaN => 0
  end.

(** [Array.from({ length: size })] calls [new Array(len)], which throws a
    [RangeError] when [len] is above [2^32 - 1]. *)
Definition createEmptyMatrix (size : number) : result (list (list number)) :=
  let len := ToLength size in
  if (4294967295 <? len)%Z then Throw RangeError
  else Ok (replicate (Z.to_nat len) (replicate (Z.to_nat len) (Fin 0))).

(** [a[i] = v] on an array that is written at consecutive indices: inside
    the array the cell is replaced, at its end the array grows by one. *)
Definition array_set {A} (i : Z) (v : A) (a : list A) : list A :=
  if decide (Z.to_nat i = length a) then a ++ [v] else <[Z.to_nat i := v]> a.

(** [a[i][j]] where the result is used as a number: a missing cell is
    [undefined], which arithmetic and comparisons turn into [NaN]. *)
Definition array_get2 (a : list (list number)) (i j : Z) : number :=
  match a !! Z.to_nat i with
  | Some row => default NaN (row !! Z.to_nat j)
  | None => NaN
  end.

(** [evaluate] of [createIslandShapeGrid] (lines 42-47 and 1028-1033). *)
Definition evaluate (value : number) : number :=
  let a := 3%nat in
  let b := Fin (22 # 10) in
  (Math_pow value a / (Math_pow value a + Math_pow (b - b * value) a))%num.

(** [createIslandShapeGrid] (lines 39-62); [MapGenerator.#createFalloffMap]
    (lines 1024-1048) is the same code with [size = this.rows]. *)
Definition createIslandShapeGrid (size : number) : result (list (list number)) :=
  for_lt size (fun i grid =>
    let* row :=
      for_lt size (fun j row =>
        let x := (ofZ i / size * Fin 2 - Fin 1)%num in
        let y := (ofZ j / size * Fin 2 - Fin 1)%num in
        let value := Math_max (Math_abs x) (Math_abs y) in
        Ok (array_set j (evaluate value) row)) [] in
    Ok (array_set i row grid)) [].

(** ** Configuration, colours and JSON *)

(** [DEFAULT_CONFIG] and [CONFIG] (lines 4-16): the sliders of the panel
    give whole numbers for [size], [chunkSize], [resolution] and [octaves]
    (lines 352-356), which are integers here. *)
Record Config : Type := {
  size : Z;
  chunkSize : Z;
  resolution : Z;
  octaves : Z;
  persistance : number;
  lacunarity : number;
  heightMultiplier : number;
  islands : bool;
  wireframe : bool
}.

Inductive Color : Type := water | sand | grass | rock | snow.

(** The values [JSON.stringify] writes for the fields of a configuration:
    a finite number by its value, [NaN] and the infinities as [null]. *)
Inductive json : Type :=
| JNum (q : Q)
| JNull
| JBool (b : bool).

Definition json_of_number (a : number) : json :=
  match a with
  | Fin q => JNum (Qred q)
  | _ => JNull
  end.

#[global] Instance Q_eq_dec : EqDecision Q.
Proof. solve_decision. Defined.
#[global] Instance json_eq_dec : EqDecision json.
Proof. solve_decision. Defined.

Definition JSON_stringify (c : Config) : list (string * json) :=
  [ ("size"%string, json_of_number (ofZ (size c)));
    ("chunkSize"%string, json_of_number (ofZ (chunkSize c)));
    ("resolution"%string, json_of_number (ofZ (resolution c)));
    ("octaves"%string, json_of_number (ofZ (octaves c)));
    ("persistance"%string, json_of_number (persistance c));
    ("lacunarity"%string, json_of_number (lacunarity c));
    ("heightMultiplier"%string, json_of_number (heightMultiplier c));
    ("islands"%string, JBool (islands c));
    ("wireframe"%string, JBool (wireframe c)) ].

(** ** First version: lines 1-442 *)

Module Variant1.

Definition DEFAULT_CONFIG : Config := {|
  size := 3;
  chunkSize := 512;
  resolution := 22;
  octaves := 6;
  persistance := Fin (707 # 1000);
  lacunarity := Fin (17 # 10);
  heightMultiplier := Fin 250;
  islands := false;
  wireframe := false
|}.

(** [{ x, z }]: the offset of a chunk. *)
Record Offset : Type := { off_x : Z; off_z : Z }.

Record Noise : Type := { seed : Z }.

Record Chunk : Type := {
  c_size : Z;
  c_offset : Offset;
  c_resolution : Z;
  c_heightMultiplier : number;
  c_islands : bool;
  c_wireframe : bool;
  grid : list (list number);
  (** the calls [positions.setZ(index, elevation)] and
      [colors.setXYZ(index, ...)] of [#createMesh], in order *)
  mesh : list (number * number * Color)
}.

(** [Terrain]: the nine configuration fields, which the constructor,
    [update] and [hash] always handle together, are kept as one [Config]. *)
Record Terrain : Type := {
  config : Config;
  minHeight : number;
  maxHeight : number;
  chunks : list Chunk;
  noise : Noise
}.

Definition set_minHeight (v : number) (t : Terrain) : Terrain :=
  {| config := config t; minHeight := v; maxHeight := maxHeight t;
     chunks := chunks t; noise := noise t |}.

Definition set_maxHeight (v : number) (t : Terrain) : Terrain :=
  {| config := config t; minHeight := minHeight t; maxHeight := v;
     chunks := chunks t; noise := noise t |}.

Section WithNoise.

(** [noise.simplex2] of the noisejs library once [noise.seed(seed)] has been
    called: every [Terrain] makes its own [Noise], which seeds the library,
    and the terrain before it is dropped. *)
Variable simplex2 : Z -> number -> number -> number.

(** [Noise.get] (lines 74-78). *)
Definition Noise_get (n : Noise) (x z : number) : number :=
  let value := simplex2 (seed n) x z in
  ((value + Fin 1) / Fin 2)%num.

(** [new Terrain(...)] (lines 111-140); [rnd] is
    [Math.floor(Math.random() * 100000)]. *)
Definition Terrain_new (c : Config) (rnd : Z) : Terrain := {|
  config := c;
  minHeight := Number_MAX_SAFE_INTEGER;
  maxHeight := Number_MIN_SAFE_INTEGER;
  chunks := [];
  noise := {| seed := rnd |}
|}.

(** The octave loop of [#getHeight] (lines 178-188), [n] iterations left. *)
Fixpoint octave_loop (t : Terrain) (px pz : number) (n : nat)
    (amplitude frequency noiseHeight : number) : number :=
  match n with
  | O => noiseHeight
  | S n' =>
      let value := Noise_get (noise t) (px * frequency) (pz * frequency) in
      octave_loop t px pz n'
        (amplitude * persistance (config t))
        (frequency * lacunarity (config t))
        (noiseHeight + value * amplitude)
  end%num.

(** [noisePosition] of [#getHeight] (lines 170-176). *)
Definition noisePosition (t : Terrain) (x z : Z) (offset : Offset)
  : number * number :=
  let terrainWidth := (ofZ (size (config t)) * ofZ (chunkSize (config t)))%num in
  let gridSize :=
    Math_floor (ofZ (chunkSize (config t)) / ofZ (resolution (config t))) in
  (((ofZ x * gridSize + ofZ (off_x offset)) / terrainWidth)%num,
   ((ofZ z * gridSize + ofZ (off_z offset)) / terrainWidth)%num).

(** The fractal sum of [#getHeight] before normalisation (lines 166-188). *)
Definition rawHeight (t : Terrain) (x z : Z) (offset : Offset) : number :=
  let '(px, pz) := noisePosition t x z offset in
  octave_loop t px pz (Z.to_nat (octaves (config t))) (Fin 1) (Fin 1) (Fin 0).

(** [#getHeight] (lines 165-196): the height and the terrain with its
    updated extremes. *)
Definition getHeight (t : Terrain) (x z : Z) (offset : Offset)
  : number * Terrain :=
  let noiseHeight := rawHeight t x z offset in
  let t := if (noiseHeight <? minHeight t)%num
           then set_minHeight noiseHeight t else t in
  let t := if (maxHeight t <? noiseHeight)%num
           then set_maxHeight noiseHeight t else t in
  (inverseLerp (minHeight t) (maxHeight t) noiseHeight, t).

(** [Chunk.#createGrid] (lines 268-286), with the terrain its [getHeight]
    is bound to; the loops stay inside the matrix [createEmptyMatrix]
    returned, so the row [grid[z]] is always there. *)
Definition createGrid (c_size c_resolution : Z) (offset : Offset) (t : Terrain)
  : result (list (list number) * Terrain) :=
  let gridSize := Math_floor (ofZ c_size / ofZ c_resolution) in
  let* grid := createEmptyMatrix gridSize in
  for_lt gridSize (fun z =>
    for_lt gridSize (fun x '(grid, t) =>
      let '(height, t) := getHeight t x z offset in
      Ok (alter (array_set x height) (Z.to_nat z) grid, t)))
    (grid, t).

(** The rows [createGrid] leaves in the grid, read off the calls to
    [getHeight] in loop order ([createGrid_rows] below). *)
Definition sampled_row (offset : Offset) (g : Z) (z : Z) (t : Terrain)
  : list number * Terrain :=
  mapS (fun x t => getHeight t x z offset) (seqZ 0 g) t.

Definition sampled_grid (offset : Offset) (g : Z) (t : Terrain)
  : list (list number) * Terrain :=
  mapS (sampled_row offset g) (seqZ 0 g) t.

(** A sequence of calls to [getHeight] on one terrain. *)
Definition getHeights (calls : list (Z * Z * Offset)) (t : Terrain)
  : list number * Terrain :=
  mapS (fun '(x, z, offset) t => getHeight t x z offset) calls t.

(** The colour of a vertex (lines 318-324). *)
Definition color_of (height : number) : Color :=
  if (height <? Fin (45 # 100))%num then water
  else if (height <? Fin (5 # 10))%num then sand
  else if (height <? Fin (7 # 10))%num then grass
  else if (height <? Fin (9 # 10))%num then rock
  else snow.

(** The elevation of a vertex (line 326). *)
Definition elevation_of (height heightMultiplier : number) : number :=
  ((if height <? Fin (49 # 100) then Fin (49 # 100) else height)
   * heightMultiplier)%num.

(** [Chunk.#createMesh] (lines 288-338), the part that reads the grid:
    vertex [z * gridSize + x] gets the elevation and the colour of
    [grid[z][x]].  The geometry and the buffers of three.js (lines 291-309),
    among them [new Float32Array(gridSize * gridSize * 3)], are left out. *)
Definition createMesh (c_size c_resolution : Z) (heightMultiplier : number)
    (grid : list (list number)) : result (list (number * number * Color)) :=
  let gridSize := Math_floor (ofZ c_size / ofZ c_resolution) in
  for_lt gridSize (fun z =>
    for_lt gridSize (fun x mesh =>
      let index := (ofZ z * gridSize + ofZ x)%num in
      let height := array_get2 grid z x in
      Ok (mesh ++
          [(index, elevation_of height heightMultiplier, color_of height)])))
    [].

(** [new Chunk(...)] (lines 255-266). *)
Definition Chunk_new (size : Z) (offset : Offset) (resolution : Z)
    (heightMultiplier : number) (islands wireframe : bool) (t : Terrain)
  : result (Chunk * Terrain) :=
  let* (grid, t) := createGrid size resolution offset t in
  let* mesh := createMesh size resolution heightMultiplier grid in
  Ok ({| c_size := size; c_offset := offset; c_resolution := resolution;
         c_heightMultiplier := heightMultiplier; c_islands := islands;
         c_wireframe := wireframe; grid := grid; mesh := mesh |}, t).

(** [#addChunk] (lines 160-163). *)
Definition addChunk (chunk : Chunk) (t : Terrain) : Terrain :=
  {| config := config t; minHeight := minHeight t; maxHeight := maxHeight t;
     chunks := chunks t ++ [chunk]; noise := noise t |}.

(** [#create] / [create] (lines 142-158, 216-218). *)
Definition create (t : Terrain) : result Terrain :=
  for_lt (ofZ (size (config t))) (fun z =>
    for_lt (ofZ (size (config t))) (fun x t =>
      let c := config t in
      let* (chunk, t) :=
        Chunk_new (chunkSize c)
          {| off_x := x * chunkSize c; off_z := z * chunkSize c |}
          (resolution c) (heightMultiplier c) (islands c) (wireframe c) t in
      Ok (addChunk chunk t)))
    t.

(** [destroy] (lines 198-202). *)
Definition destroy (t : Terrain) : Terrain :=
  {| config := config t; minHeight := minHeight t; maxHeight := maxHeight t;
     chunks := []; noise := noise t |}.

(** [update] (lines 204-214). *)
Definition update (c : Config) (t : Terrain) : Terrain :=
  {| config := c; minHeight := minHeight t; maxHeight := maxHeight t;
     chunks := chunks t; noise := noise t |}.

(** [hash] (lines 220-232). *)
Definition hash (t : Terrain) : list (string * json) :=
  JSON_stringify (config t).

(** The page: [window.terrain] and the [CONFIG] object the panel edits. *)
Record App : Type := { terrain : Terrain; CONFIG : Config }.

(** [main], from the construction of the terrain on (lines 415-417). *)
Definition main (c : Config) (rnd : Z) : result App :=
  let* t := create (Terrain_new c rnd) in
  Ok {| terrain := t; CONFIG := c |}.

(** One frame of [animate] (lines 425-439). *)
Definition animate (a : App) : result App :=
  if decide (hash (terrain a) <> JSON_stringify (CONFIG a)) then
    let t := destroy (terrain a) in
    let t := update (CONFIG a) t in
    let* t := create t in
    Ok {| terrain := t; CONFIG := CONFIG a |}
  else Ok a.

(** The button 'Generate new seed' (lines 364-371). *)
Definition generate_new_seed (a : App) (rnd : Z) : result App :=
  let _ := destroy (terrain a) in
  let t := Terrain_new (CONFIG a) rnd in
  let* t := create t in
  Ok {| terrain := t; CONFIG := CONFIG a |}.

End WithNoise.

End Variant1.

(** ** Second version: lines 444-867

    The classes have the fields of the first version (lines 499-558 and
    654-685 repeat lines 81-140 and 235-266); only what differs is given. *)

Module Variant2.

Import Variant1.

Definition DEFAULT_CONFIG : Config := {|
  size := 3;
  chunkSize := 256;
  resolution := 8;
  octaves := 8;
  persistance := Fin (5 # 10);
  lacunarity := Fin 2;
  heightMultiplier := Fin 50;
  islands := false;
  wireframe := false
|}.

Section WithNoise.

Variable simplex2 : Z -> number -> number -> number.

(** [Noise.getNoise] (lines 492-496). *)
Definition Noise_getNoise (n : Noise) (x z : number) : number :=
  let value := simplex2 (seed n) x z in
  ((value + Fin 1) / Fin 2)%num.

(** The octave loop of [#getHeight] (lines 595-605). *)
Fixpoint octave_loop (t : Terrain) (normalX normalZ cellSize : number)
    (n : nat) (amplitude frequency noiseHeight : number) : number :=
  match n with
  | O => noiseHeight
  | S n' =>
      let xPos := ((normalX * cellSize) * frequency) in
      let zPos := ((normalZ * cellSize) * frequency) in
      let value := Noise_getNoise (noise t) xPos zPos in
      octave_loop t normalX normalZ cellSize n'
        (amplitude * persistance (config t))
        (frequency * lacunarity (config t))
        (noiseHeight + value * amplitude)
  end%num.

(** The fractal sum of [#getHeight] before normalisation (lines 584-605). *)
Definition rawHeight (t : Terrain) (x z : Z) : number :=
  let terrainWidth := (ofZ (size (config t)) * ofZ (chunkSize (config t)))%num in
  let normalX := (ofZ x / terrainWidth)%num in
  let normalZ := (ofZ z / terrainWidth)%num in
  let cellSize :=
    (ofZ (chunkSize (config t)) / ofZ (resolution (config t)))%num in
  octave_loop t normalX normalZ cellSize (Z.to_nat (octaves (config t)))
    (Fin 1) (Fin 1) (Fin 0).

(** [#getHeight] (lines 583-613). *)
Definition getHeight (t : Terrain) (x z : Z) : number * Terrain :=
  let noiseHeight := rawHeight t x z in
  let t := if (noiseHeight <? minHeight t)%num
           then set_minHeight noiseHeight t else t in
  let t := if (maxHeight t <? noiseHeight)%num
           then set_maxHeight noiseHeight t else t in
  (inverseLerp (minHeight t) (maxHeight t) noiseHeight, t).

(** [Chunk.#createGrid] (lines 687-712). *)
Definition createGrid (c_size c_resolution : Z) (offset : Offset) (t : Terrain)
  : result (list (list number) * Terrain) :=
  let gridSize := Math_floor (ofZ c_size / ofZ c_resolution) in
  let* grid := createEmptyMatrix gridSize in
  for_lt gridSize (fun z =>
    for_lt gridSize (fun x '(grid, t) =>
      let '(height, t) :=
        getHeight t (x + off_x offset) (z + off_z offset) in
      Ok (alter (array_set x height) (Z.to_nat z) grid, t)))
    (grid, t).

(** A sequence of calls to [getHeight] on one terrain. *)
Definition getHeights (calls : list (Z * Z)) (t : Terrain)
  : list number * Terrain :=
  mapS (fun '(x, z) t => getHeight t x z) calls t.

(** The colour of a vertex (lines 744-750). *)
Definition color_of (height : number) : Color :=
  if (height <? Fin (35 # 100))%num then water
  else if (height <? Fin (5 # 10))%num then sand
  else if (height <? Fin (7 # 10))%num then grass
  else if (height <? Fin (9 # 10))%num then rock
  else snow.

(** The elevation of a vertex (line 752). *)
Definition elevation_of (height heightMultiplier : number) : number :=
  ((if height <? Fin (35 # 100) then Fin (35 # 100) else height)
   * heightMultiplier)%num.

End WithNoise.

End Variant2.

(** ** Third version: lines 868-1251 *)

Module Variant3.

Record MapConfig : Type := {
  width : Z;
  height : Z;
  cellSize : Z;
  octaves : Z;
  persistance : number;
  lacunarity : number;
  heightLimit : number;
  falloff : bool;
  wireframe : bool
}.

(** The configuration with the box [falloff] of the panel set to [b]. *)
Definition with_falloff (b : bool) (c : MapConfig) : MapConfig := {|
  width := width c;
  height := height c;
  cellSize := cellSize c;
  octaves := octaves c;
  persistance := persistance c;
  lacunarity := lacunarity c;
  heightLimit := heightLimit c;
  falloff := b;
  wireframe := wireframe c
|}.

Definition DEFAULT_CONFIG : MapConfig := {|
  width := 300;
  height := 300;
  cellSize := 4;
  octaves := 8;
  persistance := Fin (5 # 10);
  lacunarity := Fin 2;
  heightLimit := Fin 50;
  falloff := false;
  wireframe := false
|}.

(** [{ x, y }]: the offset of a chunk. *)
Record Offset : Type := { off_x : Z; off_y : Z }.

(** [MapGenerator]: the nine parameters as one [MapConfig]. *)
Record MapGenerator : Type := {
  params : MapConfig;
  offset : Offset;
  columns : number;
  rows : number;
  map : list (list number);
  (** the calls [positions.setZ(index, elevation)] and
      [colors.setXYZ(index, ...)] of [#createMesh], in order *)
  mesh : list (number * number * Color);
  minHeight : number;
  maxHeight : number
}.

Section WithNoise.

(** [perlin.get] of the perlin library, for the seed in force. *)
Variable perlin_get : number -> number -> number.

(** The octave loop of [#createMap] (lines 992-1003). *)
Fixpoint octave_loop (c : MapConfig) (o : Offset) (x y : Z) (n : nat)
    (amplitude frequency noiseHeight : number) : number :=
  match n with
  | O => noiseHeight
  | S n' =>
      let xPos :=
        (((ofZ x * ofZ (cellSize c) / ofZ (width c)) - ofZ (off_x o)
          + (ofZ (width c) / Fin 2)) * frequency) in
      let yPos :=
        (((ofZ y * ofZ (cellSize c) / ofZ (height c)) - ofZ (off_y o)
          + (ofZ (height c) / Fin 2)) * frequency) in
      let value := ((perlin_get xPos yPos + Fin 1) / Fin 2) in
      octave_loop c o x y n'
        (amplitude * persistance c)
        (frequency * lacunarity c)
        (noiseHeight + value * amplitude)
  end%num.

(** The fractal sum of one cell (lines 988-1003). *)
Definition rawHeight (c : MapConfig) (o : Offset) (x y : Z) : number :=
  octave_loop c o x y (Z.to_nat (octaves c)) (Fin 1) (Fin 1) (Fin 0).

(** [#createFalloffMap] (lines 1024-1048). *)
Definition createFalloffMap (rows : number) : result (list (list number)) :=
  let size := rows in
  createIslandShapeGrid size.

(** [#createMap] (lines 979-1022), with the extremes it leaves in
    [this.minHeight] and [this.maxHeight]; the [null] that stands for the
    falloff grid when [falloff] is off is never read and is the empty
    array here. *)
Definition createMap (c : MapConfig) (o : Offset) (columns rows : number)
    (minHeight maxHeight : number)
  : result (list (list number) * number * number) :=
  let* falloffGrid :=
    (if falloff c then createFalloffMap rows else Ok []) in
  let* (grid, minHeight, maxHeight) :=
    for_lt rows (fun y '(grid, minHeight, maxHeight) =>
      let grid := array_set y [] grid in
      for_lt columns (fun x '(grid, minHeight, maxHeight) =>
        let noiseHeight := rawHeight c o x y in
        let minHeight :=
          if (noiseHeight <? minHeight)%num then noiseHeight else minHeight in
        let maxHeight :=
          if (maxHeight <? noiseHeight)%num then noiseHeight else maxHeight in
        let grid := alter (array_set x noiseHeight) (Z.to_nat y) grid in
        let grid :=
          if falloff c
          then alter (array_set x
                        (array_get2 grid y x - array_get2 falloffGrid y x)%num)
                 (Z.to_nat y) grid
          else grid in
        Ok (grid, minHeight, maxHeight))
        (grid, minHeight, maxHeight))
      ([], minHeight, maxHeight) in
  let* grid :=
    for_lt rows (fun y =>
      for_lt columns (fun x grid =>
        Ok (alter (array_set x
                     (inverseLerp minHeight maxHeight (array_get2 grid y x)))
              (Z.to_nat y) grid)))
      grid in
  Ok (grid, minHeight, maxHeight).

(** The functional reading of [#createMap] ([createMap_cells] below): the
    update of the extremes by one raw height (lines 1005-1006), the extremes
    after the first pass, the value a cell holds after the first pass and
    the map after the second pass. *)
Definition observe (e : number * number) (v : number) : number * number :=
  (if (v <? e.1)%num then v else e.1, if (e.2 <? v)%num then v else e.2).

Definition map_extremes (c : MapConfig) (o : Offset) (w h : Z)
    (e : number * number) : number * number :=
  fold_left (fun e y =>
    fold_left observe (List.map (fun x => rawHeight c o x y) (seqZ 0 w)) e)
    (seqZ 0 h) e.

Definition stored_cell (c : MapConfig) (o : Offset)
    (falloffGrid : list (list number)) (y x : Z) : number :=
  if falloff c
  then (rawHeight c o x y - array_get2 falloffGrid y x)%num
  else rawHeight c o x y.

Definition normalised_map (c : MapConfig) (o : Offset)
    (falloffGrid : list (list number)) (w h : Z) (e : number * number)
  : list (list number) :=
  List.map (fun y =>
    List.map (fun x => inverseLerp e.1 e.2 (stored_cell c o falloffGrid y x))
      (seqZ 0 w))
    (seqZ 0 h).

(** The colour and the elevation of a vertex (lines 1079-1091). *)
Definition color_of (height : number) : Color :=
  if (height <? Fin (45 # 100))%num then water
  else if (height <? Fin (5 # 10))%num then sand
  else if (height <? Fin (7 # 10))%num then grass
  else if (height <? Fin (9 # 10))%num then rock
  else snow.

Definition elevation_of (height heightLimit : number) : number :=
  if (height <? Fin (45 # 100))%num then (Fin (45 # 100) * heightLimit)%num
  else (height * heightLimit)%num.

(** [#createMesh] (lines 1050-1109), the part that reads the map.  The
    geometry and the buffers of three.js (lines 1051-1071) are left out,
    among them [new Float32Array(this.rows * this.columns * 3)], which
    throws a [RangeError] when the product is negative: what is proved of a
    map that has been built assumes numbers of rows and columns that are
    not negative. *)
Definition createMesh (columns rows heightLimit : number)
    (map : list (list number)) : result (list (number * number * Color)) :=
  for_lt rows (fun y =>
    for_lt columns (fun x mesh =>
      let index := (ofZ y * columns + ofZ x)%num in
      let height := array_get2 map y x in
      Ok (mesh ++ [(index, elevation_of height heightLimit, color_of height)])))
    [].

(** [new MapGenerator(...)] (lines 956-977). *)
Definition MapGenerator_new (c : MapConfig) (o : Offset) : result MapGenerator :=
  let columns := Math_floor (ofZ (width c) / ofZ (cellSize c)) in
  let rows := Math_floor (ofZ (height c) / ofZ (cellSize c)) in
  let minHeight := Number_MAX_SAFE_INTEGER in
  let maxHeight := Number_MIN_SAFE_INTEGER in
  let* (map, minHeight, maxHeight) :=
    createMap c o columns rows minHeight maxHeight in
  let* mesh := createMesh columns rows (heightLimit c) map in
  Ok {| params := c; offset := o; columns := columns; rows := rows;
        map := map; mesh := mesh;
        minHeight := minHeight; maxHeight := maxHeight |}.

(** [JSON.stringify(CONFIG)] (line 1217) and [hash] (lines 1111-1123),
    which write the same nine keys in the same order. *)
Definition JSON_stringify (c : MapConfig) : list (string * json) :=
  [ ("width"%string, json_of_number (ofZ (width c)));
    ("height"%string, json_of_number (ofZ (height c)));
    ("cellSize"%string, json_of_number (ofZ (cellSize c)));
    ("octaves"%string, json_of_number (ofZ (octaves c)));
    ("persistance"%string, json_of_number (persistance c));
    ("lacunarity"%string, json_of_number (lacunarity c));
    ("heightLimit"%string, json_of_number (heightLimit c));
    ("falloff"%string, JBool (falloff c));
    ("wireframe"%string, JBool (wireframe c)) ].

Definition hash (m : MapGenerator) : list (string * json) :=
  JSON_stringify (params m).

(** [createChunks] (lines 1161-1175), the matrix of chunks it builds. *)
Definition createChunks (size : Z) (config : MapConfig)
  : result (list (list MapGenerator)) :=
  for_lt (ofZ size) (fun i chunks =>
    let chunks := array_set i [] chunks in
    for_lt (ofZ size) (fun j chunks =>
      let chunkOffset :=
        {| off_x := j * width config; off_y := i * height config |} in
      let* chunk := MapGenerator_new config chunkOffset in
      Ok (alter (array_set j chunk) (Z.to_nat i) chunks))
      chunks)
    [].

End WithNoise.

End Variant3.

(** ** Vocabulary of the statements *)

(** [not_above a b]: [a] is [b] or lies below it. *)
Definition not_above (a b : number) : Prop := a = b \/ (a <? b)%num = true.

(** The normalised coordinate of an index and the Chebyshev distance of a
    cell, as [createIslandShapeGrid] computes them (lines 52-55). *)
Definition falloff_coordinate (size : number) (i : Z) : number :=
  (ofZ i / size * Fin 2 - Fin 1)%num.

Definition chebyshev (size : number) (i j : Z) : number :=
  Math_max (Math_abs (falloff_coordinate size i))
           (Math_abs (falloff_coordinate size j)).

(** The curve of the specification,
    [f(d) = d^3 / (d^3 + (2.2 - 2.2 d)^3)], on the rationals. *)
Definition falloff_curve (d : Q) : Q :=
  let e := (22 # 10) - (22 # 10) * d in
  d * (d * d) / (d * (d * d) + e * (e * e)).

(** The mask, cell by cell ([createIslandShapeGrid_cells] below). *)
Definition falloff_mask (n : Z) : list (list number) :=
  List.map (fun i =>
    List.map (fun j => evaluate (chebyshev (ofZ n) i j)) (seqZ 0 n))
    (seqZ 0 n).

(** A grid of [n] rows of [n] cells that all hold [NaN]. *)
Definition NaN_grid (n : nat) (grid : list (list number)) : Prop :=
  length grid = n
  /\ Forall (fun row => length row = n /\ Forall (fun h => h = NaN) row) grid.

(** The first cell of the first chunk of a terrain holds [NaN]. *)
Definition first_cell_NaN (chunks : list Variant1.Chunk) : Prop :=
  exists chunk rest row rows,
    chunks = chunk :: rest /\ Variant1.grid chunk = (NaN :: row) :: rows.

(** The extremes of a terrain are the sentinels of the constructor, or are
    both zero. *)
Definition sentinels_or_zero (t : Variant1.Terrain) : Prop :=
  (Variant1.minHeight t = Number_MAX_SAFE_INTEGER
   /\ Variant1.maxHeight t = Number_MIN_SAFE_INTEGER)
  \/ (Variant1.minHeight t = Fin 0 /\ Variant1.maxHeight t = Fin 0).

(** [Math.floor(size / resolution)] is [Infinity] or above [2^32 - 1]: no
    array of that length can be made. *)
Definition grid_too_large (size resolution : Z) : Prop :=
  (resolution = 0%Z /\ (0 < size)%Z)
  \/ (resolution <> 0%Z /\ (4294967295 < size / resolution)%Z).

(** The number of rows and columns of the grid of a chunk: the integer
    [Math.floor(size / resolution)] when it is positive, 0 when it is
    negative, [-Infinity] or [NaN]. *)
Definition grid_side (size resolution : Z) : nat :=
  if decide (resolution = 0%Z) then 0%nat else Z.to_nat (size / resolution).

(** A grid of [n] rows of [n] cells. *)
Definition square_grid (n : nat) (grid : list (list number)) : Prop :=
  length grid = n /\ Forall (fun row => length row = n) grid.

(** A height that is a number of [[0, 1]]. *)
Definition in_unit (h : number) : Prop :=
  exists r, h = Fin r /\ 0 <= r <= 1.

(** A height that is [NaN] or a number of [[0, 1]]. *)
Definition unit_or_NaN (h : number) : Prop :=
  h = NaN \/ exists r, h = Fin r /\ 0 <= r <= 1.

(** A perlin source whose samples are finite and lie in [[-1, 1]]. *)
Definition bounded_perlin (perlin_get : number -> number -> number) : Prop :=
  forall x y, exists q, perlin_get x y = Fin q /\ -1 <= q <= 1.

(** A noise source whose samples are finite and lie in [[-1, 1]]. *)
Definition bounded_noise (simplex2 : Z -> number -> number -> number) : Prop :=
  forall s x z, exists q, simplex2 s x z = Fin q /\ -1 <= q <= 1.

(** The offset [#create] gives the chunk of row [r] and column [c]
    (line 147). *)
Definition chunk_offset (c : Config) (row col : Z) : Variant1.Offset :=
  {| Variant1.off_x := col * chunkSize c; Variant1.off_z := row * chunkSize c |}.

(** The offsets of the chunks [#create] adds, in the order it adds them
    (lines 143-147). *)
Definition chunk_offsets (c : Config) : list Variant1.Offset :=
  flat_map (fun z => List.map (fun x => chunk_offset c z x) (seqZ 0 (size c)))
    (seqZ 0 (size c)).

(** The number of samples along a side of a chunk, for a resolution that is
    not zero (lines 171 and 269). *)
Definition gridSize (c : Config) : Z := (chunkSize c / resolution c)%Z.

(** Two numbers that [JSON.stringify] writes alike: two finite numbers of
    the same value, or two of [NaN], [Infinity] and [-Infinity], which are
    all written [null]. *)
Definition same_json_value (a b : number) : Prop :=
  match a, b with
  | Fin p, Fin q => p == q
  | Fin _, _ | _, Fin _ => False
  | _, _ => True
  end.

(** ** Sample data

    A noise with values in [[-1, 1]] for the examples: the difference of the
    coordinates, clamped. *)

Definition ramp (seed : Z) (x z : number) : number :=
  match (x - z)%num with
  | Fin q => Fin (Qmax (-1) (Qmin 1 q))
  | _ => Fin 0
  end.

Definition small_config : Config := {|
  size := 2;
  chunkSize := 6;
  resolution := 2;
  octaves := 2;
  persistance := Fin (1 # 2);
  lacunarity := Fin 2;
  heightMultiplier := Fin 10;
  islands := false;
  wireframe := false
|}.

(** [small_config] with the box [wireframe] of the panel ticked. *)
Definition small_config_wireframe : Config := {|
  size := 2;
  chunkSize := 6;
  resolution := 2;
  octaves := 2;
  persistance := Fin (1 # 2);
  lacunarity := Fin 2;
  heightMultiplier := Fin 10;
  islands := false;
  wireframe := true
|}.

(** Configurations outside the ranges of the panel. *)
Definition no_octaves_config : Config := {|
  size := 1;
  chunkSize := 4;
  resolution := 2;
  octaves := 0;
  persistance := Fin (1 # 2);
  lacunarity := Fin 2;
  heightMultiplier := Fin 10;
  islands := false;
  wireframe := false
|}.

Definition zero_resolution_config : Config := {|
  size := 1;
  chunkSize := 4;
  resolution := 0;
  octaves := 2;
  persistance := Fin (1 # 2);
  lacunarity := Fin 2;
  heightMultiplier := Fin 10;
  islands := false;
  wireframe := false
|}.

Definition origin : Variant1.Offset :=
  {| Variant1.off_x := 0; Variant1.off_z := 0 |}.

Definition map_origin : Variant3.Offset :=
  {| Variant3.off_x := 0; Variant3.off_y := 0 |}.

Definition small_map (island : bool) : Variant3.MapConfig := {|
  Variant3.width := 6;
  Variant3.height := 6;
  Variant3.cellSize := 2;
  Variant3.octaves := 1;
  Variant3.persistance := Fin (1 # 2);
  Variant3.lacunarity := Fin 2;
  Variant3.heightLimit := Fin 10;
  Variant3.falloff := island;
  Variant3.wireframe := false
|}.

(** A map that is wider than high, with [falloff] set, and a map whose cell
    size is zero. *)
Definition wide_map : Variant3.MapConfig := {|
  Variant3.width := 6;
  Variant3.height := 4;
  Variant3.cellSize := 2;
  Variant3.octaves := 1;
  Variant3.persistance := Fin (1 # 2);
  Variant3.lacunarity := Fin 2;
  Variant3.heightLimit := Fin 10;
  Variant3.falloff := true;
  Variant3.wireframe := false
|}.

Definition zero_cell_map : Variant3.MapConfig := {|
  Variant3.width := 6;
  Variant3.height := 6;
  Variant3.cellSize := 0;
  Variant3.octaves := 1;
  Variant3.persistance := Fin (1 # 2);
  Variant3.lacunarity := Fin 2;
  Variant3.heightLimit := Fin 10;
  Variant3.falloff := false;
  Variant3.wireframe := false
|}.

(** * Properties *)

(** ** Numbers *)

Lemma nlt_Fin (p q : Q) : (Fin p <? Fin q)%num = true <-> p < q.
Proof.
  simpl. rewrite Qlt_alt. destruct (p ?= q); split; congruence.
Qed.

Lemma nlt_Fin_false (p q : Q) : (Fin p <? Fin q)%num = false <-> q <= p.
Proof.
  simpl. destruct (Qcompare_spec p q) as [E|E|E]; split; try done.
  - intros _. rewrite E. apply Qle_refl.
  - intros H. exfalso. apply (Qlt_irrefl p). eapply Qlt_le_trans; eauto.
  - intros _. now apply Qlt_le_weak.
Qed.

Lemma nlt_irrefl (a : number) : (a <? a)%num = false.
Proof.
  destruct a; try reflexivity. apply nlt_Fin_false. apply Qle_refl.
Qed.

Lemma nlt_trans (a b c : number) :
  (a <? b)%num = true -> (b <? c)%num = true -> (a <? c)%num = true.
Proof.
  destruct a as [p| | |], b as [q| | |], c as [r| | |]; try done.
  rewrite !nlt_Fin. apply Qlt_trans.
Qed.

Lemma nadd_ofZ (a b : Z) : (ofZ a + ofZ b)%num = ofZ (a + b).
Proof.
  unfold ofZ; simpl. f_equal. rewrite <- (inject_Z_Qred (a + b)).
  apply Qred_complete. now rewrite inject_Z_plus.
Qed.

Lemma nmul_ofZ (a b : Z) : (ofZ a * ofZ b)%num = ofZ (a * b).
Proof.
  unfold ofZ; simpl. f_equal. rewrite <- (inject_Z_Qred (a * b)).
  apply Qred_complete. now rewrite inject_Z_mult.
Qed.

Lemma Qcompare_inject_Z_0 (a : Z) : (inject_Z a ?= 0) = (a ?= 0)%Z.
Proof. unfold Qcompare; simpl. now rewrite Z.mul_1_r. Qed.

(** [Math.floor(a / b)] on integers is the floor division, when [b] is not
    zero. *)
Lemma floor_div_ofZ (a b : Z) :
  b <> 0%Z -> Math_floor (ofZ a / ofZ b) = ofZ (a / b).
Proof.
  intros Hb. unfold ofZ at 1 2; simpl. rewrite Qcompare_inject_Z_0.
  destruct (Z.compare_spec b 0) as [E|_|_]; [done| |];
    simpl; unfold ofZ; f_equal; f_equal;
    rewrite Zdiv_Qdiv; apply Qfloor_comp, Qred_correct.
Qed.

(** With a zero divisor the quotient is an infinity or [NaN]. *)
Lemma floor_div_ofZ_0 (a : Z) :
  Math_floor (ofZ a / ofZ 0) = inf_signed (a ?= 0)%Z PInf.
Proof.
  unfold ofZ; simpl. rewrite Qcompare_inject_Z_0.
  now destruct (a ?= 0)%Z.
Qed.

Lemma Math_min_Fin (p q : Q) : Math_min (Fin p) (Fin q) = Fin (Qmin p q).
Proof.
  unfold Math_min, Qmin, GenericMinMax.gmin. simpl.
  rewrite <- (Qcompare_antisym p q). now destruct (p ?= q).
Qed.

Lemma Math_max_Fin (p q : Q) : Math_max (Fin p) (Fin q) = Fin (Qmax p q).
Proof.
  unfold Math_max, Qmax, GenericMinMax.gmax. simpl. now destruct (p ?= q).
Qed.

Lemma nsub_Fin (p q : Q) : (Fin p - Fin q)%num = Fin (Qred (p - q)).
Proof. reflexivity. Qed.

Lemma ndiv_Fin (p q : Q) : ~ q == 0 -> (Fin p / Fin q)%num = Fin (Qred (p / q)).
Proof. intros H. simpl. now destruct (Qcompare_spec q 0). Qed.

Lemma ndiv_zero_zero (p q : Q) : p == 0 -> q == 0 -> (Fin p / Fin q)%num = NaN.
Proof. intros Hp Hq. simpl. apply Qeq_alt in Hp, Hq. now rewrite Hp, Hq. Qed.

Lemma Qclamp_range (mn mx v : Q) : mn <= mx -> mn <= Qmax mn (Qmin mx v) <= mx.
Proof.
  intros H. destruct (Q.max_spec mn (Qmin mx v)) as [[? ->]|[? ->]]; [|lra].
  destruct (Q.min_spec mx v) as [[? E]|[? E]]; rewrite E in *; lra.
Qed.

Lemma Qclamp_inside (mn mx v : Q) : mn <= v <= mx -> Qmax mn (Qmin mx v) == v.
Proof.
  intros H. destruct (Q.min_spec mx v) as [[? E]|[? E]];
    destruct (Q.max_spec mn (Qmin mx v)) as [[? E']|[? E']];
    rewrite E', ?E in *; lra.
Qed.

Lemma Qclamp_below (mn mx v : Q) : mn <= mx -> v <= mn -> Qmax mn (Qmin mx v) == mn.
Proof.
  intros H Hv. destruct (Q.min_spec mx v) as [[? E]|[? E]];
    destruct (Q.max_spec mn (Qmin mx v)) as [[? E']|[? E']];
    rewrite E', ?E in *; lra.
Qed.

Lemma Qdiv_range (a b : Q) : 0 <= a <= b -> 0 < b -> 0 <= a / b <= 1.
Proof.
  intros [Ha Hab] Hb. split.
  - apply Qle_shift_div_l; lra.
  - apply Qle_shift_div_r; lra.
Qed.

(** ** [inverseLerp] *)

Lemma inverseLerp_Fin (mn mx v : Q) :
  mn < mx ->
  inverseLerp (Fin mn) (Fin mx) (Fin v)
  = Fin (Qred ((Qmax mn (Qmin mx v) - mn) / (mx - mn))).
Proof.
  intros H. unfold inverseLerp. rewrite Math_min_Fin, Math_max_Fin, !nsub_Fin.
  rewrite ndiv_Fin.
  - f_equal. apply Qred_complete. now rewrite !Qred_correct.
  - rewrite Qred_correct. lra.
Qed.

(** The zero-width range: [0 / 0]. *)
Lemma inverseLerp_same (m v : Q) : inverseLerp (Fin m) (Fin m) (Fin v) = NaN.
Proof.
  unfold inverseLerp. rewrite Math_min_Fin, Math_max_Fin, !nsub_Fin.
  apply ndiv_zero_zero; rewrite Qred_correct; [|lra].
  pose proof (Qclamp_range m m v (Qle_refl m)). lra.
Qed.

Lemma inverseLerp_range (mn mx v : Q) :
  mn < mx ->
  exists r, inverseLerp (Fin mn) (Fin mx) (Fin v) = Fin r /\ 0 <= r <= 1.
Proof.
  intros H. rewrite inverseLerp_Fin by done. eexists; split; [done|].
  rewrite Qred_correct. pose proof (Qclamp_range mn mx v).
  apply Qdiv_range; lra.
Qed.

(** ** The normalisation step of [getHeight] *)

Section Sampling.

Import Variant1.

Variable simplex2 : Z -> number -> number -> number.

Lemma Noise_get_bounded (n : Noise) (x z : number) :
  bounded_noise simplex2 ->
  exists v, Noise_get simplex2 n x z = Fin v /\ 0 <= v <= 1.
Proof.
  intros Hb. unfold Noise_get. destruct (Hb (seed n) x z) as (q & -> & Hq).
  simpl nadd. rewrite ndiv_Fin by lra. eexists; split; [done|].
  rewrite !Qred_correct. split.
  - apply Qle_shift_div_l; lra.
  - apply Qle_shift_div_r; lra.
Qed.

(** With a persistence in [[0, 1]] the amplitude stays in [[0, 1]] and every
    octave adds at most 1. *)
Lemma octave_loop_bounded (t : Terrain) (px pz : number) (p : Q) :
  bounded_noise simplex2 ->
  persistance (config t) = Fin p -> 0 <= p <= 1 ->
  forall (n : nat) (a h k : Q) (frequency : number),
    0 <= a <= 1 -> 0 <= h <= k ->
    exists h', octave_loop simplex2 t px pz n (Fin a) frequency (Fin h) = Fin h'
               /\ 0 <= h' <= k + inject_Z (Z.of_nat n).
Proof.
  intros Hb Hp Hp01. induction n as [|n IH]; intros a h k frequency Ha Hh.
  - exists h. split; [done|]. change (inject_Z (Z.of_nat 0)) with 0. lra.
  - cbn [octave_loop]. rewrite Hp.
    destruct (Noise_get_bounded (noise t) (px * frequency) (pz * frequency) Hb)
      as (v & -> & Hv).
    cbn [nmul nadd].
    destruct (IH (Qred (a * p)) (Qred (h + Qred (v * a))) (k + 1)
                (frequency * lacunarity (config t))%num) as (h' & E & Hh').
    + rewrite Qred_correct. nra.
    + rewrite !Qred_correct.
      assert (0 <= v * a) by nra. assert (v * a <= 1) by nra. lra.
    + exists h'. split; [exact E|].
      rewrite Nat2Z.inj_succ, <- Z.add_1_r, inject_Z_plus.
      change (inject_Z 1) with 1. lra.
Qed.

Lemma rawHeight_bounded (t : Terrain) (x z : Z) (offset : Offset) (p : Q) :
  bounded_noise simplex2 ->
  persistance (config t) = Fin p -> 0 <= p <= 1 ->
  exists h, rawHeight simplex2 t x z offset = Fin h
            /\ 0 <= h <= inject_Z (Z.max 0 (octaves (config t))).
Proof.
  intros Hb Hp Hp01. unfold rawHeight.
  destruct (noisePosition t x z offset) as [px pz].
  destruct (octave_loop_bounded t px pz p Hb Hp Hp01
              (Z.to_nat (octaves (config t))) 1 0 0 (Fin 1)) as (h & E & Hh);
    [lra | lra |].
  exists h. split; [exact E|].
  replace (Z.of_nat (Z.to_nat (octaves (config t))))
    with (Z.max 0 (octaves (config t))) in Hh by lia.
  lra.
Qed.

(** The fractal sum of finite samples is finite, whatever the persistence. *)
Lemma octave_loop_finite (t : Terrain) (px pz : number) (p : Q) :
  bounded_noise simplex2 ->
  persistance (config t) = Fin p ->
  forall (n : nat) (a h : Q) (frequency : number),
    exists h', octave_loop simplex2 t px pz n (Fin a) frequency (Fin h) = Fin h'.
Proof.
  intros Hb Hp. induction n as [|n IH]; intros a h frequency.
  - now exists h.
  - cbn [octave_loop]. rewrite Hp.
    destruct (Noise_get_bounded (noise t) (px * frequency)%num
                (pz * frequency)%num Hb) as (v & -> & _).
    cbn [nmul nadd]. apply IH.
Qed.

Lemma rawHeight_finite (t : Terrain) (x z : Z) (offset : Offset) (p : Q) :
  bounded_noise simplex2 ->
  persistance (config t) = Fin p ->
  exists h, rawHeight simplex2 t x z offset = Fin h.
Proof.
  intros Hb Hp. unfold rawHeight.
  destruct (noisePosition t x z offset) as [px pz].
  apply (octave_loop_finite t px pz p Hb Hp).
Qed.

(** The two conditional updates of lines 190-191 (and 607-608), and what
    they leave in the terrain. *)
Lemma getHeight_unfold (t : Terrain) (x z : Z) (offset : Offset) :
  let v := rawHeight simplex2 t x z offset in
  let mn := if (v <? minHeight t)%num then v else minHeight t in
  let mx := if (maxHeight t <? v)%num then v else maxHeight t in
  getHeight simplex2 t x z offset
  = (inverseLerp mn mx v,
     {| config := config t; minHeight := mn; maxHeight := mx;
        chunks := chunks t; noise := noise t |}).
Proof.
  unfold getHeight. cbv zeta.
  destruct (rawHeight simplex2 t x z offset <? minHeight t)%num;
    cbn [maxHeight minHeight set_minHeight];
    destruct (maxHeight t <? rawHeight simplex2 t x z offset)%num;
    cbn [maxHeight minHeight set_maxHeight set_minHeight]; destruct t; done.
Qed.

Lemma v2_getHeight_unfold (t : Terrain) (x z : Z) :
  let v := Variant2.rawHeight simplex2 t x z in
  let mn := if (v <? minHeight t)%num then v else minHeight t in
  let mx := if (maxHeight t <? v)%num then v else maxHeight t in
  Variant2.getHeight simplex2 t x z
  = (inverseLerp mn mx v,
     {| config := config t; minHeight := mn; maxHeight := mx;
        chunks := chunks t; noise := noise t |}).
Proof.
  unfold Variant2.getHeight. cbv zeta.
  destruct (Variant2.rawHeight simplex2 t x z <? minHeight t)%num;
    cbn [maxHeight minHeight set_minHeight];
    destruct (maxHeight t <? Variant2.rawHeight simplex2 t x z)%num;
    cbn [maxHeight minHeight set_maxHeight set_minHeight]; destruct t; done.
Qed.

Lemma not_above_refl (a : number) : not_above a a.
Proof. now left. Qed.

Lemma not_above_trans (a b c : number) :
  not_above a b -> not_above b c -> not_above a c.
Proof.
  intros [->|H1] [->|H2]; [now left | now right | now right |].
  right. eapply nlt_trans; eauto.
Qed.

Lemma getHeight_widens (t : Terrain) (x z : Z) (offset : Offset) :
  let t' := (getHeight simplex2 t x z offset).2 in
  not_above (minHeight t') (minHeight t)
  /\ not_above (maxHeight t) (maxHeight t').
Proof.
  rewrite getHeight_unfold. cbn. split.
  - destruct (_ <? minHeight t)%num eqn:E; [now right | now left].
  - destruct (maxHeight t <? _)%num eqn:E; [now right | now left].
Qed.

Lemma v2_getHeight_widens (t : Terrain) (x z : Z) :
  let t' := (Variant2.getHeight simplex2 t x z).2 in
  not_above (minHeight t') (minHeight t)
  /\ not_above (maxHeight t) (maxHeight t').
Proof.
  rewrite v2_getHeight_unfold. cbn. split.
  - destruct (_ <? minHeight t)%num eqn:E; [now right | now left].
  - destruct (maxHeight t <? _)%num eqn:E; [now right | now left].
Qed.

(** C8: across any sequence of [getHeight] calls on one terrain, in the
    first as in the second version, [minHeight] stays or decreases and
    [maxHeight] stays or increases: the range a height is normalised against
    is never wider than the range of a later height. *)
Theorem extremes_only_widen :
  (forall (calls : list (Z * Z * Offset)) (t : Terrain),
      let t' := (Variant1.getHeights simplex2 calls t).2 in
      not_above (minHeight t') (minHeight t)
      /\ not_above (maxHeight t) (maxHeight t'))
  /\ (forall (calls : list (Z * Z)) (t : Terrain),
      let t' := (Variant2.getHeights simplex2 calls t).2 in
      not_above (minHeight t') (minHeight t)
      /\ not_above (maxHeight t) (maxHeight t')).
Proof.
  split.
  - induction calls as [|[[x z] offset] calls IH]; intros t.
    + split; apply not_above_refl.
    + unfold getHeights. cbn [mapS].
      pose proof (getHeight_widens t x z offset) as Hstep.
      destruct (getHeight simplex2 t x z offset) as [h t1].
      specialize (IH t1). unfold getHeights in IH.
      destruct (mapS _ calls t1) as [hs t2]. cbn in *.
      destruct Hstep, IH. split; eapply not_above_trans; eauto.
  - induction calls as [|[x z] calls IH]; intros t.
    + split; apply not_above_refl.
    + unfold Variant2.getHeights. cbn [mapS].
      pose proof (v2_getHeight_widens t x z) as Hstep.
      destruct (Variant2.getHeight simplex2 t x z) as [h t1].
      specialize (IH t1). unfold Variant2.getHeights in IH.
      destruct (mapS _ calls t1) as [hs t2]. cbn in *.
      destruct Hstep, IH. split; eapply not_above_trans; eauto.
Qed.

(** On a terrain whose extremes are the sentinels, a finite raw height
    between them becomes both extremes and is normalised to [NaN]. *)
Lemma getHeight_sentinels (t : Terrain) (x z : Z) (offset : Offset) (v : Q) :
  minHeight t = Number_MAX_SAFE_INTEGER ->
  maxHeight t = Number_MIN_SAFE_INTEGER ->
  rawHeight simplex2 t x z offset = Fin v ->
  - (9007199254740991 # 1) < v < 9007199254740991 # 1 ->
  getHeight simplex2 t x z offset
  = (NaN, {| config := config t; minHeight := Fin v; maxHeight := Fin v;
             chunks := chunks t; noise := noise t |}).
Proof.
  intros Hmn Hmx Hv [Hlo Hhi]. rewrite getHeight_unfold. cbv zeta.
  rewrite Hv, Hmn, Hmx. unfold Number_MAX_SAFE_INTEGER, Number_MIN_SAFE_INTEGER, ofZ.
  rewrite (proj2 (nlt_Fin v _)) by exact Hhi.
  rewrite (proj2 (nlt_Fin _ v)) by exact Hlo.
  now rewrite inverseLerp_same.
Qed.

(** C1: on a freshly constructed terrain the first [getHeight] call returns
    [NaN], not [0]: both extremes have just been set to the raw height and
    [inverseLerp] divides [0] by [0].  This holds for every noise with values
    in [[-1, 1]], every persistence in [[0, 1]] and every cell. *)
Theorem first_getHeight_is_NaN (c : Config) (rnd x z : Z) (offset : Offset)
    (p : Q) :
  bounded_noise simplex2 ->
  persistance c = Fin p -> 0 <= p <= 1 ->
  (octaves c < 9007199254740991)%Z ->
  (getHeight simplex2 (Terrain_new c rnd) x z offset).1 = NaN.
Proof.
  intros Hb Hp Hp01 Ho.
  destruct (rawHeight_bounded (Terrain_new c rnd) x z offset p Hb Hp Hp01)
    as (h & Hh & Hrange).
  erewrite getHeight_sentinels; [done..| exact Hh |].
  cbn [config Terrain_new] in Hrange.
  assert (inject_Z (Z.max 0 (octaves c)) < 9007199254740991 # 1).
  { change (9007199254740991 # 1) with (inject_Z 9007199254740991).
    rewrite <- Zlt_Qlt. lia. }
  lra.
Qed.

End Sampling.

(** On finite arguments [inverseLerp] returns a number of [[0, 1]], except
    on a range of zero width, where it returns [NaN]. *)
Lemma inverseLerp_unit_or_NaN (mn mx v : Q) :
  (mn == mx /\ inverseLerp (Fin mn) (Fin mx) (Fin v) = NaN)
  \/ (~ mn == mx
      /\ exists r, inverseLerp (Fin mn) (Fin mx) (Fin v) = Fin r
                   /\ 0 <= r <= 1).
Proof.
  destruct (Qcompare_spec mn mx) as [E|Hlt|Hgt].
  - left. split; [exact E|].
    unfold inverseLerp. rewrite Math_min_Fin, Math_max_Fin, !nsub_Fin.
    apply ndiv_zero_zero; rewrite Qred_correct; [|lra].
    destruct (Q.min_spec mx v) as [[? E1]|[? E1]];
      destruct (Q.max_spec mn (Qmin mx v)) as [[? E2]|[? E2]];
      rewrite E2, ?E1 in *; lra.
  - right. split; [lra|]. now apply inverseLerp_range.
  - right. split; [lra|].
    unfold inverseLerp. rewrite Math_min_Fin, Math_max_Fin, !nsub_Fin.
    rewrite ndiv_Fin by (rewrite Qred_correct; lra).
    eexists. split; [reflexivity|]. rewrite !Qred_correct.
    assert (E : Qmax mn (Qmin mx v) == mn).
    { destruct (Q.min_spec mx v) as [[? E1]|[? E1]];
        destruct (Q.max_spec mn (Qmin mx v)) as [[? E2]|[? E2]];
        rewrite E2, ?E1 in *; lra. }
    rewrite E. assert (E0 : mn - mn == 0) by ring.
    rewrite E0. unfold Qdiv. rewrite Qmult_0_l. lra.
Qed.

(** ** Colour bands *)

Lemma band_below (h : Q) (c : Q) : h < c -> (Fin h <? Fin c)%num = true.
Proof. apply nlt_Fin. Qed.

Lemma band_above (h : Q) (c : Q) : c <= h -> (Fin h <? Fin c)%num = false.
Proof. apply nlt_Fin_false. Qed.

Ltac bands :=
  intros;
  repeat first
    [ rewrite band_below by lra
    | rewrite band_above by lra ];
  reflexivity.

(** C7, as the code has it: the bands are water below the water level, then
    sand below 0.5, grass below 0.7, rock below 0.9 and snow from 0.9 on,
    each band closed on its lower side; the water level is 0.45 in the first
    and third versions and 0.35 in the second. Every finite height falls in
    exactly one band. *)
Theorem color_bands (h : Q) :
  (h < 45 # 100 -> Variant1.color_of (Fin h) = water
                   /\ Variant3.color_of (Fin h) = water)
  /\ (45 # 100 <= h < 5 # 10 -> Variant1.color_of (Fin h) = sand
                                /\ Variant3.color_of (Fin h) = sand)
  /\ (h < 35 # 100 -> Variant2.color_of (Fin h) = water)
  /\ (35 # 100 <= h < 5 # 10 -> Variant2.color_of (Fin h) = sand)
  /\ (5 # 10 <= h < 7 # 10 ->
      Variant1.color_of (Fin h) = grass /\ Variant2.color_of (Fin h) = grass
      /\ Variant3.color_of (Fin h) = grass)
  /\ (7 # 10 <= h < 9 # 10 ->
      Variant1.color_of (Fin h) = rock /\ Variant2.color_of (Fin h) = rock
      /\ Variant3.color_of (Fin h) = rock)
  /\ (9 # 10 <= h ->
      Variant1.color_of (Fin h) = snow /\ Variant2.color_of (Fin h) = snow
      /\ Variant3.color_of (Fin h) = snow).
Proof.
  unfold Variant1.color_of, Variant2.color_of, Variant3.color_of.
  repeat split; bands.
Qed.

Lemma color_bands_witness :
  Variant1.color_of (Fin (45 # 100)) = sand
  /\ Variant2.color_of (Fin (35 # 100)) = sand
  /\ Variant3.color_of (Fin 1) = snow.
Proof.
  split; [|split].
  - apply (proj1 (proj2 (color_bands (45 # 100)))). split; [discriminate | reflexivity].
  - apply (proj1 (proj2 (proj2 (proj2 (color_bands (35 # 100)))))).
    split; [discriminate | reflexivity].
  - apply (proj2 (proj2 (proj2 (proj2 (proj2 (proj2 (color_bands 1))))))).
    discriminate.
Defined.

(** The second version classifies a height of 0.4, which is below 0.45, as
    sand. *)
Lemma color_bands_counterexample :
  4 # 10 < 45 # 100 /\ Variant2.color_of (Fin (4 # 10)) <> water.
Proof. split; [reflexivity | discriminate]. Qed.

(** ** Sample coordinates at the border of two chunks *)

Section Borders.

Import Variant1.

Lemma inject_Z_nonzero (w : Z) : w <> 0%Z -> ~ inject_Z w == 0.
Proof.
  intros Hw E. apply Hw. change 0 with (inject_Z 0) in E.
  exact (proj1 (inject_Z_injective w 0) E).
Qed.

Lemma noisePosition_x (t : Terrain) (x z : Z) (offset : Offset) :
  resolution (config t) <> 0%Z ->
  (size (config t) * chunkSize (config t))%Z <> 0%Z ->
  (noisePosition t x z offset).1
  = Fin (Qred (inject_Z (x * gridSize (config t) + off_x offset)
               / inject_Z (size (config t) * chunkSize (config t)))).
Proof.
  intros Hres Hw. unfold noisePosition. cbn [fst].
  rewrite floor_div_ofZ by done. rewrite !nmul_ofZ, nadd_ofZ.
  unfold ofZ. rewrite ndiv_Fin; [reflexivity|].
  now apply inject_Z_nonzero.
Qed.

Lemma Qdiv_inject_Z_inj (a b w : Z) :
  w <> 0%Z -> inject_Z a / inject_Z w == inject_Z b / inject_Z w -> a = b.
Proof.
  intros Hw E. apply inject_Z_injective.
  pose proof (inject_Z_nonzero w Hw) as Hw'.
  rewrite <- (Qdiv_mult_l (inject_Z a) (inject_Z w)) by exact Hw'.
  rewrite <- (Qdiv_mult_l (inject_Z b) (inject_Z w)) by exact Hw'.
  unfold Qdiv in *. rewrite <- !Qmult_assoc, (Qmult_comm (inject_Z w)).
  rewrite !Qmult_assoc. now rewrite E.
Qed.

(** The last column of the chunk [(row, col)] and the first column of the
    chunk [(row, col + 1)] are sampled at the same [x] exactly when
    [gridSize * (gridSize - 1) = chunkSize]. *)
Lemma border_positions_iff (t : Terrain) (row col z : Z) :
  resolution (config t) <> 0%Z ->
  (size (config t) * chunkSize (config t))%Z <> 0%Z ->
  let c := config t in
  (noisePosition t (gridSize c - 1) z (chunk_offset c row col)).1
  = (noisePosition t 0 z (chunk_offset c row (col + 1))).1
  <-> ((gridSize c - 1) * gridSize c = chunkSize c)%Z.
Proof.
  intros Hres Hw c. rewrite !noisePosition_x by done. subst c.
  cbn [chunk_offset off_x]. split.
  - intros E. injection E as E. apply Qred_eq_iff in E.
    apply Qdiv_inject_Z_inj in E; [lia | done].
  - intros E.
    replace ((gridSize (config t) - 1) * gridSize (config t)
             + col * chunkSize (config t))%Z
      with (0 * gridSize (config t) + (col + 1) * chunkSize (config t))%Z
      by lia.
    reflexivity.
Qed.

(** C4 on the default configuration: a chunk has 23 samples a side, taken
    23 apart, so its last column lies at 506 from its origin while the next
    chunk starts at 512: for every pair of horizontally adjacent chunks and
    every row of samples the two border columns are sampled at different
    coordinates, and (on the sample noise, first row of the first two
    chunks) the raw fractal values differ. *)
Theorem default_border_columns_differ :
  (forall (rnd row col z : Z),
      let t := Terrain_new DEFAULT_CONFIG rnd in
      (noisePosition t (gridSize DEFAULT_CONFIG - 1) z
         (chunk_offset DEFAULT_CONFIG row col)).1
      <> (noisePosition t 0 z (chunk_offset DEFAULT_CONFIG row (col + 1))).1)
  /\ (let t := Terrain_new DEFAULT_CONFIG 7 in
      rawHeight ramp t (gridSize DEFAULT_CONFIG - 1) 0
        (chunk_offset DEFAULT_CONFIG 0 0)
      <> rawHeight ramp t 0 0 (chunk_offset DEFAULT_CONFIG 0 1)).
Proof.
  split.
  - intros rnd row col z t E.
    apply (border_positions_iff t row col z) in E; [| done | done].
    vm_compute in E. discriminate E.
  - vm_compute. discriminate.
Qed.

End Borders.

(** ** Loops *)

Section Loops.

Context {S : Type}.

(** An invariant of the body is an invariant of the loop. *)
Lemma forM_inv (I : S -> Prop) (body : Z -> S -> result S) (l : list Z) :
  (forall i s s', I s -> body i s = Ok s' -> I s') ->
  forall s s', I s -> forM l body s = Ok s' -> I s'.
Proof.
  intros Hbody. induction l as [|i l IH]; intros s s' Hs E; cbn in E.
  - now injection E as <-.
  - destruct (body i s) as [s1| |] eqn:E1; cbn in E; try discriminate.
    eapply IH; [|exact E]. eauto.
Qed.

(** Two bodies that agree on the states of an invariant give the same
    loop. *)
Lemma forM_ext (I : S -> Prop) (f g : Z -> S -> result S) (l : list Z) :
  (forall i s, I s -> f i s = g i s) ->
  (forall i s s', I s -> f i s = Ok s' -> I s') ->
  forall s, I s -> forM l f s = forM l g s.
Proof.
  intros Hfg Hinv. induction l as [|i l IH]; intros s Hs; cbn; [done|].
  rewrite <- (Hfg i s Hs). destruct (f i s) as [s1| |] eqn:E1; cbn; try done.
  apply IH. eauto.
Qed.

Lemma for_lt_inv (I : S -> Prop) (body : Z -> S -> result S) (bound : number) :
  (forall i s s', I s -> body i s = Ok s' -> I s') ->
  forall s s', I s -> for_lt bound body s = Ok s' -> I s'.
Proof.
  intros Hbody s s' Hs. unfold for_lt.
  destruct (iterations bound); [|discriminate]. now apply forM_inv.
Qed.

Lemma for_lt_ext (I : S -> Prop) (f g : Z -> S -> result S) (bound : number) :
  (forall i s, I s -> f i s = g i s) ->
  (forall i s s', I s -> f i s = Ok s' -> I s') ->
  forall s, I s -> for_lt bound f s = for_lt bound g s.
Proof.
  intros Hfg Hinv s Hs. unfold for_lt.
  destruct (iterations bound); [|done]. now apply (forM_ext I).
Qed.

(** A loop over an integer bound. *)
Lemma for_lt_ofZ (body : Z -> S -> result S) (n : Z) (s : S) :
  for_lt (ofZ n) body s = forM (seqZ 0 (Z.max 0 n)) body s.
Proof. unfold for_lt, ofZ, iterations. now rewrite Qceiling_Z. Qed.

End Loops.

(** ** What a build leaves of the terrain *)

Section Frame.

Import Variant1.

Lemma getHeight_noise (simplex2 : Z -> number -> number -> number)
    (t : Terrain) (x z : Z) (offset : Offset) :
  noise (getHeight simplex2 t x z offset).2 = noise t
  /\ config (getHeight simplex2 t x z offset).2 = config t
  /\ chunks (getHeight simplex2 t x z offset).2 = chunks t.
Proof. now rewrite getHeight_unfold. Qed.

Lemma createGrid_noise (simplex2 : Z -> number -> number -> number)
    (cs res : Z) (offset : Offset) (t t' : Terrain) (g : list (list number)) :
  createGrid simplex2 cs res offset t = Ok (g, t') ->
  noise t' = noise t /\ config t' = config t /\ chunks t' = chunks t.
Proof.
  unfold createGrid. destruct (createEmptyMatrix _) as [g0| |]; try discriminate.
  cbn [bind]. intros E.
  apply (for_lt_inv (fun s : list (list number) * Terrain =>
           noise s.2 = noise t /\ config s.2 = config t
           /\ chunks s.2 = chunks t)) in E; [exact E| |done].
  clear. intros z s s' Hs E.
  apply (for_lt_inv (fun s : list (list number) * Terrain =>
           noise s.2 = noise t /\ config s.2 = config t
           /\ chunks s.2 = chunks t)) in E; [exact E| |done].
  clear. intros x [g1 t1] s' Hs E.
  pose proof (getHeight_noise simplex2 t1 x z offset) as Hn.
  destruct (getHeight simplex2 t1 x z offset) as [h t2].
  injection E as <-. cbn in *. intuition congruence.
Qed.

End Frame.

(** ** Loops that fill an array in place *)

Lemma alter_at {A} (f : A -> A) (i : nat) (l : list A) (x : A) :
  l !! i = Some x -> alter f i l = <[i := f x]> l.
Proof.
  intros H. rewrite list_insert_alter. apply list_alter_ext; [|done].
  intros y Hy. congruence.
Qed.

Lemma insert_alter_same {A} (f : A -> A) (i : nat) (l : list A) (x : A) :
  <[i := x]> (alter f i l) = <[i := x]> l.
Proof.
  rewrite !list_insert_alter, list_alter_alter_eq. done.
Qed.

Lemma array_set_inside {A} (k : nat) (v : A) (done rest : list A) (r : A) :
  length done = k ->
  array_set (Z.of_nat k) v (done ++ r :: rest) = done ++ v :: rest.
Proof.
  intros <-. unfold array_set. rewrite Nat2Z.id.
  rewrite decide_False by (rewrite length_app; simpl; lia).
  rewrite insert_app_r_alt by lia. now rewrite Nat.sub_diag.
Qed.

Lemma array_set_end {A} (k : nat) (v : A) (l : list A) :
  length l = k -> array_set (Z.of_nat k) v l = l ++ [v].
Proof.
  intros <-. unfold array_set. rewrite Nat2Z.id. now rewrite decide_True.
Qed.

Lemma seqZ_succ (k : Z) (n : nat) :
  seqZ k (Z.of_nat (S n)) = k :: seqZ (k + 1) (Z.of_nat n).
Proof.
  rewrite seqZ_cons by lia. f_equal. f_equal; lia.
Qed.

Section Fill.

Context {S : Type}.

Lemma fill_row_loop (f : Z -> S -> number * S) (zi : nat) :
  forall (rest done : list number) (grid : list (list number)) (s : S),
    grid !! zi = Some (done ++ rest) ->
    forM (seqZ (Z.of_nat (length done)) (Z.of_nat (length rest)))
      (fun x '(grid, s) =>
         let '(h, s') := f x s in
         Ok (alter (array_set x h) zi grid, s'))
      (grid, s)
    = let '(hs, s') :=
        mapS f (seqZ (Z.of_nat (length done)) (Z.of_nat (length rest))) s in
      Ok (<[zi := done ++ hs]> grid, s').
Proof.
  induction rest as [|r rest IH]; intros done grid s Hrow.
  - cbn [length]. rewrite seqZ_nil by lia. cbn.
    rewrite app_nil_r in *. now rewrite list_insert_id.
  - cbn [length]. rewrite seqZ_succ. cbn [forM mapS].
    destruct (f (Z.of_nat (length done)) s) as [h s1]. cbn [bind].
    rewrite (alter_at _ _ _ _ Hrow), array_set_inside by done.
    specialize (IH (done ++ [h]) (<[zi := done ++ h :: rest]> grid) s1).
    rewrite length_app in IH. cbn [length] in IH.
    replace (Z.of_nat (length done + 1)) with (Z.of_nat (length done) + 1)%Z in IH by lia.
    rewrite IH.
    + destruct (mapS f _ s1) as [hs s2].
      rewrite list_insert_insert_eq. now rewrite <- app_assoc.
    + rewrite <- app_assoc. apply list_lookup_insert_eq.
      now apply lookup_lt_Some in Hrow.
Qed.

Lemma fill_grid_loop (r : Z -> S -> list number * S) (n : nat)
    (body : Z -> list (list number) * S -> result (list (list number) * S)) :
  (forall (zi : nat) g s row,
      g !! zi = Some row -> length row = n ->
      body (Z.of_nat zi) (g, s)
      = let '(hs, s') := r (Z.of_nat zi) s in Ok (<[zi := hs]> g, s')) ->
  forall (rest done : list (list number)) (s : S),
    Forall (fun row => length row = n) rest ->
    forM (seqZ (Z.of_nat (length done)) (Z.of_nat (length rest))) body
      (done ++ rest, s)
    = let '(rows, s') :=
        mapS r (seqZ (Z.of_nat (length done)) (Z.of_nat (length rest))) s in
      Ok (done ++ rows, s').
Proof.
  intros Hbody. induction rest as [|row rest IH]; intros done s Hall.
  - cbn [length]. rewrite seqZ_nil by lia. cbn. now rewrite app_nil_r.
  - cbn [length]. rewrite seqZ_succ. cbn [forM mapS].
    inversion Hall as [|? ? Hrow Hrest]; subst.
    rewrite (Hbody (length done) (done ++ row :: rest) s row);
      [| by rewrite list_lookup_middle | done].
    destruct (r (Z.of_nat (length done)) s) as [hs s1]. cbn [bind].
    rewrite insert_app_r_alt, Nat.sub_diag by lia. cbn [insert list_insert].
    specialize (IH (done ++ [hs]) s1 Hrest).
    rewrite length_app in IH. cbn [length] in IH.
    replace (Z.of_nat (length done + 1)) with (Z.of_nat (length done) + 1)%Z in IH by lia.
    rewrite <- app_assoc in IH. cbn [app] in IH. rewrite IH.
    destruct (mapS r _ s1) as [rows s2]. now rewrite <- app_assoc.
Qed.
End Fill.

Lemma seqZ_max (m n : Z) : seqZ m (Z.max 0 n) = seqZ m n.
Proof. unfold seqZ. f_equal. f_equal. lia. Qed.

Lemma mapS_length {A B S} (f : A -> S -> B * S) (l : list A) (s : S) :
  length (mapS f l s).1 = length l.
Proof.
  revert s. induction l as [|a l IH]; intros s; cbn [mapS]; [done|].
  destruct (f a s) as [b s1]. specialize (IH s1).
  destruct (mapS f l s1). cbn in *. now rewrite IH.
Qed.

(** An invariant of the state gives a property of every result. *)
Lemma mapS_inv {A B S} (I : S -> Prop) (P : B -> Prop)
    (f : A -> S -> B * S) (l : list A) :
  (forall a s, I s -> P (f a s).1 /\ I (f a s).2) ->
  forall s, I s -> Forall P (mapS f l s).1 /\ I (mapS f l s).2.
Proof.
  intros Hf. induction l as [|a l IH]; intros s Hs; cbn [mapS].
  - split; [constructor | done].
  - destruct (Hf a s Hs) as [Hp Hi]. destruct (f a s) as [b s1].
    destruct (IH s1 Hi) as [Hps His]. destruct (mapS f l s1).
    split; [now constructor | done].
Qed.

(** A loop whose body returns on the states of an invariant returns. *)
Lemma forM_total {S} (I J : S -> Prop) (body : Z -> S -> result S) :
  (forall s, J s -> I s) ->
  (forall i s, I s -> exists s', body i s = Ok s' /\ J s') ->
  forall (l : list Z) (s : S),
    I s -> exists s', forM l body s = Ok s' /\ (l = [] \/ J s') /\ I s'.
Proof.
  intros HJI Hbody. induction l as [|i l IH]; intros s Hs; cbn [forM].
  - exists s. auto.
  - destruct (Hbody i s Hs) as (s1 & -> & H1). cbn [bind].
    destruct (IH s1 (HJI _ H1)) as (s2 & E & Hor & HI2).
    exists s2. split; [exact E|]. split; [right|exact HI2].
    destruct Hor as [->|H2]; [|exact H2].
    cbn in E. now injection E as <-.
Qed.

Lemma forM_returns {S} (body : Z -> S -> result S) (l : list Z) (s : S) :
  (forall i s, exists s', body i s = Ok s') ->
  exists s', forM l body s = Ok s'.
Proof.
  intros Hbody.
  destruct (forM_total (fun _ => True) (fun _ => True) body) with (l := l) (s := s)
    as (s' & E & _); [done| |done|by exists s'].
  intros i s0 _. destruct (Hbody i s0) as (s1 & E). now exists s1.
Qed.

Lemma for_lt_returns {S} (body : Z -> S -> result S) (n : Z) (s : S) :
  (forall i s, exists s', body i s = Ok s') ->
  exists s', for_lt (ofZ n) body s = Ok s'.
Proof. intros Hbody. rewrite for_lt_ofZ. now apply forM_returns. Qed.

(** ** The grid of a chunk, first version *)

Section Grid1.

Import Variant1.

Variable simplex2 : Z -> number -> number -> number.

Lemma createEmptyMatrix_ofZ (g : Z) :
  (g <= 4294967295)%Z ->
  createEmptyMatrix (ofZ g)
  = Ok (replicate (Z.to_nat g) (replicate (Z.to_nat g) (Fin 0))).
Proof.
  intros Hg. unfold createEmptyMatrix, ToLength, ofZ. rewrite Qfloor_Z.
  destruct (Z.ltb_spec 4294967295 (Z.min (Z.max 0 g) 9007199254740991));
    [lia|].
  replace (Z.to_nat (Z.min (Z.max 0 g) 9007199254740991)) with (Z.to_nat g)
    by lia.
  reflexivity.
Qed.

Lemma createEmptyMatrix_throws (g : number) :
  (4294967295 < ToLength g)%Z -> createEmptyMatrix g = Throw RangeError.
Proof.
  intros Hg. unfold createEmptyMatrix.
  now destruct (Z.ltb_spec 4294967295 (ToLength g)); [|lia].
Qed.

(** [createGrid] returns the heights in the order of the calls. *)
Lemma createGrid_rows (cs res : Z) (offset : Offset) (t : Terrain) :
  res <> 0%Z -> (cs / res <= 4294967295)%Z ->
  createGrid simplex2 cs res offset t
  = Ok (sampled_grid simplex2 offset (cs / res) t).
Proof.
  intros Hres Hg. unfold createGrid. rewrite floor_div_ofZ by done.
  set (g := (cs / res)%Z) in *. rewrite createEmptyMatrix_ofZ by done.
  cbn [bind]. rewrite for_lt_ofZ.
  set (n := Z.to_nat g).
  set (body := fun z => for_lt (ofZ g) _).
  assert (Hbody : forall (zi : nat) g0 s row,
    g0 !! zi = Some row -> length row = n ->
    body (Z.of_nat zi) (g0, s)
    = let '(hs, s') := sampled_row simplex2 offset g (Z.of_nat zi) s in
      Ok (<[zi := hs]> g0, s')).
  { intros zi g0 s row Hrow Hlen. subst body. cbv beta.
    rewrite for_lt_ofZ, Nat2Z.id.
    pose proof (fill_row_loop
                  (fun x t => getHeight simplex2 t x (Z.of_nat zi) offset)
                  zi row [] g0 s Hrow) as Hrowloop.
    cbn [length app] in Hrowloop. rewrite Hlen in Hrowloop.
    change (Z.of_nat 0) with 0%Z in Hrowloop.
    replace (Z.of_nat n) with (Z.max 0 g) in Hrowloop by lia.
    rewrite Hrowloop. unfold sampled_row. now rewrite seqZ_max. }
  pose proof (fill_grid_loop (sampled_row simplex2 offset g) n body Hbody
                (replicate n (replicate n (Fin 0))) [] t) as Hloop.
  cbn [length app] in Hloop. rewrite length_replicate in Hloop.
  change (Z.of_nat 0) with 0%Z in Hloop.
  replace (Z.of_nat n) with (Z.max 0 g) in Hloop by lia.
  rewrite Hloop.
  - unfold sampled_grid. rewrite seqZ_max.
    destruct (mapS (sampled_row simplex2 offset g) (seqZ 0 g) t). reflexivity.
  - apply Forall_replicate. apply length_replicate.
Qed.

(** [createMesh] returns whenever the grid could be built. *)
Lemma createMesh_returns (cs res : Z) (hm : number) (grid : list (list number)) :
  res <> 0%Z ->
  exists mesh, createMesh cs res hm grid = Ok mesh.
Proof.
  intros Hres. unfold createMesh. rewrite floor_div_ofZ by done.
  apply for_lt_returns. intros z m. apply for_lt_returns. intros x m'.
  eexists. reflexivity.
Qed.

(** [new Chunk] on a configuration whose grid size is a valid length. *)
Lemma Chunk_new_returns (cs res : Z) (offset : Offset) (hm : number)
    (isl wf : bool) (t : Terrain) :
  res <> 0%Z -> (cs / res <= 4294967295)%Z ->
  exists chunk,
    Chunk_new simplex2 cs offset res hm isl wf t
    = Ok (chunk, (sampled_grid simplex2 offset (cs / res) t).2)
    /\ grid chunk = (sampled_grid simplex2 offset (cs / res) t).1.
Proof.
  intros Hres Hg. unfold Chunk_new. rewrite createGrid_rows by done.
  destruct (sampled_grid simplex2 offset (cs / res) t) as [g t'].
  cbn [bind].
  destruct (createMesh_returns cs res hm g Hres) as (mesh & ->).
  cbn [bind]. eexists. split; reflexivity.
Qed.

End Grid1.

(** ** Builds, first version *)

Section Build1.

Import Variant1.

Variable simplex2 : Z -> number -> number -> number.

Lemma sampled_grid_frame (offset : Offset) (g : Z) (t : Terrain) :
  let t' := (sampled_grid simplex2 offset g t).2 in
  config t' = config t /\ chunks t' = chunks t /\ noise t' = noise t.
Proof.
  pose (K := fun t' : Terrain =>
    config t' = config t /\ chunks t' = chunks t /\ noise t' = noise t).
  assert (Hrow : forall z s, K s ->
    True /\ K (sampled_row simplex2 offset g z s).2).
  { intros z s Hs. split; [done|].
    apply (mapS_inv K (fun _ => True)); [|done].
    intros x s1 (H1 & H2 & H3). split; [done|].
    destruct (getHeight_noise simplex2 s1 x z offset) as (Hn & Hc & Hch).
    unfold K. rewrite Hn, Hc, Hch. done. }
  apply (mapS_inv K (fun _ => True) _ _ Hrow). unfold K. done.
Qed.

(** The build loop under an invariant [I] of the terrain that every added
    chunk re-establishes in the form [J]. *)
Lemma create_total (c : Config) (I J : Terrain -> Prop) :
  resolution c <> 0%Z -> (gridSize c <= 4294967295)%Z ->
  (forall t, J t -> I t) ->
  (forall t, I t -> config t = c) ->
  (forall offset t chunk,
      I t -> grid chunk = (sampled_grid simplex2 offset (gridSize c) t).1 ->
      J (addChunk chunk (sampled_grid simplex2 offset (gridSize c) t).2)) ->
  forall t, I t ->
    exists t', create simplex2 t = Ok t' /\ ((size c <= 0)%Z \/ J t') /\ I t'.
Proof.
  intros Hres Hg HJI Hcfg Hadd t Ht. unfold create.
  rewrite (Hcfg t Ht), for_lt_ofZ.
  assert (Hbody : forall z x t1, I t1 -> exists t2,
    (let c0 := config t1 in
     let* (chunk, t0) :=
       Chunk_new simplex2 (chunkSize c0)
         {| off_x := x * chunkSize c0; off_z := z * chunkSize c0 |}
         (resolution c0) (heightMultiplier c0) (islands c0) (wireframe c0) t1 in
     Ok (addChunk chunk t0)) = Ok t2 /\ J t2).
  { intros z x t1 H1. cbv zeta. rewrite (Hcfg t1 H1).
    destruct (Chunk_new_returns simplex2 (chunkSize c) (resolution c)
                {| off_x := x * chunkSize c; off_z := z * chunkSize c |}
                (heightMultiplier c) (islands c) (wireframe c) t1 Hres Hg)
      as (chunk & -> & Hgrid).
    cbn [bind]. eexists. split; [reflexivity|]. now apply Hadd. }
  destruct (Z.le_gt_cases (size c) 0) as [Hsize|Hsize].
  - rewrite seqZ_nil by lia. exists t. cbn. auto.
  - destruct (forM_total I J
      (fun z => for_lt (ofZ (size c)) (fun x t1 =>
         let c0 := config t1 in
         let* (chunk, t0) :=
           Chunk_new simplex2 (chunkSize c0)
             {| off_x := x * chunkSize c0; off_z := z * chunkSize c0 |}
             (resolution c0) (heightMultiplier c0) (islands c0)
             (wireframe c0) t1 in
         Ok (addChunk chunk t0))) HJI) with (l := seqZ 0 (Z.max 0 (size c)))
      (s := t) as (t' & E & Hor & HI); [|exact Ht|].
    + intros z t1 H1. rewrite for_lt_ofZ.
      destruct (forM_total I J _ HJI (Hbody z) (seqZ 0 (Z.max 0 (size c))) t1 H1)
        as (t2 & E2 & [Hnil|HJ] & _).
      * apply (f_equal length) in Hnil. rewrite length_seqZ in Hnil.
        cbn in Hnil. lia.
      * now exists t2.
    + exists t'. split; [exact E|]. split; [|exact HI].
      destruct Hor as [Hnil|HJ]; [|now right].
      apply (f_equal length) in Hnil. rewrite length_seqZ in Hnil.
      cbn in Hnil. lia.
Qed.

(** *** Without octaves every height is [NaN] *)

Lemma rawHeight_no_octaves (t : Terrain) (x z : Z) (offset : Offset) :
  (octaves (config t) <= 0)%Z -> rawHeight simplex2 t x z offset = Fin 0.
Proof.
  intros Ho. unfold rawHeight. destruct (noisePosition t x z offset).
  now replace (Z.to_nat (octaves (config t))) with 0%nat by lia.
Qed.

Lemma getHeight_no_octaves (t : Terrain) (x z : Z) (offset : Offset) :
  (octaves (config t) <= 0)%Z -> sentinels_or_zero t ->
  getHeight simplex2 t x z offset
  = (NaN, {| config := config t; minHeight := Fin 0; maxHeight := Fin 0;
             chunks := chunks t; noise := noise t |}).
Proof.
  intros Ho [[Hmn Hmx]|[Hmn Hmx]].
  - apply getHeight_sentinels; [done | done | now apply rawHeight_no_octaves |].
    split; reflexivity.
  - rewrite getHeight_unfold. cbv zeta.
    rewrite rawHeight_no_octaves, Hmn, Hmx by done. reflexivity.
Qed.

Lemma sampled_grid_no_octaves (offset : Offset) (g : Z) (t : Terrain) :
  (octaves (config t) <= 0)%Z -> sentinels_or_zero t ->
  NaN_grid (Z.to_nat g) (sampled_grid simplex2 offset g t).1
  /\ sentinels_or_zero (sampled_grid simplex2 offset g t).2.
Proof.
  intros Ho Hs.
  pose (K := fun t' : Terrain =>
    (octaves (config t') <= 0)%Z /\ sentinels_or_zero t').
  assert (Hrow : forall z s, K s ->
    (length (sampled_row simplex2 offset g z s).1 = Z.to_nat g
     /\ Forall (fun h => h = NaN) (sampled_row simplex2 offset g z s).1)
    /\ K (sampled_row simplex2 offset g z s).2).
  { intros z s Hk. unfold sampled_row.
    rewrite mapS_length, length_seqZ.
    enough (Forall (fun h => h = NaN)
              (mapS (fun x t0 => getHeight simplex2 t0 x z offset)
                 (seqZ 0 g) s).1
            /\ K (mapS (fun x t0 => getHeight simplex2 t0 x z offset)
                    (seqZ 0 g) s).2) by tauto.
    apply (mapS_inv K); [|done].
    intros x s1 [Ho1 Hs1]. rewrite getHeight_no_octaves by done.
    split; [done|]. split; [done|]. now right. }
  unfold NaN_grid, sampled_grid. rewrite mapS_length, length_seqZ.
  destruct (mapS_inv K
              (fun row => length row = Z.to_nat g
                          /\ Forall (fun h => h = NaN) row)
              (sampled_row simplex2 offset g) (seqZ 0 g) Hrow t)
    as [Hall [_ Hk]]; [done|].
  done.
Qed.

(** C10, as the code has it: no configuration is rejected at construction.
    With an octave count below 1 the build runs to its end and every chunk
    gets a full grid in which every height is [NaN]; with a resolution of 0
    (and a positive chunk size, at least one chunk) the build stops in
    [createEmptyMatrix] with a [RangeError], before any sample is taken. *)
Theorem out_of_range_configurations_proceed (c : Config) (rnd : Z) :
  ((octaves c <= 0)%Z -> resolution c <> 0%Z ->
   (gridSize c <= 4294967295)%Z ->
   exists a,
     main simplex2 c rnd = Ok a
     /\ Forall (fun chunk => NaN_grid (Z.to_nat (gridSize c)) (grid chunk))
          (chunks (terrain a))
     /\ ((1 <= size c)%Z -> chunks (terrain a) <> []))
  /\ (resolution c = 0%Z -> (0 < chunkSize c)%Z -> (1 <= size c)%Z ->
      main simplex2 c rnd = Throw RangeError).
Proof.
  split.
  - intros Ho Hres Hg. unfold main.
    pose (I := fun t : Terrain =>
      config t = c /\ sentinels_or_zero t
      /\ Forall (fun chunk => NaN_grid (Z.to_nat (gridSize c)) (grid chunk))
           (chunks t)).
    pose (J := fun t : Terrain => I t /\ chunks t <> []).
    destruct (create_total c I J Hres Hg) with (t := Terrain_new c rnd)
      as (t' & -> & Hor & Hc & Hs & Hall).
    + now intros t [Ht _].
    + now intros t [Ht _].
    + intros offset t chunk (Hc & Hs & Hall) Hgrid.
      destruct (sampled_grid_frame offset (gridSize c) t) as (Hc' & Hch' & _).
      destruct (sampled_grid_no_octaves offset (gridSize c) t) as [Hnan Hs'];
        [now rewrite Hc | done |].
      repeat split; cbn [addChunk config minHeight maxHeight chunks].
      * congruence.
      * exact Hs'.
      * rewrite Hch'. apply Forall_app. split; [done|].
        constructor; [|constructor]. now rewrite Hgrid.
      * now destruct (chunks (sampled_grid simplex2 offset (gridSize c) t).2).
    + repeat split; [now left | constructor].
    + cbn [bind]. eexists. split; [reflexivity|]. split; [exact Hall|].
      intros Hsize. destruct Hor as [?|[_ Hne]]; [lia | exact Hne].
  - intros Hres Hcs Hsize. unfold main, create.
    cbn [config Terrain_new]. rewrite !for_lt_ofZ.
    rewrite (seqZ_cons 0 (Z.max 0 (size c))) by lia. cbn [forM].
    rewrite for_lt_ofZ, (seqZ_cons 0 (Z.max 0 (size c))) by lia.
    cbn [forM]. cbv zeta. cbn [config Terrain_new].
    unfold Chunk_new, createGrid. rewrite Hres, floor_div_ofZ_0.
    replace (chunkSize c ?= 0)%Z with Gt by (symmetry; now apply Z.compare_gt_iff).
    reflexivity.
Qed.

(** C2 on the first version: in every build from construction with at least
    one chunk and one sample a side, a noise with values in [[-1, 1]] and a
    persistence in [[0, 1]], the first cell of the first chunk's grid holds
    [NaN], which is not in [[0, 1]]. *)
Theorem first_cell_of_build_is_NaN (c : Config) (rnd : Z) (p : Q) :
  bounded_noise simplex2 ->
  persistance c = Fin p -> 0 <= p <= 1 ->
  (octaves c < 9007199254740991)%Z ->
  (1 <= size c)%Z -> resolution c <> 0%Z ->
  (1 <= gridSize c <= 4294967295)%Z ->
  exists a,
    main simplex2 c rnd = Ok a /\ first_cell_NaN (chunks (terrain a)).
Proof.
  intros Hb Hp Hp01 Ho Hsize Hres [Hg1 Hg]. unfold main.
  pose (J := fun t : Terrain => config t = c /\ first_cell_NaN (chunks t)).
  pose (I := fun t : Terrain =>
    config t = c
    /\ ((minHeight t = Number_MAX_SAFE_INTEGER
         /\ maxHeight t = Number_MIN_SAFE_INTEGER /\ chunks t = [])
        \/ first_cell_NaN (chunks t))).
  destruct (create_total c I J Hres Hg) with (t := Terrain_new c rnd)
    as (t' & -> & Hor & _).
  - intros t [Hc Hf]. split; [done | now right].
  - now intros t [Hc _].
  - intros offset t chunk [Hc Hcase] Hgrid.
    destruct (sampled_grid_frame offset (gridSize c) t) as (Hc' & Hch' & _).
    split; [cbn; congruence|]. cbn [addChunk chunks]. rewrite Hch'.
    destruct Hcase as [(Hmn & Hmx & Hnil)|(ch & rest & row & rows & E & Eg)].
    + rewrite Hnil. cbn [app]. exists chunk, []. rewrite Hgrid.
      unfold sampled_grid, sampled_row.
      rewrite (seqZ_cons 0 (gridSize c)) by lia. cbn [mapS].
      destruct (rawHeight_bounded simplex2 t 0 0 offset p Hb)
        as (h & Hh & Hrange); [now rewrite Hc | done |].
      rewrite (getHeight_sentinels simplex2 t 0 0 offset h Hmn Hmx Hh).
      * destruct (mapS _ (seqZ (Z.succ 0) (Z.pred (gridSize c))) _) as [hs t1].
        destruct (mapS _ (seqZ (Z.succ 0) (Z.pred (gridSize c))) t1)
          as [rs t2].
        cbn. eauto.
      * rewrite Hc in Hrange.
        assert (inject_Z (Z.max 0 (octaves c)) < 9007199254740991 # 1).
        { change (9007199254740991 # 1) with (inject_Z 9007199254740991).
          rewrite <- Zlt_Qlt. lia. }
        lra.
    + rewrite E. cbn [app]. now exists ch, (rest ++ [chunk]), row, rows.
  - split; [done|]. left. done.
  - cbn [bind]. eexists. split; [reflexivity|].
    destruct Hor as [?|[_ Hf]]; [lia | exact Hf].
Qed.

End Build1.

(** ** The falloff mask *)


Lemma cube_mono (a b : Q) : 0 <= a <= b -> 0 <= a * (a * a) <= b * (b * b).
Proof.
  intros H. assert (0 <= a * a) by nra. assert (a * a <= b * b) by nra.
  split; nra.
Qed.

Lemma falloff_denominator (d : Q) :
  0 <= d <= 1 ->
  let e := (22 # 10) - (22 # 10) * d in
  0 <= d * (d * d) /\ 0 <= e * (e * e) /\ 0 < d * (d * d) + e * (e * e).
Proof.
  intros H e.
  assert (He : 0 <= e) by (unfold e; lra).
  destruct (cube_mono 0 d) as [_ Hd]; [lra|].
  destruct (cube_mono 0 e) as [_ He3]; [lra|].
  split; [lra|]. split; [lra|].
  destruct (Qlt_le_dec d (1 # 2)) as [Hlt|Hge].
  - destruct (cube_mono (11 # 10) e) as [_ H3]; [unfold e; lra|]. lra.
  - destruct (cube_mono (1 # 2) d) as [_ H3]; [lra|]. lra.
Qed.

Lemma falloff_curve_range (d : Q) : 0 <= d <= 1 -> 0 <= falloff_curve d <= 1.
Proof.
  intros H. destruct (falloff_denominator d H) as (Ha & Hb & Hpos).
  unfold falloff_curve. cbv zeta. apply Qdiv_range; lra.
Qed.


(** [evaluate] computes the curve. *)
Lemma evaluate_Fin (d : Q) :
  0 <= d <= 1 -> evaluate (Fin d) = Fin (Qred (falloff_curve d)).
Proof.
  intros H. destruct (falloff_denominator d H) as (_ & _ & Hpos).
  unfold evaluate. cbv zeta. cbn [Math_pow nmul]. rewrite nsub_Fin.
  cbn [nmul nadd]. rewrite ndiv_Fin.
  - f_equal. apply Qred_complete. unfold falloff_curve. cbv zeta.
    now rewrite !Qred_correct.
  - rewrite !Qred_correct. cbv zeta in Hpos. lra.
Qed.


Lemma falloff_coordinate_Fin (n i : Z) :
  n <> 0%Z ->
  exists c, falloff_coordinate (ofZ n) i = Fin c
            /\ c == inject_Z i / inject_Z n * 2 - 1.
Proof.
  intros Hn. unfold falloff_coordinate, ofZ.
  rewrite ndiv_Fin by now apply inject_Z_nonzero.
  cbn [nmul]. rewrite nsub_Fin. eexists. split; [reflexivity|].
  now rewrite !Qred_correct.
Qed.

Lemma Qdiv_inject_Z_range (n i : Z) :
  (0 <= i < n)%Z -> 0 <= inject_Z i / inject_Z n < 1.
Proof.
  intros [H0 Hn].
  assert (0 < inject_Z n).
  { change 0 with (inject_Z 0). rewrite <- Zlt_Qlt. lia. }
  assert (0 <= inject_Z i).
  { change 0 with (inject_Z 0). rewrite <- Zle_Qle. lia. }
  assert (inject_Z i < inject_Z n) by (rewrite <- Zlt_Qlt; lia).
  split.
  - apply Qle_shift_div_l; lra.
  - apply Qlt_shift_div_r; lra.
Qed.

(** Inside the grid the distance is a rational of [[0, 1]]. *)
Lemma chebyshev_Fin (n i j : Z) :
  (0 <= i < n)%Z -> (0 <= j < n)%Z ->
  exists d, chebyshev (ofZ n) i j = Fin d
            /\ d == Qmax (Qabs (inject_Z i / inject_Z n * 2 - 1))
                        (Qabs (inject_Z j / inject_Z n * 2 - 1))
            /\ 0 <= d <= 1.
Proof.
  intros Hi Hj. unfold chebyshev.
  destruct (falloff_coordinate_Fin n i) as (ci & -> & Eci); [lia|].
  destruct (falloff_coordinate_Fin n j) as (cj & -> & Ecj); [lia|].
  cbn [Math_abs]. rewrite Math_max_Fin. eexists. split; [reflexivity|].
  pose proof (Qdiv_inject_Z_range n i Hi).
  pose proof (Qdiv_inject_Z_range n j Hj).
  rewrite Eci, Ecj. split; [reflexivity|].
  set (a := Qabs _). set (b := Qabs _).
  assert (0 <= a <= 1).
  { split; [apply Qabs_nonneg|]. apply Qabs_Qle_condition. lra. }
  assert (0 <= b <= 1).
  { split; [apply Qabs_nonneg|]. apply Qabs_Qle_condition. lra. }
  destruct (Q.max_spec a b) as [[? ->]|[? ->]]; lra.
Qed.

(** A loop that writes cell [j] of an array at its [j]-th iteration. *)
Lemma push_loop {A} (f : Z -> A) (body : Z -> list A -> result (list A)) :
  (forall j acc, body j acc = Ok (array_set j (f j) acc)) ->
  forall (m : nat) (acc : list A),
    forM (seqZ (Z.of_nat (length acc)) (Z.of_nat m)) body acc
    = Ok (acc ++ map f (seqZ (Z.of_nat (length acc)) (Z.of_nat m))).
Proof.
  intros Hbody. induction m as [|m IH]; intros acc.
  - rewrite seqZ_nil by lia. cbn. now rewrite app_nil_r.
  - rewrite seqZ_succ. cbn [forM map]. rewrite Hbody. cbn [bind].
    rewrite array_set_end by done. specialize (IH (acc ++ [f (Z.of_nat (length acc))])).
    rewrite length_app in IH. cbn [length] in IH.
    replace (Z.of_nat (length acc + 1)) with (Z.of_nat (length acc) + 1)%Z
      in IH by lia.
    rewrite IH. now rewrite <- app_assoc.
Qed.

(** The mask [createIslandShapeGrid] returns, cell by cell. *)
Lemma createIslandShapeGrid_cells (n : Z) :
  createIslandShapeGrid (ofZ n)
  = Ok (map (fun i => map (fun j => evaluate (chebyshev (ofZ n) i j))
                        (seqZ 0 n))
          (seqZ 0 n)).
Proof.
  unfold createIslandShapeGrid. rewrite for_lt_ofZ.
  set (n' := Z.to_nat (Z.max 0 n)).
  assert (En : Z.max 0 n = Z.of_nat n') by lia.
  match goal with |- forM _ ?b _ = _ => set (body := b) end.
  assert (Hbody : forall i grid,
    body i grid
    = Ok (array_set i
            (map (fun j => evaluate (chebyshev (ofZ n) i j)) (seqZ 0 n)) grid)).
  { intros i grid. subst body. cbv beta. rewrite for_lt_ofZ.
    match goal with |- context [forM _ ?b _] => set (inner := b) end.
    pose proof (push_loop (fun j => evaluate (chebyshev (ofZ n) i j)) inner
                  ltac:(reflexivity) n' []) as Hrow.
    cbn [length app] in Hrow. change (Z.of_nat 0) with 0%Z in Hrow.
    rewrite <- En in Hrow. rewrite Hrow, seqZ_max. reflexivity. }
  pose proof (push_loop _ body Hbody n' []) as Hloop.
  cbn [length app] in Hloop. change (Z.of_nat 0) with 0%Z in Hloop.
  rewrite <- En in Hloop. rewrite Hloop, seqZ_max. reflexivity.
Qed.

Lemma mask_cell (n i j : Z) :
  (0 <= i < n)%Z -> (0 <= j < n)%Z ->
  array_get2
    (map (fun i => map (fun j => evaluate (chebyshev (ofZ n) i j)) (seqZ 0 n))
       (seqZ 0 n)) i j
  = evaluate (chebyshev (ofZ n) i j).
Proof.
  intros Hi Hj. unfold array_get2.
  rewrite list_lookup_fmap, (lookup_seqZ_lt 0 n (Z.to_nat i)) by lia.
  cbn [fmap option_fmap option_map].
  rewrite list_lookup_fmap, (lookup_seqZ_lt 0 n (Z.to_nat j)) by lia.
  cbn. do 2 f_equal; lia.
Qed.





(** ** The map of the third version *)

Section Map3.

Import Variant3.

Variable perlin_get : number -> number -> number.

Lemma array_get2_at (grid : list (list number)) (row : list number)
    (yi xi : nat) (v : number) :
  grid !! yi = Some row -> row !! xi = Some v ->
  array_get2 grid (Z.of_nat yi) (Z.of_nat xi) = v.
Proof.
  intros Hy Hx. unfold array_get2. now rewrite !Nat2Z.id, Hy, Hx.
Qed.

(** The first pass along one row. *)
Lemma first_pass_row (c : MapConfig) (o : Offset) (fo : list (list number))
    (yi : nat) :
  forall (m : nat) (row : list number) (grid : list (list number))
         (mn mx : number),
    grid !! yi = Some row ->
    forM (seqZ (Z.of_nat (length row)) (Z.of_nat m))
      (fun x '(grid, minHeight, maxHeight) =>
        let noiseHeight := rawHeight perlin_get c o x (Z.of_nat yi) in
        let minHeight :=
          if (noiseHeight <? minHeight)%num then noiseHeight else minHeight in
        let maxHeight :=
          if (maxHeight <? noiseHeight)%num then noiseHeight else maxHeight in
        let grid := alter (array_set x noiseHeight) (Z.to_nat (Z.of_nat yi)) grid in
        let grid :=
          if falloff c
          then alter (array_set x
                        (array_get2 grid (Z.of_nat yi) x - array_get2 fo (Z.of_nat yi) x)%num)
                 (Z.to_nat (Z.of_nat yi)) grid
          else grid in
        Ok (grid, minHeight, maxHeight))
      (grid, mn, mx)
    = let xs := seqZ (Z.of_nat (length row)) (Z.of_nat m) in
      let e := fold_left observe
                 (List.map (fun x => rawHeight perlin_get c o x (Z.of_nat yi)) xs)
                 (mn, mx) in
      Ok (<[yi := row ++ List.map (stored_cell perlin_get c o fo (Z.of_nat yi)) xs]> grid,
          e.1, e.2).
Proof.
  induction m as [|m IH]; intros row grid mn mx Hrow.
  - rewrite seqZ_nil by lia. cbn. rewrite app_nil_r. now rewrite list_insert_id.
  - rewrite seqZ_succ. cbn [forM List.map fold_left]. cbv zeta.
    rewrite Nat2Z.id.
    set (v := rawHeight perlin_get c o (Z.of_nat (length row)) (Z.of_nat yi)).
    rewrite (alter_at _ _ _ _ Hrow), array_set_end by done.
    assert (Hlt : (yi < length grid)%nat) by now apply lookup_lt_Some in Hrow.
    assert (Hstored :
      (if falloff c
       then alter (array_set (Z.of_nat (length row))
                (array_get2 (<[yi := row ++ [v]]> grid) (Z.of_nat yi) (Z.of_nat (length row))
                 - array_get2 fo (Z.of_nat yi) (Z.of_nat (length row)))%num) yi
               (<[yi := row ++ [v]]> grid)
       else <[yi := row ++ [v]]> grid)
      = <[yi := row ++ [stored_cell perlin_get c o fo (Z.of_nat yi) (Z.of_nat (length row))]]> grid).
    { unfold stored_cell. fold v. destruct (falloff c); [|done].
      rewrite (array_get2_at _ (row ++ [v]) yi (length row) v);
        [| now apply list_lookup_insert_eq | now rewrite list_lookup_middle].
      rewrite (alter_at _ _ _ (row ++ [v])) by now apply list_lookup_insert_eq.
      rewrite list_insert_insert_eq.
      now rewrite (array_set_inside (length row) _ row [] v). }
    rewrite Hstored. cbn [bind].
    specialize (IH (row ++ [stored_cell perlin_get c o fo (Z.of_nat yi) (Z.of_nat (length row))])
                   (<[yi := row ++ [stored_cell perlin_get c o fo (Z.of_nat yi) (Z.of_nat (length row))]]> grid)).
    rewrite length_app in IH. cbn [length] in IH.
    replace (Z.of_nat (length row + 1)) with (Z.of_nat (length row) + 1)%Z in IH by lia.
    rewrite Nat2Z.id in IH.
    rewrite IH by now apply list_lookup_insert_eq.
    cbv zeta. rewrite list_insert_insert_eq, <- app_assoc. reflexivity.
Qed.

(** The first pass. *)
Lemma first_pass (c : MapConfig) (o : Offset) (fo : list (list number))
    (w : Z) :
  forall (m : nat) (grid : list (list number)) (mn mx : number),
    forM (seqZ (Z.of_nat (length grid)) (Z.of_nat m))
      (fun y '(grid, minHeight, maxHeight) =>
        let grid := array_set y [] grid in
        for_lt (ofZ w) (fun x '(grid, minHeight, maxHeight) =>
          let noiseHeight := rawHeight perlin_get c o x y in
          let minHeight :=
            if (noiseHeight <? minHeight)%num then noiseHeight else minHeight in
          let maxHeight :=
            if (maxHeight <? noiseHeight)%num then noiseHeight else maxHeight in
          let grid := alter (array_set x noiseHeight) (Z.to_nat y) grid in
          let grid :=
            if falloff c
            then alter (array_set x
                          (array_get2 grid y x - array_get2 fo y x)%num)
                   (Z.to_nat y) grid
            else grid in
          Ok (grid, minHeight, maxHeight))
          (grid, minHeight, maxHeight))
      (grid, mn, mx)
    = let ys := seqZ (Z.of_nat (length grid)) (Z.of_nat m) in
      let e := fold_left (fun e y =>
                 fold_left observe
                   (List.map (fun x => rawHeight perlin_get c o x y) (seqZ 0 w)) e)
                 ys (mn, mx) in
      Ok (grid ++ List.map (fun y =>
                    List.map (stored_cell perlin_get c o fo y) (seqZ 0 w)) ys,
          e.1, e.2).
Proof.
  induction m as [|m IH]; intros grid mn mx.
  - rewrite seqZ_nil by lia. cbn. now rewrite app_nil_r.
  - rewrite seqZ_succ. cbn [forM List.map fold_left]. cbv zeta.
    rewrite array_set_end, for_lt_ofZ by done.
    pose proof (first_pass_row c o fo (length grid) (Z.to_nat (Z.max 0 w)) []
                  (grid ++ [[]]) mn mx) as Hrow.
    cbn [length app] in Hrow. change (Z.of_nat 0) with 0%Z in Hrow.
    replace (Z.of_nat (Z.to_nat (Z.max 0 w))) with (Z.max 0 w) in Hrow by lia.
    rewrite Hrow by now rewrite list_lookup_middle.
    cbv zeta. cbn [bind]. rewrite seqZ_max.
    rewrite insert_app_r_alt, Nat.sub_diag by lia. cbn [insert list_insert].
    set (cells := List.map _ (seqZ 0 w)).
    set (e := fold_left observe _ (mn, mx)).
    specialize (IH (grid ++ [cells]) e.1 e.2).
    rewrite length_app in IH. cbn [length] in IH.
    replace (Z.of_nat (length grid + 1)) with (Z.of_nat (length grid) + 1)%Z
      in IH by lia.
    rewrite IH. cbv zeta. rewrite <- app_assoc.
    now destruct e.
Qed.

(** The second pass along one row. *)
Lemma second_pass_row (mn mx : number) (yi : nat) :
  forall (rest done : list number) (grid : list (list number)),
    grid !! yi = Some (done ++ rest) ->
    forM (seqZ (Z.of_nat (length done)) (Z.of_nat (length rest)))
      (fun x grid =>
        Ok (alter (array_set x
                     (inverseLerp mn mx (array_get2 grid (Z.of_nat yi) x)))
              (Z.to_nat (Z.of_nat yi)) grid))
      grid
    = Ok (<[yi := done ++ List.map (inverseLerp mn mx) rest]> grid).
Proof.
  induction rest as [|r rest IH]; intros done grid Hrow.
  - cbn [length]. rewrite seqZ_nil by lia. cbn. rewrite app_nil_r in *.
    now rewrite list_insert_id.
  - cbn [length]. rewrite seqZ_succ. cbn [forM List.map]. rewrite Nat2Z.id.
    rewrite (array_get2_at grid (done ++ r :: rest) yi (length done) r);
      [| done | now rewrite list_lookup_middle].
    rewrite (alter_at _ _ _ _ Hrow), array_set_inside by done. cbn [bind].
    specialize (IH (done ++ [inverseLerp mn mx r])
                   (<[yi := done ++ inverseLerp mn mx r :: rest]> grid)).
    rewrite length_app in IH. cbn [length] in IH.
    replace (Z.of_nat (length done + 1)) with (Z.of_nat (length done) + 1)%Z
      in IH by lia.
    rewrite Nat2Z.id in IH. rewrite IH.
    + rewrite list_insert_insert_eq. now rewrite <- app_assoc.
    + rewrite <- app_assoc. apply list_lookup_insert_eq.
      now apply lookup_lt_Some in Hrow.
Qed.

(** The second pass. *)
Lemma second_pass (mn mx : number) (w : Z) :
  forall (rest done : list (list number)),
    Forall (fun row => length row = Z.to_nat w) rest ->
    forM (seqZ (Z.of_nat (length done)) (Z.of_nat (length rest)))
      (fun y =>
        for_lt (ofZ w) (fun x grid =>
          Ok (alter (array_set x (inverseLerp mn mx (array_get2 grid y x)))
                (Z.to_nat y) grid)))
      (done ++ rest)
    = Ok (done ++ List.map (List.map (inverseLerp mn mx)) rest).
Proof.
  induction rest as [|row rest IH]; intros done Hall.
  - cbn [length]. rewrite seqZ_nil by lia. cbn. now rewrite app_nil_r.
  - cbn [length]. rewrite seqZ_succ. cbn [forM List.map].
    inversion Hall as [|? ? Hlen Hrest]; subst.
    rewrite for_lt_ofZ.
    pose proof (second_pass_row mn mx (length done) row []
                  (done ++ row :: rest)) as Hrow.
    cbn [length app] in Hrow. change (Z.of_nat 0) with 0%Z in Hrow.
    rewrite Hlen in Hrow.
    replace (Z.of_nat (Z.to_nat w)) with (Z.max 0 w) in Hrow by lia.
    rewrite Hrow by now rewrite list_lookup_middle.
    cbn [bind]. rewrite insert_app_r_alt, Nat.sub_diag by lia.
    cbn [insert list_insert].
    specialize (IH (done ++ [List.map (inverseLerp mn mx) row]) Hrest).
    rewrite length_app in IH. cbn [length] in IH.
    replace (Z.of_nat (length done + 1)) with (Z.of_nat (length done) + 1)%Z
      in IH by lia.
    rewrite <- app_assoc in IH. cbn [app] in IH. rewrite IH.
    now rewrite <- app_assoc.
Qed.

Lemma octave_loop_with_falloff (b : bool) (c : MapConfig) (o : Offset)
    (x y : Z) (n : nat) (a f h : number) :
  octave_loop perlin_get (with_falloff b c) o x y n a f h
  = octave_loop perlin_get c o x y n a f h.
Proof.
  revert a f h. induction n as [|n IH]; intros a f h; cbn [octave_loop]; [done|].
  rewrite IH. reflexivity.
Qed.

Lemma rawHeight_with_falloff (b : bool) (c : MapConfig) (o : Offset) (x y : Z) :
  rawHeight perlin_get (with_falloff b c) o x y = rawHeight perlin_get c o x y.
Proof. apply octave_loop_with_falloff. Qed.

Lemma map_extremes_with_falloff (b : bool) (c : MapConfig) (o : Offset)
    (w h : Z) (e : number * number) :
  map_extremes perlin_get (with_falloff b c) o w h e
  = map_extremes perlin_get c o w h e.
Proof.
  unfold map_extremes. revert e.
  induction (seqZ 0 h) as [|y ys IH]; intros e; cbn [fold_left]; [done|].
  rewrite IH. do 2 f_equal. apply map_ext. intros x.
  apply rawHeight_with_falloff.
Qed.

(** [#createMap], cell by cell. *)
Lemma createMap_cells (c : MapConfig) (o : Offset) (w h : Z) (mn mx : number) :
  createMap perlin_get c o (ofZ w) (ofZ h) mn mx
  = let fo := if falloff c then falloff_mask h else [] in
    let e := map_extremes perlin_get c o w h (mn, mx) in
    Ok (normalised_map perlin_get c o fo w h e, e.1, e.2).
Proof.
  unfold createMap.
  assert (Efo : (if falloff c then createFalloffMap (ofZ h) else Ok [])
                = Ok (if falloff c then falloff_mask h else [])).
  { destruct (falloff c); [|done]. apply createIslandShapeGrid_cells. }
  rewrite Efo. cbn [bind]. set (fo := if falloff c then _ else _).
  rewrite for_lt_ofZ.
  pose proof (first_pass c o fo w (Z.to_nat (Z.max 0 h)) [] mn mx) as H1.
  cbn [length app] in H1. change (Z.of_nat 0) with 0%Z in H1.
  replace (Z.of_nat (Z.to_nat (Z.max 0 h))) with (Z.max 0 h) in H1 by lia.
  rewrite H1. cbv zeta. cbn [bind]. rewrite seqZ_max.
  fold (map_extremes perlin_get c o w h (mn, mx)).
  set (e := map_extremes perlin_get c o w h (mn, mx)).
  set (grid1 := List.map _ (seqZ 0 h)).
  rewrite for_lt_ofZ.
  pose proof (second_pass e.1 e.2 w grid1 []) as H2.
  cbn [length app] in H2. change (Z.of_nat 0) with 0%Z in H2.
  assert (Hlen : Z.of_nat (length grid1) = Z.max 0 h).
  { subst grid1. rewrite length_map, length_seqZ. lia. }
  rewrite Hlen in H2. rewrite H2.
  - cbn [bind]. subst grid1. rewrite map_map. unfold normalised_map.
    rewrite (map_ext _
      (fun y => List.map
         (fun x => inverseLerp e.1 e.2 (stored_cell perlin_get c o fo y x))
         (seqZ 0 w)));
      [reflexivity|].
    intros y. apply map_map.
  - subst grid1. apply List.Forall_forall. intros row Hin.
    apply in_map_iff in Hin as (y & <- & _).
    now rewrite length_map, length_seqZ.
Qed.

Lemma normalised_map_cell (c : MapConfig) (o : Offset)
    (fo : list (list number)) (w h : Z) (e : number * number) (y x : Z) :
  (0 <= y < h)%Z -> (0 <= x < w)%Z ->
  array_get2 (normalised_map perlin_get c o fo w h e) y x
  = inverseLerp e.1 e.2 (stored_cell perlin_get c o fo y x).
Proof.
  intros Hy Hx. unfold array_get2, normalised_map.
  rewrite list_lookup_fmap, (lookup_seqZ_lt 0 h (Z.to_nat y)) by lia.
  cbn [fmap option_fmap option_map].
  rewrite list_lookup_fmap, (lookup_seqZ_lt 0 w (Z.to_nat x)) by lia.
  cbn. do 3 f_equal; lia.
Qed.

(** [new MapGenerator] returns when the cell size is not zero and the
    numbers of rows and columns are not negative. *)
Lemma MapGenerator_new_cells (c : MapConfig) (o : Offset) :
  cellSize c <> 0%Z ->
  (0 <= width c / cellSize c)%Z -> (0 <= height c / cellSize c)%Z ->
  let w := (width c / cellSize c)%Z in
  let h := (height c / cellSize c)%Z in
  let fo := if falloff c then falloff_mask h else [] in
  let e := map_extremes perlin_get c o w h
             (Number_MAX_SAFE_INTEGER, Number_MIN_SAFE_INTEGER) in
  exists m,
    MapGenerator_new perlin_get c o = Ok m
    /\ map m = normalised_map perlin_get c o fo w h e
    /\ minHeight m = e.1 /\ maxHeight m = e.2 /\ rows m = ofZ h.
Proof.
  intros Hcs _ _ w h fo e. unfold MapGenerator_new.
  rewrite !floor_div_ofZ by done. rewrite createMap_cells.
  cbv zeta. cbn [bind].
  destruct (for_lt_returns
    (fun y => for_lt (ofZ w) (fun x mesh =>
       Ok (mesh ++ [((ofZ y * ofZ w + ofZ x)%num,
                     elevation_of (array_get2 (normalised_map perlin_get c o fo w h e) y x)
                       (heightLimit c),
                     color_of (array_get2 (normalised_map perlin_get c o fo w h e) y x))])))
    h []) as (mesh & Emesh).
  { intros y m. apply for_lt_returns. intros x m'. eexists. reflexivity. }
  unfold createMesh. fold w h fo e. rewrite Emesh. cbn [bind].
  eexists. split; [reflexivity|]. cbn. done.
Qed.

(** *** The extremes bound every raw height *)

Lemma observe_self (e : number * number) (v : number) :
  ((observe e v).2 <? v)%num = false /\ (v <? (observe e v).1)%num = false.
Proof.
  unfold observe. cbn [fst snd]. split.
  - destruct (e.2 <? v)%num eqn:E; [apply nlt_irrefl | exact E].
  - destruct (v <? e.1)%num eqn:E; [apply nlt_irrefl | exact E].
Qed.

Lemma observe_keeps (e : number * number) (v w : number) :
  (e.2 <? v)%num = false /\ (v <? e.1)%num = false ->
  ((observe e w).2 <? v)%num = false /\ (v <? (observe e w).1)%num = false.
Proof.
  intros [Hmx Hmn]. unfold observe. cbn [fst snd]. split.
  - destruct (e.2 <? w)%num eqn:E; [|exact Hmx].
    destruct (w <? v)%num eqn:E'; [|done].
    now rewrite (nlt_trans _ _ _ E E') in Hmx.
  - destruct (w <? e.1)%num eqn:E; [|exact Hmn].
    destruct (v <? w)%num eqn:E'; [|done].
    now rewrite (nlt_trans _ _ _ E' E) in Hmn.
Qed.

Lemma fold_observe_keeps (l : list number) (e : number * number) (v : number) :
  (e.2 <? v)%num = false /\ (v <? e.1)%num = false ->
  ((fold_left observe l e).2 <? v)%num = false
  /\ (v <? (fold_left observe l e).1)%num = false.
Proof.
  revert e. induction l as [|w l IH]; intros e H; cbn [fold_left]; [done|].
  apply IH. now apply observe_keeps.
Qed.

Lemma fold_observe_bounds (l : list number) (e : number * number) (v : number) :
  In v l ->
  ((fold_left observe l e).2 <? v)%num = false
  /\ (v <? (fold_left observe l e).1)%num = false.
Proof.
  revert e. induction l as [|w l IH]; intros e Hin; [done|].
  cbn [fold_left]. destruct Hin as [->|Hin].
  - apply fold_observe_keeps, observe_self.
  - now apply IH.
Qed.

Lemma fold_rows_keeps (row : Z -> list number) (ys : list Z)
    (e : number * number) (v : number) :
  (e.2 <? v)%num = false /\ (v <? e.1)%num = false ->
  let e' := fold_left (fun e y => fold_left observe (row y) e) ys e in
  (e'.2 <? v)%num = false /\ (v <? e'.1)%num = false.
Proof.
  cbv zeta. revert e. induction ys as [|y ys IH]; intros e H; cbn [fold_left];
    [done|].
  apply IH. now apply fold_observe_keeps.
Qed.

Lemma fold_rows_bounds (row : Z -> list number) (ys : list Z)
    (e : number * number) (y : Z) (v : number) :
  In y ys -> In v (row y) ->
  let e' := fold_left (fun e y => fold_left observe (row y) e) ys e in
  (e'.2 <? v)%num = false /\ (v <? e'.1)%num = false.
Proof.
  cbv zeta. revert e. induction ys as [|y' ys IH]; intros e Hy Hv; [done|].
  cbn [fold_left]. destruct Hy as [->|Hy]; [|now apply IH].
  apply fold_rows_keeps. now apply fold_observe_bounds.
Qed.

(** After the first pass no raw height of the map lies outside the
    extremes. *)
Lemma map_extremes_bounds (c : MapConfig) (o : Offset) (w h : Z)
    (e : number * number) (y x : Z) :
  (0 <= y < h)%Z -> (0 <= x < w)%Z ->
  let e' := map_extremes perlin_get c o w h e in
  (e'.2 <? rawHeight perlin_get c o x y)%num = false
  /\ (rawHeight perlin_get c o x y <? e'.1)%num = false.
Proof.
  intros Hy Hx. unfold map_extremes.
  apply (fold_rows_bounds
           (fun y => List.map (fun x => rawHeight perlin_get c o x y) (seqZ 0 w))
           (seqZ 0 h) e y).
  - apply list_elem_of_In, elem_of_seqZ. lia.
  - apply (in_map (fun x => rawHeight perlin_get c o x y)).
    apply list_elem_of_In, elem_of_seqZ. lia.
Qed.

(** *** Island mode against the plain mode *)

Lemma inverseLerp_lowered (mn mx r f : Q) :
  mn < mx -> mn < r -> r <= mx -> 0 < f ->
  exists hI hN,
    inverseLerp (Fin mn) (Fin mx) (Fin r - Fin f) = Fin hI
    /\ inverseLerp (Fin mn) (Fin mx) (Fin r) = Fin hN
    /\ hI < hN.
Proof.
  intros Hm Hr Hrx Hf. rewrite nsub_Fin, !inverseLerp_Fin by done.
  do 2 eexists. split; [reflexivity|]. split; [reflexivity|].
  apply Qred_lt.
  rewrite (Qclamp_inside mn mx r) by lra.
  assert (Hc : Qmax mn (Qmin mx (Qred (r - f))) < r).
  { pose proof (Qred_correct (r - f)) as E.
    destruct (Q.min_spec mx (Qred (r - f))) as [[? E1]|[? E1]];
      destruct (Q.max_spec mn (Qmin mx (Qred (r - f)))) as [[? E2]|[? E2]];
      rewrite E2, ?E1 in *; lra. }
  unfold Qdiv. apply Qmult_lt_compat_r; [|lra].
  apply Qinv_lt_0_compat. lra.
Qed.

Lemma inverseLerp_at_minimum (mn mx r f : Q) :
  mn < mx -> r <= mn -> 0 <= f ->
  inverseLerp (Fin mn) (Fin mx) (Fin r - Fin f)
  = inverseLerp (Fin mn) (Fin mx) (Fin r).
Proof.
  intros Hm Hr Hf. rewrite nsub_Fin, !inverseLerp_Fin by done.
  f_equal. apply Qred_complete.
  rewrite (Qclamp_below mn mx r), (Qclamp_below mn mx (Qred (r - f)));
    [reflexivity | lra | | lra | lra].
  rewrite Qred_correct. lra.
Qed.

Lemma falloff_mask_cell (h y x : Z) :
  (0 <= y < h)%Z -> (0 <= x)%Z ->
  (exists f, array_get2 (falloff_mask h) y x = Fin f /\ 0 <= f)
  \/ array_get2 (falloff_mask h) y x = NaN.
Proof.
  intros Hy Hx. destruct (Z.lt_ge_cases x h) as [Hlt|Hge].
  - left. unfold falloff_mask. rewrite mask_cell by lia.
    destruct (chebyshev_Fin h y x) as (d & -> & _ & Hd); [lia..|].
    rewrite evaluate_Fin by done. eexists. split; [reflexivity|].
    rewrite Qred_correct. now apply falloff_curve_range.
  - right. unfold array_get2, falloff_mask.
    rewrite list_lookup_fmap, (lookup_seqZ_lt 0 h (Z.to_nat y)) by lia.
    cbn [fmap option_fmap option_map].
    rewrite list_lookup_fmap, (lookup_seqZ_ge 0 h (Z.to_nat x)) by lia.
    reflexivity.
Qed.

(** C5, as the code has it: in a [MapGenerator] whose numbers of rows and
    columns are not negative (so that the vertex buffers of [#createMesh]
    can be made), with [falloff] set, the mask value of the cell is
    subtracted from its raw height before the normalisation, and the extremes are those of the raw heights, the same as
    without [falloff].  At a cell whose mask value is a number other than
    zero, when the extremes differ, the stored height is strictly below the
    height stored without [falloff] if the raw height of the cell is above
    the minimum, and equal to it if the raw height is the minimum. *)
Theorem island_heights (c : MapConfig) (o : Offset) :
  cellSize c <> 0%Z ->
  (0 <= width c / cellSize c)%Z -> (0 <= height c / cellSize c)%Z ->
  exists mI mN mask,
    MapGenerator_new perlin_get (with_falloff true c) o = Ok mI
    /\ MapGenerator_new perlin_get (with_falloff false c) o = Ok mN
    /\ createFalloffMap (rows mI) = Ok mask
    /\ minHeight mI = minHeight mN /\ maxHeight mI = maxHeight mN
    /\ forall y x,
        (0 <= y < height c / cellSize c)%Z ->
        (0 <= x < width c / cellSize c)%Z ->
        let raw := rawHeight perlin_get c o x y in
        array_get2 (map mN) y x
        = inverseLerp (minHeight mN) (maxHeight mN) raw
        /\ array_get2 (map mI) y x
           = inverseLerp (minHeight mN) (maxHeight mN)
               (raw - array_get2 mask y x)
        /\ forall r f mn mx,
            raw = Fin r -> array_get2 mask y x = Fin f -> ~ f == 0 ->
            minHeight mN = Fin mn -> maxHeight mN = Fin mx -> mn < mx ->
            (mn < r ->
             exists hI hN, array_get2 (map mI) y x = Fin hI
                           /\ array_get2 (map mN) y x = Fin hN /\ hI < hN)
            /\ (r <= mn -> array_get2 (map mI) y x = array_get2 (map mN) y x).
Proof.
  intros Hcs Hw Hh.
  destruct (MapGenerator_new_cells (with_falloff true c) o Hcs Hw Hh)
    as (mI & EI & HmapI & HmnI & HmxI & HrowsI).
  destruct (MapGenerator_new_cells (with_falloff false c) o Hcs Hw Hh)
    as (mN & EN & HmapN & HmnN & HmxN & _).
  cbn [with_falloff width height cellSize falloff] in *.
  set (w := (width c / cellSize c)%Z) in *.
  set (h := (height c / cellSize c)%Z) in *.
  rewrite !map_extremes_with_falloff in *.
  set (e := map_extremes perlin_get c o w h _) in *.
  exists mI, mN, (falloff_mask h).
  split; [exact EI|]. split; [exact EN|].
  split; [rewrite HrowsI; apply createIslandShapeGrid_cells|].
  split; [congruence|]. split; [congruence|].
  intros y x Hy Hx. set (raw := rawHeight perlin_get c o x y).
  assert (EcellN : array_get2 (map mN) y x
                   = inverseLerp (minHeight mN) (maxHeight mN) raw).
  { rewrite HmapN, HmnN, HmxN, normalised_map_cell by done.
    unfold stored_cell. cbn [with_falloff falloff].
    now rewrite rawHeight_with_falloff. }
  assert (EcellI : array_get2 (map mI) y x
                   = inverseLerp (minHeight mN) (maxHeight mN)
                       (raw - array_get2 (falloff_mask h) y x)).
  { rewrite HmapI, HmnN, HmxN, normalised_map_cell by done.
    unfold stored_cell. cbn [with_falloff falloff].
    now rewrite rawHeight_with_falloff. }
  split; [exact EcellN|]. split; [exact EcellI|].
  intros r f mn mx Hraw Hmask Hf Hmn Hmx Hlt.
  rewrite EcellN, EcellI, Hraw, Hmask, Hmn, Hmx.
  destruct (map_extremes_bounds c o w h
              (Number_MAX_SAFE_INTEGER, Number_MIN_SAFE_INTEGER) y x Hy Hx)
    as [Hup Hlow].
  fold e in Hup, Hlow. rewrite <- HmxN, Hmx in Hup. rewrite <- HmnN, Hmn in Hlow.
  fold raw in Hup, Hlow. rewrite Hraw in Hup, Hlow.
  apply nlt_Fin_false in Hup, Hlow.
  assert (Hf0 : 0 < f).
  { destruct (falloff_mask_cell h y x) as [(f' & Ef & Hf')|Enan];
      [done | lia | | congruence].
    rewrite Hmask in Ef. injection Ef as <-.
    destruct (Qlt_le_dec 0 f) as [|Hle]; [done|].
    exfalso. apply Hf. lra. }
  split.
  - intros Hr. now apply inverseLerp_lowered.
  - intros Hr. apply inverseLerp_at_minimum; lra.
Qed.

End Map3.

(** ** Rebuilds *)

Section Rebuilds.

Import Variant1.

Variable simplex2 : Z -> number -> number -> number.

(** On a terrain whose extremes are two different numbers, [getHeight]
    returns a number of [[0, 1]], never [NaN], and leaves extremes that
    contain the ones it found. *)
Lemma getHeight_in_range (t : Terrain) (x z : Z) (offset : Offset)
    (p mn mx : Q) :
  bounded_noise simplex2 ->
  persistance (config t) = Fin p ->
  minHeight t = Fin mn -> maxHeight t = Fin mx -> mn < mx ->
  in_unit (getHeight simplex2 t x z offset).1
  /\ exists mn' mx',
       minHeight (getHeight simplex2 t x z offset).2 = Fin mn'
       /\ maxHeight (getHeight simplex2 t x z offset).2 = Fin mx'
       /\ mn' <= mn /\ mx <= mx'.
Proof.
  intros Hb Hp Hmn Hmx Hlt.
  destruct (rawHeight_finite simplex2 t x z offset p Hb Hp) as (h & Hh).
  rewrite getHeight_unfold. cbv zeta. rewrite Hh, Hmn, Hmx.
  cbn [fst snd minHeight maxHeight]. unfold in_unit.
  destruct (Fin h <? Fin mn)%num eqn:E1;
    destruct (Fin mx <? Fin h)%num eqn:E2;
    try apply nlt_Fin in E1; try apply nlt_Fin_false in E1;
    try apply nlt_Fin in E2; try apply nlt_Fin_false in E2;
    (split;
     [apply inverseLerp_range; lra
     | do 2 eexists; split; [reflexivity|]; split; [reflexivity|]; lra]).
Qed.

(** A build that starts from two different finite extremes: every height it
    stores is a number of [[0, 1]], and the extremes it ends with contain
    the ones it started from. *)
Lemma create_in_range (t : Terrain) (p mn mx : Q) :
  bounded_noise simplex2 ->
  persistance (config t) = Fin p ->
  resolution (config t) <> 0%Z ->
  (gridSize (config t) <= 4294967295)%Z ->
  minHeight t = Fin mn -> maxHeight t = Fin mx -> mn < mx ->
  Forall (fun chunk => Forall (Forall in_unit) (grid chunk)) (chunks t) ->
  exists t',
    create simplex2 t = Ok t'
    /\ (exists mn' mx',
          minHeight t' = Fin mn' /\ maxHeight t' = Fin mx'
          /\ mn' <= mn /\ mx <= mx')
    /\ Forall (fun chunk => Forall (Forall in_unit) (grid chunk)) (chunks t').
Proof.
  intros Hb Hp Hres Hg Hmn Hmx Hlt Hall.
  pose (K := fun t' : Terrain =>
    config t' = config t
    /\ exists mn' mx',
         minHeight t' = Fin mn' /\ maxHeight t' = Fin mx'
         /\ mn' <= mn /\ mx <= mx').
  pose (I := fun t' : Terrain =>
    K t' /\ Forall (fun chunk => Forall (Forall in_unit) (grid chunk))
              (chunks t')).
  destruct (create_total simplex2 (config t) I I Hres Hg) with (t := t)
    as (t' & E & _ & [_ Hfin] & Hall').
  - done.
  - now intros t1 [[Hc _] _].
  - intros offset t1 chunk [Hk Hall1] Hgrid.
    assert (Hrow : forall z s, K s ->
      Forall in_unit (sampled_row simplex2 offset (gridSize (config t)) z s).1
      /\ K (sampled_row simplex2 offset (gridSize (config t)) z s).2).
    { intros z s Hs. apply (mapS_inv K in_unit); [|done].
      intros x s1 [Hc1 (mn1 & mx1 & Hmn1 & Hmx1 & Hlo & Hhi)].
      destruct (getHeight_in_range s1 x z offset p mn1 mx1)
        as [Hu (mn2 & mx2 & Hmn2 & Hmx2 & Hlo2 & Hhi2)];
        [done | now rewrite Hc1 | done | done | lra |].
      destruct (getHeight_noise simplex2 s1 x z offset) as (_ & Hc2 & _).
      split; [done|]. split; [congruence|].
      exists mn2, mx2. repeat split; try done; lra. }
    destruct (mapS_inv K (Forall in_unit)
                (sampled_row simplex2 offset (gridSize (config t)))
                (seqZ 0 (gridSize (config t))) Hrow t1 Hk) as [Hrows Hk'].
    destruct (sampled_grid_frame simplex2 offset (gridSize (config t)) t1)
      as (_ & Hch & _).
    split.
    + destruct Hk' as [Hc' Hfin]. split; [now cbn|]. exact Hfin.
    + cbn [addChunk chunks]. rewrite Hch. apply Forall_app. split; [done|].
      constructor; [|constructor]. now rewrite Hgrid.
  - split; [|done]. split; [done|]. exists mn, mx. repeat split; try done; lra.
  - exists t'. split; [exact E|]. split; [exact Hfin | exact Hall'].
Qed.

(** A build that starts from the sentinels of the constructor, without
    chunks: the first cell of the first chunk holds [NaN]. *)
Lemma create_first_cell_NaN (t : Terrain) (p : Q) :
  bounded_noise simplex2 ->
  persistance (config t) = Fin p -> 0 <= p <= 1 ->
  (octaves (config t) < 9007199254740991)%Z ->
  (1 <= size (config t))%Z -> resolution (config t) <> 0%Z ->
  (1 <= gridSize (config t) <= 4294967295)%Z ->
  minHeight t = Number_MAX_SAFE_INTEGER ->
  maxHeight t = Number_MIN_SAFE_INTEGER ->
  chunks t = [] ->
  exists t', create simplex2 t = Ok t' /\ first_cell_NaN (chunks t').
Proof.
  intros Hb Hp Hp01 Ho Hsize Hres [Hg1 Hg] Hmn0 Hmx0 Hnil0.
  set (c := config t) in *.
  pose (J := fun s : Terrain => config s = c /\ first_cell_NaN (chunks s)).
  pose (I := fun s : Terrain =>
    config s = c
    /\ ((minHeight s = Number_MAX_SAFE_INTEGER
         /\ maxHeight s = Number_MIN_SAFE_INTEGER /\ chunks s = [])
        \/ first_cell_NaN (chunks s))).
  destruct (create_total simplex2 c I J Hres Hg) with (t := t)
    as (t' & E & Hor & _).
  - intros s [Hc Hf]. split; [done | now right].
  - now intros s [Hc _].
  - intros offset s chunk [Hc Hcase] Hgrid.
    destruct (sampled_grid_frame simplex2 offset (gridSize c) s)
      as (Hc' & Hch' & _).
    split; [cbn; congruence|]. cbn [addChunk chunks]. rewrite Hch'.
    destruct Hcase as [(Hmn & Hmx & Hnil)|(ch & rest & row & rows & E & Eg)].
    + rewrite Hnil. cbn [app]. exists chunk, []. rewrite Hgrid.
      unfold sampled_grid, sampled_row.
      rewrite (seqZ_cons 0 (gridSize c)) by lia. cbn [mapS].
      destruct (rawHeight_bounded simplex2 s 0 0 offset p Hb)
        as (h & Hh & Hrange); [now rewrite Hc | done |].
      rewrite (getHeight_sentinels simplex2 s 0 0 offset h Hmn Hmx Hh).
      * destruct (mapS _ (seqZ (Z.succ 0) (Z.pred (gridSize c))) _) as [hs s1].
        destruct (mapS _ (seqZ (Z.succ 0) (Z.pred (gridSize c))) s1)
          as [rs s2].
        cbn. eauto.
      * rewrite Hc in Hrange.
        assert (inject_Z (Z.max 0 (octaves c)) < 9007199254740991 # 1).
        { change (9007199254740991 # 1) with (inject_Z 9007199254740991).
          rewrite <- Zlt_Qlt. lia. }
        lra.
    + rewrite E. cbn [app]. now exists ch, (rest ++ [chunk]), row, rows.
  - split; [done|]. left. done.
  - exists t'. split; [exact E|].
    destruct Hor as [?|[_ Hf]]; [lia | exact Hf].
Qed.

(** C3, as the code has it: two full builds with the same seed, the same
    configuration and the same order of the chunks do not give the same
    grids.  [update] (lines 204-214) does not set the extremes back to the
    sentinels, as the constructor does (lines 134-135): the rebuild that
    [animate] makes of a terrain [t] whose extremes are two different
    numbers, as a build leaves them, starts from these extremes.  Against
    the build from construction with the same configuration and the seed of
    [t]: both run to their end, the first stores [NaN] in the first cell of
    its first chunk and the second stores numbers of [[0, 1]] only, so the
    grids differ. *)
Theorem same_seed_builds_differ (c : Config) (rnd : Z) (t : Terrain)
    (p mn mx : Q) :
  bounded_noise simplex2 ->
  persistance c = Fin p -> 0 <= p <= 1 ->
  (octaves c < 9007199254740991)%Z ->
  (1 <= size c)%Z -> resolution c <> 0%Z ->
  (1 <= gridSize c <= 4294967295)%Z ->
  seed (noise t) = rnd ->
  minHeight t = Fin mn -> maxHeight t = Fin mx -> mn < mx ->
  exists a t',
    main simplex2 c rnd = Ok a
    /\ create simplex2 (update c (destroy t)) = Ok t'
    /\ config (update c (destroy t)) = config (Terrain_new c rnd)
    /\ noise (update c (destroy t)) = noise (Terrain_new c rnd)
    /\ chunks (update c (destroy t)) = chunks (Terrain_new c rnd)
    /\ first_cell_NaN (chunks (terrain a))
    /\ Forall (fun chunk => Forall (Forall in_unit) (grid chunk)) (chunks t')
    /\ List.map grid (chunks (terrain a)) <> List.map grid (chunks t').
Proof.
  intros Hb Hp Hp01 Ho Hsize Hres Hg Hseed Hmn Hmx Hlt.
  destruct (create_first_cell_NaN (Terrain_new c rnd) p Hb Hp Hp01 Ho Hsize
              Hres Hg eq_refl eq_refl eq_refl)
    as (t1 & E1 & Hnan).
  destruct (create_in_range (update c (destroy t)) p mn mx Hb Hp Hres
              (proj2 Hg) Hmn Hmx Hlt (List.Forall_nil _))
    as (t2 & E2 & _ & Hall).
  exists {| terrain := t1; CONFIG := c |}, t2.
  split; [unfold main; now rewrite E1|]. split; [exact E2|].
  split; [reflexivity|].
  split; [cbn; destruct (noise t) as [sd]; cbn in Hseed; now subst|].
  split; [reflexivity|]. split; [exact Hnan|]. split; [exact Hall|].
  cbn [terrain]. intros Heq.
  destruct Hnan as (ch & rest & row & rows & Ech & Eg).
  rewrite Ech in Heq. cbn [List.map] in Heq.
  destruct (chunks t2) as [|ch2 rest2]; [discriminate|].
  cbn [List.map] in Heq. injection Heq as Heq _.
  inversion Hall as [|? ? Hch2 _]; subst.
  rewrite <- Heq, Eg in Hch2.
  inversion Hch2 as [|? ? Hrow _]; subst.
  inversion Hrow as [|? ? Hcell _]; subst.
  destruct Hcell as (r & Hr & _). discriminate Hr.
Qed.

(** C9, as the code has it: the rebuild that [animate] makes on a change of
    the configuration does not start from the sentinels.  [update]
    (lines 204-214) leaves [minHeight] and [maxHeight] as the previous
    build left them, and [destroy] (lines 198-202) does not touch them
    either; only the constructor sets them (lines 134-135).  When they are
    two different numbers, as a build leaves them, the rebuild runs from
    them: the extremes it ends with still contain those of the previous
    build, and every height it stores, the first included, is a number
    normalised against extremes that contain them, where a build from the
    sentinels stores [NaN] first. *)
Theorem rebuild_carries_extremes (a : App) (p mn mx : Q) :
  bounded_noise simplex2 ->
  persistance (CONFIG a) = Fin p ->
  resolution (CONFIG a) <> 0%Z ->
  (gridSize (CONFIG a) <= 4294967295)%Z ->
  hash (terrain a) <> JSON_stringify (CONFIG a) ->
  minHeight (terrain a) = Fin mn -> maxHeight (terrain a) = Fin mx ->
  mn < mx ->
  exists a',
    animate simplex2 a = Ok a'
    /\ create simplex2 (update (CONFIG a) (destroy (terrain a)))
       = Ok (terrain a')
    /\ minHeight (update (CONFIG a) (destroy (terrain a))) = Fin mn
    /\ maxHeight (update (CONFIG a) (destroy (terrain a))) = Fin mx
    /\ (exists mn' mx',
          minHeight (terrain a') = Fin mn' /\ maxHeight (terrain a') = Fin mx'
          /\ mn' <= mn /\ mx <= mx')
    /\ Forall (fun chunk => Forall (Forall in_unit) (grid chunk))
         (chunks (terrain a')).
Proof.
  intros Hb Hp Hres Hg Hhash Hmn Hmx Hlt.
  destruct (create_in_range (update (CONFIG a) (destroy (terrain a))) p mn mx
              Hb Hp Hres Hg Hmn Hmx Hlt (List.Forall_nil _))
    as (t' & E & Hfin & Hall).
  exists {| terrain := t'; CONFIG := CONFIG a |}.
  split.
  - unfold animate. rewrite decide_True by exact Hhash. cbv zeta.
    now rewrite E.
  - cbn [terrain]. split; [exact E|]. split; [exact Hmn|].
    split; [exact Hmx|]. split; [exact Hfin | exact Hall].
Qed.

End Rebuilds.

(** ** Examples *)

Lemma ramp_bounded : bounded_noise ramp.
Proof.
  intros s x z. unfold ramp. destruct (x - z)%num as [q| | |].
  - eexists. split; [reflexivity|]. apply Qclamp_range. lra.
  - exists 0. split; [reflexivity | lra].
  - exists 0. split; [reflexivity | lra].
  - exists 0. split; [reflexivity | lra].
Qed.

Lemma first_getHeight_is_NaN_witness :
  persistance small_config = Fin (1 # 2)
  /\ (Variant1.getHeight ramp (Variant1.Terrain_new small_config 7) 0 0
        origin).1 = NaN.
Proof.
  split; [reflexivity|].
  apply (first_getHeight_is_NaN ramp small_config 7 0 0 origin (1 # 2)).
  - exact ramp_bounded.
  - reflexivity.
  - split; discriminate.
  - reflexivity.
Defined.

Lemma first_cell_of_build_is_NaN_witness :
  exists a,
    Variant1.main ramp small_config 7 = Ok a
    /\ first_cell_NaN (Variant1.chunks (Variant1.terrain a)).
Proof.
  apply (first_cell_of_build_is_NaN ramp small_config 7 (1 # 2)).
  - exact ramp_bounded.
  - reflexivity.
  - split; discriminate.
  - reflexivity.
  - discriminate.
  - discriminate.
  - split; discriminate.
Defined.

(** The terrain that [main] builds with [small_config] and seed 7 ends with
    the extremes 0 and 3/2.  Built again with the same configuration, the
    way [animate] rebuilds, its grids are not those of the build from
    construction with the same seed. *)
Lemma same_seed_builds_differ_witness :
  exists a0 a t',
    Variant1.main ramp small_config 7 = Ok a0
    /\ Variant1.main ramp small_config 7 = Ok a
    /\ Variant1.create ramp
         (Variant1.update small_config
            (Variant1.destroy (Variant1.terrain a0))) = Ok t'
    /\ List.map Variant1.grid (Variant1.chunks (Variant1.terrain a))
       <> List.map Variant1.grid (Variant1.chunks t').
Proof.
  assert (E0 : exists a0,
    Variant1.main ramp small_config 7 = Ok a0
    /\ Variant1.seed (Variant1.noise (Variant1.terrain a0)) = 7%Z
    /\ Variant1.minHeight (Variant1.terrain a0) = Fin 0
    /\ Variant1.maxHeight (Variant1.terrain a0) = Fin (3 # 2)).
  { eexists. split; [vm_compute; reflexivity|].
    split; [vm_compute; reflexivity|].
    split; vm_compute; reflexivity. }
  destruct E0 as (a0 & E0 & Hseed & Hmn & Hmx).
  destruct (same_seed_builds_differ ramp small_config 7
              (Variant1.terrain a0) (1 # 2) 0 (3 # 2))
    as (a & t' & Ea & Et & _ & _ & _ & _ & _ & Hne).
  - exact ramp_bounded.
  - reflexivity.
  - split; discriminate.
  - reflexivity.
  - discriminate.
  - discriminate.
  - split; discriminate.
  - exact Hseed.
  - exact Hmn.
  - exact Hmx.
  - reflexivity.
  - exists a0, a, t'. split; [exact E0|]. split; [exact Ea|].
    split; [exact Et | exact Hne].
Defined.

(** After the build of [small_config] with seed 7, ticking [wireframe]
    makes [animate] rebuild from the extremes 0 and 3/2 of that build. *)
Lemma rebuild_carries_extremes_witness :
  exists a0 a',
    Variant1.main ramp small_config 7 = Ok a0
    /\ Variant1.animate ramp
         {| Variant1.terrain := Variant1.terrain a0;
            Variant1.CONFIG := small_config_wireframe |} = Ok a'
    /\ Variant1.minHeight
         (Variant1.update small_config_wireframe
            (Variant1.destroy (Variant1.terrain a0))) = Fin 0
    /\ Forall (fun chunk => Forall (Forall in_unit) (Variant1.grid chunk))
         (Variant1.chunks (Variant1.terrain a')).
Proof.
  assert (E0 : exists a0,
    Variant1.main ramp small_config 7 = Ok a0
    /\ Variant1.config (Variant1.terrain a0) = small_config
    /\ Variant1.minHeight (Variant1.terrain a0) = Fin 0
    /\ Variant1.maxHeight (Variant1.terrain a0) = Fin (3 # 2)).
  { eexists. split; [vm_compute; reflexivity|].
    split; [vm_compute; reflexivity|].
    split; vm_compute; reflexivity. }
  destruct E0 as (a0 & E0 & Hc & Hmn & Hmx).
  destruct (rebuild_carries_extremes ramp
              {| Variant1.terrain := Variant1.terrain a0;
                 Variant1.CONFIG := small_config_wireframe |}
              (1 # 2) 0 (3 # 2))
    as (a' & Ea & _ & Hstart & _ & _ & Hall).
  - exact ramp_bounded.
  - reflexivity.
  - discriminate.
  - discriminate.
  - cbn [Variant1.terrain Variant1.CONFIG]. unfold Variant1.hash.
    rewrite Hc. vm_compute. discriminate.
  - exact Hmn.
  - exact Hmx.
  - reflexivity.
  - exists a0, a'. split; [exact E0|]. split; [exact Ea|].
    split; [exact Hstart | exact Hall].
Defined.

Lemma out_of_range_configurations_proceed_witness :
  (exists a, Variant1.main ramp no_octaves_config 7 = Ok a
             /\ Variant1.chunks (Variant1.terrain a) <> [])
  /\ Variant1.main ramp zero_resolution_config 7 = Throw RangeError.
Proof.
  split.
  - destruct (proj1 (out_of_range_configurations_proceed ramp
                       no_octaves_config 7))
      as (a & E & _ & Hne).
    + discriminate.
    + discriminate.
    + discriminate.
    + exists a. split; [exact E|]. apply Hne. discriminate.
  - apply (proj2 (out_of_range_configurations_proceed ramp
                    zero_resolution_config 7)).
    + reflexivity.
    + reflexivity.
    + discriminate.
Defined.

(** A configuration without octaves, which is outside the documented range,
    is not rejected: the build returns and its grid holds [NaN] in all four
    cells. *)
Lemma configuration_not_rejected_counterexample :
  (octaves no_octaves_config < 1)%Z
  /\ exists a,
      Variant1.main ramp no_octaves_config 7 = Ok a
      /\ List.map Variant1.grid (Variant1.chunks (Variant1.terrain a))
         = [[[NaN; NaN]; [NaN; NaN]]].
Proof.
  split; [reflexivity|]. eexists. split; vm_compute; reflexivity.
Qed.

(** After a build with [small_config], ticking [wireframe] makes [animate]
    rebuild: the new build starts from the extremes (0 and 3/2) the previous
    one ended with, which are neither the infinities nor the sentinels of the
    constructor, and its grids differ from those of a build from
    construction with the same configuration and seed; the sentinel of the
    constructor itself is not [Infinity]. *)
Lemma rebuild_keeps_extremes_counterexample :
  exists a a' b,
    Variant1.main ramp small_config 7 = Ok a
    /\ Variant1.animate ramp
         {| Variant1.terrain := Variant1.terrain a;
            Variant1.CONFIG := small_config_wireframe |} = Ok a'
    /\ Variant1.create ramp
         (Variant1.update small_config_wireframe
            (Variant1.destroy (Variant1.terrain a)))
       = Ok (Variant1.terrain a')
    /\ Variant1.minHeight
         (Variant1.update small_config_wireframe
            (Variant1.destroy (Variant1.terrain a))) = Fin 0
    /\ Variant1.maxHeight
         (Variant1.update small_config_wireframe
            (Variant1.destroy (Variant1.terrain a))) = Fin (3 # 2)
    /\ Fin 0 <> PInf /\ Fin 0 <> Number_MAX_SAFE_INTEGER
    /\ Fin (3 # 2) <> NInf /\ Fin (3 # 2) <> Number_MIN_SAFE_INTEGER
    /\ Variant1.minHeight (Variant1.Terrain_new small_config_wireframe 7)
       <> PInf
    /\ Variant1.main ramp small_config_wireframe 7 = Ok b
    /\ List.map Variant1.grid (Variant1.chunks (Variant1.terrain a'))
       <> List.map Variant1.grid (Variant1.chunks (Variant1.terrain b)).
Proof.
  do 3 eexists.
  split; [vm_compute; reflexivity|].
  split; [vm_compute; reflexivity|].
  split; [vm_compute; reflexivity|].
  split; [vm_compute; reflexivity|].
  split; [vm_compute; reflexivity|].
  split; [discriminate|]. split; [discriminate|].
  split; [discriminate|]. split; [discriminate|].
  split; [discriminate|].
  split; [vm_compute; reflexivity|].
  vm_compute. discriminate.
Qed.

Lemma island_heights_witness :
  exists mI mN,
    Variant3.MapGenerator_new (ramp 0)
      (Variant3.with_falloff true (small_map false)) map_origin = Ok mI
    /\ Variant3.MapGenerator_new (ramp 0)
         (Variant3.with_falloff false (small_map false)) map_origin = Ok mN
    /\ exists hI hN,
        array_get2 (Variant3.map mI) 1 1 = Fin hI
        /\ array_get2 (Variant3.map mN) 1 1 = Fin hN /\ hI < hN.
Proof.
  destruct (island_heights (ramp 0) (small_map false) map_origin)
    as (mI & mN & mask & EI & EN & Emask & _ & _ & Hcells);
    [discriminate..|].
  exists mI, mN. split; [exact EI|]. split; [exact EN|].
  destruct (Hcells 1%Z 1%Z) as (_ & _ & Hcmp); [split; [discriminate|reflexivity]..|].
  vm_compute in EI. injection EI as <-.
  vm_compute in EN. injection EN as <-.
  vm_compute in Emask. injection Emask as <-.
  apply (Hcmp (1 # 2) (125 # 10773) (1 # 6) (5 # 6));
    try (vm_compute; reflexivity).
  vm_compute. discriminate.
Defined.

(** In the map of [small_map], the cell of row 2 and column 0 has the mask
    value 1 and holds the same height, 0, with and without [falloff]. *)
Lemma island_heights_counterexample :
  exists mI mN mask,
    Variant3.MapGenerator_new (ramp 0) (small_map true) map_origin = Ok mI
    /\ Variant3.MapGenerator_new (ramp 0) (small_map false) map_origin = Ok mN
    /\ Variant3.createFalloffMap (Variant3.rows mI) = Ok mask
    /\ array_get2 mask 2 0 = Fin 1
    /\ array_get2 (Variant3.map mI) 2 0 = Fin 0
    /\ array_get2 (Variant3.map mN) 2 0 = Fin 0.
Proof.
  do 3 eexists.
  split; [vm_compute; reflexivity|].
  split; [vm_compute; reflexivity|].
  split; [vm_compute; reflexivity|].
  split; [vm_compute; reflexivity|].
  split; vm_compute; reflexivity.
Qed.

(** * Further properties of the code *)

(** ** [inverseLerp] on finite numbers *)

(** X1: [inverseLerp] on finite numbers, by the order of its bounds.  When
    [min < max]: a value at or below [min] gives 0, a value at or above
    [max] gives 1, a value in between gives [(value - min) / (max - min)],
    and the result lies in [[0, 1]] and does not decrease when the value
    grows.  When [min] and [max] are equal the result is [NaN] for every
    value (0 / 0), and when [max < min] it is 0 for every value. *)
Theorem inverseLerp_cases (mn mx : Q) :
  (mn < mx ->
   (forall v, v <= mn -> inverseLerp (Fin mn) (Fin mx) (Fin v) = Fin 0)
   /\ (forall v, mx <= v -> inverseLerp (Fin mn) (Fin mx) (Fin v) = Fin 1)
   /\ (forall v, mn <= v <= mx ->
       inverseLerp (Fin mn) (Fin mx) (Fin v)
       = Fin (Qred ((v - mn) / (mx - mn))))
   /\ (forall v1 v2, v1 <= v2 ->
       exists r1 r2,
         inverseLerp (Fin mn) (Fin mx) (Fin v1) = Fin r1
         /\ inverseLerp (Fin mn) (Fin mx) (Fin v2) = Fin r2
         /\ 0 <= r1 /\ r1 <= r2 /\ r2 <= 1))
  /\ (mn == mx -> forall v, inverseLerp (Fin mn) (Fin mx) (Fin v) = NaN)
  /\ (mx < mn -> forall v, inverseLerp (Fin mn) (Fin mx) (Fin v) = Fin 0).
Proof.
  split; [|split].
  - intros Hm. repeat split.
    + intros v Hv. rewrite inverseLerp_Fin by done.
      change (Fin 0) with (Fin (Qred 0)). f_equal. apply Qred_complete.
      rewrite (Qclamp_below mn mx v) by lra.
      assert (E : mn - mn == 0) by ring. rewrite E.
      unfold Qdiv. apply Qmult_0_l.
    + intros v Hv. rewrite inverseLerp_Fin by done.
      change (Fin 1) with (Fin (Qred 1)). f_equal. apply Qred_complete.
      assert (E : Qmax mn (Qmin mx v) == mx).
      { destruct (Q.min_spec mx v) as [[? E1]|[? E1]];
          destruct (Q.max_spec mn (Qmin mx v)) as [[? E2]|[? E2]];
          rewrite E2, ?E1 in *; lra. }
      rewrite E. field. lra.
    + intros v Hv. rewrite inverseLerp_Fin by done.
      f_equal. apply Qred_complete. now rewrite (Qclamp_inside mn mx v).
    + intros v1 v2 Hv. rewrite !inverseLerp_Fin by done.
      do 2 eexists. split; [reflexivity|]. split; [reflexivity|].
      rewrite !Qred_correct.
      pose proof (Qclamp_range mn mx v1) as H1.
      pose proof (Qclamp_range mn mx v2) as H2.
      assert (Hc : Qmax mn (Qmin mx v1) <= Qmax mn (Qmin mx v2)).
      { apply Q.max_le_compat_l. apply Q.min_le_compat_l. exact Hv. }
      assert (Hd : 0 < / (mx - mn)) by (apply Qinv_lt_0_compat; lra).
      unfold Qdiv. split; [|split].
      * apply Qmult_le_0_compat; lra.
      * apply Qmult_le_compat_r; lra.
      * apply Qle_shift_div_r; lra.
  - intros E v.
    destruct (inverseLerp_unit_or_NaN mn mx v) as [[_ H]|[H _]];
      [exact H | now destruct H].
  - intros Hgt v. unfold inverseLerp.
    rewrite Math_min_Fin, Math_max_Fin, !nsub_Fin.
    rewrite ndiv_Fin by (rewrite Qred_correct; lra).
    change (Fin 0) with (Fin (Qred 0)). f_equal. apply Qred_complete.
    rewrite !Qred_correct.
    assert (E : Qmax mn (Qmin mx v) == mn).
    { destruct (Q.min_spec mx v) as [[? E1]|[? E1]];
        destruct (Q.max_spec mn (Qmin mx v)) as [[? E2]|[? E2]];
        rewrite E2, ?E1 in *; lra. }
    rewrite E. assert (E0 : mn - mn == 0) by ring. rewrite E0.
    unfold Qdiv. apply Qmult_0_l.
Qed.

Lemma inverseLerp_cases_witness :
  inverseLerp (Fin (1 # 6)) (Fin (5 # 6)) (Fin 0) = Fin 0
  /\ inverseLerp (Fin (1 # 6)) (Fin (5 # 6)) (Fin 2) = Fin 1
  /\ inverseLerp (Fin (1 # 6)) (Fin (1 # 6)) (Fin 2) = NaN
  /\ inverseLerp (Fin (5 # 6)) (Fin (1 # 6)) (Fin 2) = Fin 0.
Proof.
  destruct (proj1 (inverseLerp_cases (1 # 6) (5 # 6))) as (H0 & H1 & _);
    [reflexivity|].
  split; [apply H0; discriminate|]. split; [apply H1; discriminate|].
  split.
  - apply (proj1 (proj2 (inverseLerp_cases (1 # 6) (1 # 6)))). reflexivity.
  - apply (proj2 (proj2 (inverseLerp_cases (5 # 6) (1 # 6)))). reflexivity.
Defined.

(** ** Where the mask is 1 and where it is 0 *)

Lemma cube_zero (e : Q) : e * (e * e) == 0 -> e == 0.
Proof.
  intros H. apply Qmult_integral in H as [H|H]; [exact H|].
  now apply Qmult_integral in H as [H|H].
Qed.

Lemma falloff_curve_one (d : Q) :
  0 <= d <= 1 -> (falloff_curve d == 1 <-> d == 1).
Proof.
  intros Hd. destruct (falloff_denominator d Hd) as (Ha & Hb & Hpos).
  unfold falloff_curve. cbv zeta in *.
  set (A := d * (d * d)) in *.
  set (e := (22 # 10) - (22 # 10) * d) in *.
  set (B := e * (e * e)) in *.
  assert (Hq : A / (A + B) * (A + B) == A) by (field; lra).
  split.
  - intros E. rewrite E in Hq. assert (HB : B == 0) by lra.
    apply cube_zero in HB. unfold e in HB. lra.
  - intros E. assert (He : e == 0) by (unfold e; lra).
    assert (HB : B == 0) by (unfold B; rewrite He; ring).
    rewrite HB. field. lra.
Qed.

Lemma falloff_curve_zero (d : Q) :
  0 <= d <= 1 -> (falloff_curve d == 0 <-> d == 0).
Proof.
  intros Hd. destruct (falloff_denominator d Hd) as (Ha & Hb & Hpos).
  unfold falloff_curve. cbv zeta in *.
  set (A := d * (d * d)) in *.
  set (e := (22 # 10) - (22 # 10) * d) in *.
  set (B := e * (e * e)) in *.
  assert (Hq : A / (A + B) * (A + B) == A) by (field; lra).
  split.
  - intros E. rewrite E in Hq. assert (HA : A == 0) by lra.
    now apply cube_zero in HA.
  - intros E. assert (HA : A == 0) by (unfold A; rewrite E; ring).
    rewrite HA. unfold Qdiv. apply Qmult_0_l.
Qed.

Lemma coordinate_minus_one (n i : Z) :
  (0 < n)%Z ->
  (inject_Z i / inject_Z n * 2 - 1 == -1 <-> i = 0%Z).
Proof.
  intros Hn. assert (Hn' : ~ inject_Z n == 0) by (apply inject_Z_nonzero; lia).
  pose proof (Qmult_div_r (inject_Z i) (inject_Z n) Hn') as Hq.
  split.
  - intros E. assert (E0 : inject_Z i / inject_Z n == 0) by lra.
    rewrite E0, Qmult_0_r in Hq. apply inject_Z_injective.
    change (inject_Z 0) with 0. lra.
  - intros ->. change (inject_Z 0) with 0. unfold Qdiv.
    rewrite Qmult_0_l. reflexivity.
Qed.

Lemma coordinate_zero (n i : Z) :
  (0 < n)%Z ->
  (inject_Z i / inject_Z n * 2 - 1 == 0 <-> (2 * i = n)%Z).
Proof.
  intros Hn. assert (Hn' : ~ inject_Z n == 0) by (apply inject_Z_nonzero; lia).
  pose proof (Qmult_div_r (inject_Z i) (inject_Z n) Hn') as Hq.
  split.
  - intros E. apply inject_Z_injective. rewrite inject_Z_mult.
    change (inject_Z 2) with 2.
    assert (E0 : inject_Z i / inject_Z n * 2 == 1) by lra.
    nra.
  - intros <-. rewrite inject_Z_mult. change (inject_Z 2) with 2.
    assert (Hi : ~ inject_Z i == 0).
    { apply inject_Z_nonzero. lia. }
    field. lra.
Qed.

(** X2: in the falloff mask of any size, a cell holds 1 exactly when it
    lies in row 0 or in column 0, and holds 0 exactly when it is the centre
    cell [(n/2, n/2)] of a mask of even size. *)
Theorem falloff_mask_extreme_cells (n : Z) :
  exists grid,
    createIslandShapeGrid (ofZ n) = Ok grid
    /\ forall i j, (0 <= i < n)%Z -> (0 <= j < n)%Z ->
       (array_get2 grid i j = Fin 1 <-> i = 0%Z \/ j = 0%Z)
       /\ (array_get2 grid i j = Fin 0 <-> (2 * i = n)%Z /\ (2 * j = n)%Z).
Proof.
  eexists. split; [apply createIslandShapeGrid_cells|].
  intros i j Hi Hj. rewrite mask_cell by done.
  destruct (chebyshev_Fin n i j Hi Hj) as (d & -> & Ed & Hd).
  rewrite evaluate_Fin by done.
  pose proof (Qdiv_inject_Z_range n i Hi) as Hri.
  pose proof (Qdiv_inject_Z_range n j Hj) as Hrj.
  set (ci := inject_Z i / inject_Z n * 2 - 1) in *.
  set (cj := inject_Z j / inject_Z n * 2 - 1) in *.
  assert (Hci : -1 <= ci < 1) by (unfold ci; lra).
  assert (Hcj : -1 <= cj < 1) by (unfold cj; lra).
  assert (Habs : forall c, -1 <= c < 1 ->
            0 <= Qabs c <= 1 /\ (Qabs c == 1 <-> c == -1)
            /\ (Qabs c == 0 <-> c == 0)).
  { intros c Hc. apply (Qabs_case c); intros Hs; repeat split; lra. }
  destruct (Habs ci Hci) as (Hai & Hi1 & Hi0).
  destruct (Habs cj Hcj) as (Haj & Hj1 & Hj0).
  assert (Hd1 : d == 1 <-> ci == -1 \/ cj == -1).
  { rewrite Ed, <- Hi1, <- Hj1.
    destruct (Q.max_spec (Qabs ci) (Qabs cj)) as [[? ->]|[? ->]];
      split; try tauto; intros [?|?]; lra. }
  assert (Hd0 : d == 0 <-> ci == 0 /\ cj == 0).
  { rewrite Ed, <- Hi0, <- Hj0.
    destruct (Q.max_spec (Qabs ci) (Qabs cj)) as [[? ->]|[? ->]];
      split; try tauto; intros ?; split; lra. }
  split.
  - rewrite <- (coordinate_minus_one n i), <- (coordinate_minus_one n j) by lia.
    fold ci cj. rewrite <- Hd1, <- (falloff_curve_one d Hd). split.
    + intros E. injection E as E. rewrite <- (Qred_correct (falloff_curve d)).
      now rewrite E.
    + intros E. change (Fin 1) with (Fin (Qred 1)). f_equal.
      now apply Qred_complete.
  - rewrite <- (coordinate_zero n i), <- (coordinate_zero n j) by lia.
    fold ci cj. rewrite <- Hd0, <- (falloff_curve_zero d Hd). split.
    + intros E. injection E as E. rewrite <- (Qred_correct (falloff_curve d)).
      now rewrite E.
    + intros E. change (Fin 0) with (Fin (Qred 0)). f_equal.
      now apply Qred_complete.
Qed.

Lemma falloff_mask_extreme_cells_witness :
  exists grid,
    createIslandShapeGrid (ofZ 4) = Ok grid
    /\ array_get2 grid 0 3 = Fin 1 /\ array_get2 grid 2 2 = Fin 0.
Proof.
  destruct (falloff_mask_extreme_cells 4) as (grid & E & H).
  exists grid. split; [exact E|]. split.
  - apply (proj1 (H 0%Z 3%Z ltac:(lia) ltac:(lia))). now left.
  - apply (proj2 (H 2%Z 2%Z ltac:(lia) ltac:(lia))). split; reflexivity.
Defined.

(** ** The range of the fractal sum *)

Section RawHeights.

Import Variant1.

Variable simplex2 : Z -> number -> number -> number.
Variable perlin_get : number -> number -> number.

Lemma half_of_bounded (q : Q) :
  -1 <= q <= 1 ->
  exists v, ((Fin q + Fin 1) / Fin 2)%num = Fin v /\ 0 <= v <= 1.
Proof.
  intros Hq. cbn [nadd]. rewrite ndiv_Fin by lra.
  eexists. split; [reflexivity|]. rewrite !Qred_correct. split.
  - apply Qle_shift_div_l; lra.
  - apply Qle_shift_div_r; lra.
Qed.

Lemma octave_step_bounded (a h k p v : Q) :
  0 <= a <= 1 -> 0 <= h <= k -> 0 <= p <= 1 -> 0 <= v <= 1 ->
  0 <= Qred (a * p) <= 1 /\ 0 <= Qred (h + Qred (v * a)) <= k + 1.
Proof.
  intros Ha Hh Hp Hv. rewrite !Qred_correct.
  assert (0 <= v * a) by nra. assert (v * a <= 1) by nra.
  split; [nra | lra].
Qed.

Lemma v2_octave_loop_bounded (t : Terrain) (nx nz cell : number) (p : Q) :
  bounded_noise simplex2 ->
  persistance (config t) = Fin p -> 0 <= p <= 1 ->
  forall (n : nat) (a h k : Q) (frequency : number),
    0 <= a <= 1 -> 0 <= h <= k ->
    exists h',
      Variant2.octave_loop simplex2 t nx nz cell n (Fin a) frequency (Fin h)
      = Fin h'
      /\ 0 <= h' <= k + inject_Z (Z.of_nat n).
Proof.
  intros Hb Hp Hp01. induction n as [|n IH]; intros a h k frequency Ha Hh.
  - exists h. split; [done|]. change (inject_Z (Z.of_nat 0)) with 0. lra.
  - cbn [Variant2.octave_loop]. rewrite Hp. unfold Variant2.Noise_getNoise.
    destruct (Hb (seed (noise t)) (nx * cell * frequency)%num
                 (nz * cell * frequency)%num) as (q & -> & Hq).
    destruct (half_of_bounded q Hq) as (v & -> & Hv).
    cbn [nmul nadd].
    destruct (octave_step_bounded a h k p v Ha Hh Hp01 Hv) as [Ha' Hh'].
    destruct (IH _ _ (k + 1) (frequency * lacunarity (config t))%num Ha' Hh')
      as (h' & E & Hr).
    exists h'. split; [exact E|].
    rewrite Nat2Z.inj_succ, <- Z.add_1_r, inject_Z_plus.
    change (inject_Z 1) with 1. lra.
Qed.

Lemma v3_octave_loop_bounded (c : Variant3.MapConfig) (o : Variant3.Offset)
    (x y : Z) (p : Q) :
  bounded_perlin perlin_get ->
  Variant3.persistance c = Fin p -> 0 <= p <= 1 ->
  forall (n : nat) (a h k : Q) (frequency : number),
    0 <= a <= 1 -> 0 <= h <= k ->
    exists h',
      Variant3.octave_loop perlin_get c o x y n (Fin a) frequency (Fin h)
      = Fin h'
      /\ 0 <= h' <= k + inject_Z (Z.of_nat n).
Proof.
  intros Hb Hp Hp01. induction n as [|n IH]; intros a h k frequency Ha Hh.
  - exists h. split; [done|]. change (inject_Z (Z.of_nat 0)) with 0. lra.
  - cbn [Variant3.octave_loop]. rewrite Hp.
    match goal with |- context [perlin_get ?u ?w] =>
      destruct (Hb u w) as (q & -> & Hq) end.
    destruct (half_of_bounded q Hq) as (v & -> & Hv).
    cbn [nmul nadd].
    destruct (octave_step_bounded a h k p v Ha Hh Hp01 Hv) as [Ha' Hh'].
    destruct (IH _ _ (k + 1) (frequency * Variant3.lacunarity c)%num Ha' Hh')
      as (h' & E & Hr).
    exists h'. split; [exact E|].
    rewrite Nat2Z.inj_succ, <- Z.add_1_r, inject_Z_plus.
    change (inject_Z 1) with 1. lra.
Qed.

Lemma v2_rawHeight_bounded (t : Terrain) (x z : Z) (p : Q) :
  bounded_noise simplex2 ->
  persistance (config t) = Fin p -> 0 <= p <= 1 ->
  exists h, Variant2.rawHeight simplex2 t x z = Fin h
            /\ 0 <= h <= inject_Z (Z.max 0 (octaves (config t))).
Proof.
  intros Hb Hp Hp01. unfold Variant2.rawHeight. cbv zeta.
  destruct (v2_octave_loop_bounded t
              (ofZ x / (ofZ (size (config t)) * ofZ (chunkSize (config t))))%num
              (ofZ z / (ofZ (size (config t)) * ofZ (chunkSize (config t))))%num
              (ofZ (chunkSize (config t)) / ofZ (resolution (config t)))%num
              p Hb Hp Hp01 (Z.to_nat (octaves (config t))) 1 0 0 (Fin 1))
    as (h & E & Hh); [lra | lra |].
  exists h. split; [exact E|].
  replace (Z.of_nat (Z.to_nat (octaves (config t))))
    with (Z.max 0 (octaves (config t))) in Hh by lia.
  lra.
Qed.

Lemma v3_rawHeight_bounded (c : Variant3.MapConfig) (o : Variant3.Offset)
    (x y : Z) (p : Q) :
  bounded_perlin perlin_get ->
  Variant3.persistance c = Fin p -> 0 <= p <= 1 ->
  exists h, Variant3.rawHeight perlin_get c o x y = Fin h
            /\ 0 <= h <= inject_Z (Z.max 0 (Variant3.octaves c)).
Proof.
  intros Hb Hp Hp01. unfold Variant3.rawHeight.
  destruct (v3_octave_loop_bounded c o x y p Hb Hp Hp01
              (Z.to_nat (Variant3.octaves c)) 1 0 0 (Fin 1))
    as (h & E & Hh); [lra | lra |].
  exists h. split; [exact E|].
  replace (Z.of_nat (Z.to_nat (Variant3.octaves c)))
    with (Z.max 0 (Variant3.octaves c)) in Hh by lia.
  lra.
Qed.

Lemma v3_octave_loop_finite (c : Variant3.MapConfig) (o : Variant3.Offset)
    (x y : Z) (p : Q) :
  bounded_perlin perlin_get ->
  Variant3.persistance c = Fin p ->
  forall (n : nat) (a h : Q) (frequency : number),
    exists h',
      Variant3.octave_loop perlin_get c o x y n (Fin a) frequency (Fin h)
      = Fin h'.
Proof.
  intros Hb Hp. induction n as [|n IH]; intros a h frequency.
  - now exists h.
  - cbn [Variant3.octave_loop]. rewrite Hp.
    match goal with |- context [perlin_get ?u ?w] =>
      destruct (Hb u w) as (q & -> & Hq) end.
    destruct (half_of_bounded q Hq) as (v & -> & _).
    cbn [nmul nadd]. apply IH.
Qed.

Lemma v3_rawHeight_finite (c : Variant3.MapConfig) (o : Variant3.Offset)
    (x y : Z) (p : Q) :
  bounded_perlin perlin_get ->
  Variant3.persistance c = Fin p ->
  exists h, Variant3.rawHeight perlin_get c o x y = Fin h.
Proof.
  intros Hb Hp. apply (v3_octave_loop_finite c o x y p Hb Hp).
Qed.

(** X3: with samples in [[-1, 1]] and a persistence in [[0, 1]], the fractal
    sum of a cell, before normalisation, is a finite number between 0 and
    the number of octaves, in each of the three versions. *)
Theorem raw_height_range (p : Q) :
  0 <= p <= 1 ->
  (bounded_noise simplex2 ->
   forall (t : Terrain) (x z : Z) (offset : Offset),
     persistance (config t) = Fin p ->
     exists h, rawHeight simplex2 t x z offset = Fin h
               /\ 0 <= h <= inject_Z (Z.max 0 (octaves (config t))))
  /\ (bounded_noise simplex2 ->
      forall (t : Terrain) (x z : Z),
        persistance (config t) = Fin p ->
        exists h, Variant2.rawHeight simplex2 t x z = Fin h
                  /\ 0 <= h <= inject_Z (Z.max 0 (octaves (config t))))
  /\ (bounded_perlin perlin_get ->
      forall (c : Variant3.MapConfig) (o : Variant3.Offset) (x y : Z),
        Variant3.persistance c = Fin p ->
        exists h, Variant3.rawHeight perlin_get c o x y = Fin h
                  /\ 0 <= h <= inject_Z (Z.max 0 (Variant3.octaves c))).
Proof.
  intros Hp. split; [|split].
  - intros Hb t x z offset E. now apply (rawHeight_bounded simplex2 t x z offset p).
  - intros Hb t x z E. now apply (v2_rawHeight_bounded t x z p).
  - intros Hb c o x y E. now apply (v3_rawHeight_bounded c o x y p).
Qed.

(** X4: in the second version too, the first [#getHeight] of a new terrain
    returns [NaN], for every cell, and leaves the raw height of that cell in
    both extremes. *)
Theorem v2_first_getHeight_is_NaN (c : Config) (rnd x z : Z) (p : Q) :
  bounded_noise simplex2 ->
  persistance c = Fin p -> 0 <= p <= 1 ->
  (octaves c < 9007199254740991)%Z ->
  let r := Variant2.getHeight simplex2 (Terrain_new c rnd) x z in
  r.1 = NaN
  /\ minHeight r.2 = Variant2.rawHeight simplex2 (Terrain_new c rnd) x z
  /\ maxHeight r.2 = Variant2.rawHeight simplex2 (Terrain_new c rnd) x z.
Proof.
  intros Hb Hp Hp01 Ho r. subst r.
  destruct (v2_rawHeight_bounded (Terrain_new c rnd) x z p Hb Hp Hp01)
    as (h & Hh & Hr).
  cbn [config Terrain_new] in Hr.
  assert (inject_Z (Z.max 0 (octaves c)) < 9007199254740991 # 1).
  { change (9007199254740991 # 1) with (inject_Z 9007199254740991).
    rewrite <- Zlt_Qlt. lia. }
  rewrite v2_getHeight_unfold. cbv zeta. rewrite Hh.
  cbn [minHeight maxHeight Terrain_new].
  unfold Number_MAX_SAFE_INTEGER, Number_MIN_SAFE_INTEGER, ofZ.
  rewrite (proj2 (nlt_Fin h _)) by (change (inject_Z 9007199254740991) with (9007199254740991 # 1); lra).
  rewrite (proj2 (nlt_Fin _ h)) by (change (inject_Z (-9007199254740991)) with (-9007199254740991 # 1); lra).
  cbn [fst snd minHeight maxHeight]. now rewrite inverseLerp_same.
Qed.

End RawHeights.

Lemma raw_height_range_witness :
  exists h,
    Variant1.rawHeight ramp (Variant1.Terrain_new small_config 7) 1 0 origin = Fin h
    /\ 0 <= h <= inject_Z (Z.max 0 (octaves small_config)).
Proof.
  apply (proj1 (raw_height_range ramp (ramp 0) (1 # 2)
                  ltac:(split; discriminate))
           ramp_bounded (Variant1.Terrain_new small_config 7) 1%Z 0%Z origin).
  reflexivity.
Defined.

Lemma v2_first_getHeight_is_NaN_witness :
  (Variant2.getHeight ramp (Variant1.Terrain_new small_config 7) 3 1).1 = NaN.
Proof.
  apply (v2_first_getHeight_is_NaN ramp small_config 7 3 1 (1 # 2)).
  - exact ramp_bounded.
  - reflexivity.
  - split; discriminate.
  - reflexivity.
Defined.

(** ** What [createGrid] and [create] return *)

Section Outcomes1.

Import Variant1.

Variable simplex2 : Z -> number -> number -> number.

Lemma sampled_grid_square (offset : Offset) (g : Z) (t : Terrain) :
  square_grid (Z.to_nat g) (sampled_grid simplex2 offset g t).1.
Proof.
  unfold square_grid, sampled_grid. rewrite mapS_length, length_seqZ.
  split; [done|].
  apply (mapS_inv (fun _ : Terrain => True)
           (fun row => length row = Z.to_nat g)
           (sampled_row simplex2 offset g) (seqZ 0 g)); [|done].
  intros z s _. split; [|done].
  unfold sampled_row. now rewrite mapS_length, length_seqZ.
Qed.

Lemma sampled_grid_widens (offset : Offset) (g : Z) (t : Terrain) :
  let t' := (sampled_grid simplex2 offset g t).2 in
  not_above (minHeight t') (minHeight t)
  /\ not_above (maxHeight t) (maxHeight t').
Proof.
  pose (K := fun t' : Terrain =>
    not_above (minHeight t') (minHeight t)
    /\ not_above (maxHeight t) (maxHeight t')).
  assert (Hrow : forall z s, K s ->
    True /\ K (sampled_row simplex2 offset g z s).2).
  { intros z s Hs. split; [done|].
    apply (mapS_inv K (fun _ => True)); [|done].
    intros x s1 [H1 H2]. split; [done|].
    destruct (getHeight_widens simplex2 s1 x z offset) as [H3 H4].
    split; eapply not_above_trans; eauto. }
  apply (mapS_inv K (fun _ => True) _ _ Hrow).
  split; apply not_above_refl.
Qed.

Lemma gridSize_zero_resolution (cs : Z) :
  Math_floor (ofZ cs / ofZ 0)
  = match (cs ?= 0)%Z with Gt => PInf | Lt => NInf | Eq => NaN end.
Proof. rewrite floor_div_ofZ_0. now destruct (cs ?= 0)%Z. Qed.

(** [createGrid] throws when the grid is too large for [Array.from];
    otherwise it returns a square grid and touches nothing of the terrain
    but the extremes, which it only widens. *)
Lemma createGrid_outcome (cs res : Z) (offset : Offset) (t : Terrain) :
  (grid_too_large cs res ->
   createGrid simplex2 cs res offset t = Throw RangeError)
  /\ (~ grid_too_large cs res ->
      exists grid t',
        createGrid simplex2 cs res offset t = Ok (grid, t')
        /\ square_grid (grid_side cs res) grid
        /\ config t' = config t /\ chunks t' = chunks t /\ noise t' = noise t
        /\ not_above (minHeight t') (minHeight t)
        /\ not_above (maxHeight t) (maxHeight t')).
Proof.
  unfold grid_too_large, grid_side. split.
  - intros [[-> Hcs]|[Hres Hg]]; unfold createGrid.
    + rewrite gridSize_zero_resolution.
      now replace (cs ?= 0)%Z with Gt by (symmetry; now apply Z.compare_gt_iff).
    + rewrite floor_div_ofZ by done.
      rewrite createEmptyMatrix_throws; [done|].
      unfold ToLength, ofZ. rewrite Qfloor_Z. lia.
  - intros Hok. destruct (decide (res = 0%Z)) as [->|Hres].
    + assert (Hcs : (cs <= 0)%Z) by (destruct (Z.le_gt_cases cs 0); [done|]; exfalso; apply Hok; left; split; [done|lia]).
      exists [], t. unfold createGrid. rewrite gridSize_zero_resolution.
      split.
      { destruct (Z.compare_spec cs 0) as [?|?|?]; [reflexivity | reflexivity | lia]. }
      repeat split; try apply not_above_refl. constructor.
    + assert (Hg : (cs / res <= 4294967295)%Z).
      { destruct (Z.le_gt_cases (cs / res) 4294967295); [done|].
        exfalso. apply Hok. right. split; [done|lia]. }
      rewrite createGrid_rows by done.
      destruct (sampled_grid_frame simplex2 offset (cs / res) t) as (Hc & Hch & Hn).
      destruct (sampled_grid_widens offset (cs / res) t) as [Hmn Hmx].
      pose proof (sampled_grid_square offset (cs / res) t) as Hsq.
      destruct (sampled_grid simplex2 offset (cs / res) t) as [grid t'].
      exists grid, t'. cbn in *. done.
Qed.

End Outcomes1.

(** A loop that returns on the states of an invariant and appends to a
    list it carries. *)
Lemma forM_trace {S X} (I : S -> Prop) (F : S -> list X) (g : Z -> list X)
    (body : Z -> S -> result S) :
  (forall i s, I s -> exists s', body i s = Ok s' /\ I s' /\ F s' = F s ++ g i) ->
  forall (l : list Z) (s : S),
    I s ->
    exists s', forM l body s = Ok s' /\ I s' /\ F s' = F s ++ flat_map g l.
Proof.
  intros Hbody. induction l as [|i l IH]; intros s Hs; cbn [forM flat_map].
  - exists s. now rewrite app_nil_r.
  - destruct (Hbody i s Hs) as (s1 & -> & H1 & E1). cbn [bind].
    destruct (IH s1 H1) as (s2 & -> & H2 & E2).
    exists s2. split; [done|]. split; [done|].
    now rewrite E2, E1, <- app_assoc.
Qed.

Lemma flat_map_singleton {A B} (f : A -> B) (l : list A) :
  flat_map (fun x => [f x]) l = List.map f l.
Proof. induction l as [|a l IH]; cbn; [done | now rewrite IH]. Qed.

Lemma flat_map_length_const {A B} (f : A -> list B) (l : list A) (m : nat) :
  (forall a, length (f a) = m) -> length (flat_map f l) = (length l * m)%nat.
Proof.
  intros Hf. induction l as [|a l IH]; cbn; [done|].
  rewrite length_app, Hf, IH. lia.
Qed.

Section Outcomes2.

Import Variant1.

Variable simplex2 : Z -> number -> number -> number.

Lemma createMesh_total (cs res : Z) (hm : number) (grid : list (list number)) :
  ~ grid_too_large cs res -> exists mesh, createMesh cs res hm grid = Ok mesh.
Proof.
  intros Hok. destruct (decide (res = 0%Z)) as [->|Hres].
  - unfold createMesh. rewrite gridSize_zero_resolution.
    destruct (Z.compare_spec cs 0) as [?|?|?].
    + now exists [].
    + now exists [].
    + exfalso. apply Hok. left. split; [done|lia].
  - now apply createMesh_returns.
Qed.

(** What a chunk is made of. *)
Lemma Chunk_new_outcome (cs res : Z) (offset : Offset) (hm : number)
    (isl wf : bool) (t : Terrain) :
  (grid_too_large cs res ->
   Chunk_new simplex2 cs offset res hm isl wf t = Throw RangeError)
  /\ (~ grid_too_large cs res ->
      exists chunk t',
        Chunk_new simplex2 cs offset res hm isl wf t = Ok (chunk, t')
        /\ c_offset chunk = offset /\ c_size chunk = cs
        /\ c_resolution chunk = res
        /\ square_grid (grid_side cs res) (grid chunk)
        /\ config t' = config t /\ chunks t' = chunks t /\ noise t' = noise t
        /\ not_above (minHeight t') (minHeight t)
        /\ not_above (maxHeight t) (maxHeight t')).
Proof.
  destruct (createGrid_outcome simplex2 cs res offset t) as [Hthrow Hok].
  unfold Chunk_new. split.
  - intros Hbig. now rewrite (Hthrow Hbig).
  - intros Hsmall.
    destruct (Hok Hsmall) as (grid & t' & -> & Hsq & Hc & Hch & Hn & Hmn & Hmx).
    cbn [bind].
    destruct (createMesh_total cs res hm grid Hsmall) as (mesh & ->).
    cbn [bind]. do 2 eexists. split; [reflexivity|]. cbn. done.
Qed.

Lemma chunk_offsets_length (c : Config) :
  length (chunk_offsets c) = (Z.to_nat (size c) * Z.to_nat (size c))%nat.
Proof.
  unfold chunk_offsets.
  rewrite (flat_map_length_const _ _ (Z.to_nat (size c))).
  - now rewrite length_seqZ.
  - intros z. now rewrite length_map, length_seqZ.
Qed.

(** X5: what [create] does, from any terrain.  With at least one chunk to
    build and a grid too large for [Array.from] (a resolution of 0 with a
    positive chunk size, or [floor(chunkSize / resolution)] above
    [2^32 - 1]) it throws the [RangeError] of [createEmptyMatrix].  With no
    chunk to build, or with a resolution other than 0 and a grid size of at
    most [2^32 - 1], it returns: the configuration and the noise are
    unchanged, the chunks already there are kept in place, [size * size]
    chunks are appended in row-major order, the chunk of row [z] and column
    [x] at the offset [(x * chunkSize, z * chunkSize)], each with a square
    grid whose side is [floor(chunkSize / resolution)], and the extremes
    are only widened. *)
Theorem create_outcome (t : Terrain) :
  let c := config t in
  let added t' := drop (length (chunks t)) (chunks t') in
  ((1 <= size c)%Z -> grid_too_large (chunkSize c) (resolution c) ->
   create simplex2 t = Throw RangeError)
  /\ ((size c <= 0)%Z
      \/ (resolution c <> 0%Z
          /\ (chunkSize c / resolution c <= 4294967295)%Z) ->
      exists t',
        create simplex2 t = Ok t'
        /\ config t' = c /\ noise t' = noise t
        /\ take (length (chunks t)) (chunks t') = chunks t
        /\ List.map c_offset (added t') = chunk_offsets c
        /\ length (added t') = (Z.to_nat (size c) * Z.to_nat (size c))%nat
        /\ Forall (fun chunk =>
             c_size chunk = chunkSize c /\ c_resolution chunk = resolution c
             /\ square_grid (grid_side (chunkSize c) (resolution c))
                  (grid chunk))
             (added t')
        /\ not_above (minHeight t') (minHeight t)
        /\ not_above (maxHeight t) (maxHeight t')).
Proof.
  intros c added. split.
  - intros Hsize Hbig. unfold create. fold c. rewrite !for_lt_ofZ.
    rewrite (seqZ_cons 0 (Z.max 0 (size c))) by lia. cbn [forM].
    rewrite for_lt_ofZ, (seqZ_cons 0 (Z.max 0 (size c))) by lia.
    cbn [forM]. cbv zeta. fold c.
    now rewrite (proj1 (Chunk_new_outcome _ _ _ _ _ _ t) Hbig).
  - intros Hcase.
    destruct (Z.le_gt_cases (size c) 0) as [Hsize|Hsize].
    { exists t. unfold create. fold c. rewrite for_lt_ofZ, seqZ_nil by lia.
      subst added. cbv beta. rewrite drop_all, firstn_all.
      unfold chunk_offsets. rewrite (seqZ_nil 0 (size c)) by lia.
      replace (Z.to_nat (size c)) with 0%nat by lia.
      cbn. repeat split; try done; try apply not_above_refl. }
    assert (Hsmall : ~ grid_too_large (chunkSize c) (resolution c)).
    { destruct Hcase as [?|[Hres Hg]]; [lia|].
      intros [[H _]|[_ H]]; [done | lia]. }
    set (k := length (chunks t)).
    pose (P := fun chunk : Chunk =>
      c_size chunk = chunkSize c /\ c_resolution chunk = resolution c
      /\ square_grid (grid_side (chunkSize c) (resolution c)) (grid chunk)).
    pose (I := fun t' : Terrain =>
      config t' = c /\ noise t' = noise t
      /\ take k (chunks t') = chunks t /\ (k <= length (chunks t'))%nat
      /\ Forall P (drop k (chunks t'))
      /\ not_above (minHeight t') (minHeight t)
      /\ not_above (maxHeight t) (maxHeight t')).
    pose (F := fun t' : Terrain => List.map c_offset (drop k (chunks t'))).
    assert (Hbody : forall z x t1, I t1 -> exists t2,
      (let c0 := config t1 in
       let* (chunk, t0) :=
         Chunk_new simplex2 (chunkSize c0)
           {| off_x := x * chunkSize c0; off_z := z * chunkSize c0 |}
           (resolution c0) (heightMultiplier c0) (islands c0) (wireframe c0)
           t1 in
       Ok (addChunk chunk t0)) = Ok t2
      /\ I t2 /\ F t2 = F t1 ++ [chunk_offset c z x]).
    { intros z x t1 (Hc & Hn & Htk & Hk & Hall & Hmn & Hmx). cbv zeta.
      rewrite Hc.
      destruct (proj2 (Chunk_new_outcome (chunkSize c) (resolution c)
                  {| off_x := x * chunkSize c; off_z := z * chunkSize c |}
                  (heightMultiplier c) (islands c) (wireframe c) t1) Hsmall)
        as (chunk & t2 & -> & Hoff & Hcs & Hres & Hsq & Hc2 & Hch2 & Hn2
            & Hmn2 & Hmx2).
      cbn [bind]. eexists. split; [reflexivity|].
      unfold I, F. cbn [addChunk config noise chunks minHeight maxHeight].
      rewrite Hch2. rewrite drop_app_le by done.
      split.
      - split; [congruence|]. split; [congruence|].
        split; [now rewrite take_app_le|].
        split; [rewrite length_app; lia|].
        split; [apply Forall_app; split; [done|]; constructor; [|constructor]; now unfold P|].
        split; eapply not_above_trans; eauto.
      - rewrite map_app. cbn [List.map]. now rewrite Hoff. }
    assert (Hrow : forall z t1, I t1 -> exists t2,
      for_lt (ofZ (size c)) (fun x t1 =>
        let c0 := config t1 in
        let* (chunk, t0) :=
          Chunk_new simplex2 (chunkSize c0)
            {| off_x := x * chunkSize c0; off_z := z * chunkSize c0 |}
            (resolution c0) (heightMultiplier c0) (islands c0) (wireframe c0)
            t1 in
        Ok (addChunk chunk t0)) t1 = Ok t2
      /\ I t2
      /\ F t2 = F t1 ++ List.map (fun x => chunk_offset c z x) (seqZ 0 (size c))).
    { intros z t1 H1. rewrite for_lt_ofZ, seqZ_max.
      destruct (forM_trace I F (fun x => [chunk_offset c z x]) _ (Hbody z)
                  (seqZ 0 (size c)) t1 H1) as (t2 & E & H2 & Ef).
      exists t2. now rewrite <- flat_map_singleton. }
    unfold create. fold c. rewrite for_lt_ofZ, seqZ_max.
    destruct (forM_trace I F
                (fun z => List.map (fun x => chunk_offset c z x) (seqZ 0 (size c)))
                _ Hrow (seqZ 0 (size c)) t)
      as (t' & E & (Hc & Hn & Htk & Hk & Hall & Hmn & Hmx) & Ef).
    { unfold I. subst k. rewrite firstn_all, drop_all.
      repeat split; try done; try apply not_above_refl. }
    exists t'. split; [exact E|]. subst added. cbv beta. fold k.
    unfold F in Ef. subst k. rewrite drop_all in Ef. cbn [List.map app] in Ef.
    fold (chunk_offsets c) in Ef.
    repeat split; try done.
    rewrite <- (length_map c_offset), Ef. apply chunk_offsets_length.
Qed.

End Outcomes2.

Lemma create_outcome_witness :
  Variant1.create ramp (Variant1.Terrain_new zero_resolution_config 7)
  = Throw RangeError
  /\ exists t',
      Variant1.create ramp (Variant1.Terrain_new small_config 7) = Ok t'
      /\ List.map Variant1.c_offset (Variant1.chunks t')
         = chunk_offsets small_config.
Proof.
  split.
  - apply (proj1 (create_outcome ramp
                    (Variant1.Terrain_new zero_resolution_config 7))).
    + discriminate.
    + left. split; reflexivity.
  - destruct (proj2 (create_outcome ramp (Variant1.Terrain_new small_config 7)))
      as (t' & E & _ & _ & _ & Hoff & _).
    + right. split; discriminate.
    + exists t'. split; [exact E | exact Hoff].
Defined.

(** ** The heights of a build *)

Section Heights1.

Import Variant1.

Variable simplex2 : Z -> number -> number -> number.

Lemma getHeight_unit_or_NaN (t : Terrain) (x z : Z) (offset : Offset)
    (p mn mx : Q) :
  bounded_noise simplex2 ->
  persistance (config t) = Fin p ->
  minHeight t = Fin mn -> maxHeight t = Fin mx ->
  unit_or_NaN (getHeight simplex2 t x z offset).1
  /\ exists mn' mx',
       minHeight (getHeight simplex2 t x z offset).2 = Fin mn'
       /\ maxHeight (getHeight simplex2 t x z offset).2 = Fin mx'.
Proof.
  intros Hb Hp Hmn Hmx.
  destruct (rawHeight_finite simplex2 t x z offset p Hb Hp) as (h & Hh).
  rewrite getHeight_unfold. cbv zeta. rewrite Hh, Hmn, Hmx.
  cbn [fst snd minHeight maxHeight].
  destruct (Fin h <? Fin mn)%num; destruct (Fin mx <? Fin h)%num;
    (split; [|eauto]);
    match goal with |- unit_or_NaN (inverseLerp (Fin ?a) (Fin ?b) (Fin ?v)) =>
      destruct (inverseLerp_unit_or_NaN a b v) as [[_ ->]|[_ (r & -> & Hr)]];
        [now left | right; eauto]
    end.
Qed.

(** X6: with finite samples, a finite persistence and finite extremes to
    start from (those of the constructor, or of an earlier build), [create]
    stores in the grids of the chunks it adds only numbers of [[0, 1]] and
    [NaN]: when the grids of the chunks already there hold nothing else,
    neither do the grids of the result. *)
Theorem build_heights_unit_or_NaN (t : Terrain) (p mn mx : Q) :
  bounded_noise simplex2 ->
  persistance (config t) = Fin p ->
  minHeight t = Fin mn -> maxHeight t = Fin mx ->
  resolution (config t) <> 0%Z ->
  (gridSize (config t) <= 4294967295)%Z ->
  Forall (fun chunk => Forall (Forall unit_or_NaN) (grid chunk)) (chunks t) ->
  exists t',
    create simplex2 t = Ok t'
    /\ Forall (fun chunk => Forall (Forall unit_or_NaN) (grid chunk))
         (chunks t').
Proof.
  intros Hb Hp Hmn Hmx Hres Hg Hall.
  pose (K := fun t' : Terrain =>
    config t' = config t
    /\ exists mn' mx', minHeight t' = Fin mn' /\ maxHeight t' = Fin mx').
  pose (I := fun t' : Terrain =>
    K t' /\ Forall (fun chunk => Forall (Forall unit_or_NaN) (grid chunk))
              (chunks t')).
  destruct (create_total simplex2 (config t) I I Hres Hg) with (t := t)
    as (t' & E & _ & _ & Hall').
  - done.
  - now intros t1 [[Hc _] _].
  - intros offset t1 chunk [Hk Hall1] Hgrid.
    assert (Hrow : forall z s, K s ->
      Forall unit_or_NaN (sampled_row simplex2 offset (gridSize (config t)) z s).1
      /\ K (sampled_row simplex2 offset (gridSize (config t)) z s).2).
    { intros z s Hs. apply (mapS_inv K unit_or_NaN); [|done].
      intros x s1 [Hc1 (mn1 & mx1 & Hmn1 & Hmx1)].
      destruct (getHeight_unit_or_NaN s1 x z offset p mn1 mx1)
        as [Hu Hfin]; [done | now rewrite Hc1 | done | done |].
      destruct (getHeight_noise simplex2 s1 x z offset) as (_ & Hc2 & _).
      split; [done|]. split; [congruence | done]. }
    destruct (mapS_inv K (Forall unit_or_NaN)
                (sampled_row simplex2 offset (gridSize (config t)))
                (seqZ 0 (gridSize (config t))) Hrow t1 Hk) as [Hrows Hk'].
    destruct (sampled_grid_frame simplex2 offset (gridSize (config t)) t1)
      as (_ & Hch & _).
    split.
    + destruct Hk' as [Hc' Hfin]. split; [now cbn|]. exact Hfin.
    + cbn [addChunk chunks]. rewrite Hch. apply Forall_app. split; [done|].
      constructor; [|constructor]. now rewrite Hgrid.
  - split; [|done]. split; [done|]. eauto.
  - now exists t'.
Qed.

(** [create] leaves the configuration and the noise as they are. *)
Lemma create_config (t t' : Terrain) :
  create simplex2 t = Ok t' -> config t' = config t /\ noise t' = noise t.
Proof.
  unfold create. intros E.
  pose (I := fun s : Terrain => config s = config t /\ noise s = noise t).
  assert (Hbody : forall z x t1 t2, I t1 ->
    (let c := config t1 in
     let* (chunk, t0) :=
       Chunk_new simplex2 (chunkSize c)
         {| off_x := x * chunkSize c; off_z := z * chunkSize c |}
         (resolution c) (heightMultiplier c) (islands c) (wireframe c) t1 in
     Ok (addChunk chunk t0)) = Ok t2 -> I t2).
  { intros z x t1 t2 [H1 H2] E1. cbv zeta in E1. unfold Chunk_new in E1.
    destruct (createGrid simplex2 _ _ _ t1) as [[g t3]| |] eqn:Eg;
      cbn [bind] in E1; try discriminate.
    destruct (createMesh _ _ _ g); cbn [bind] in E1; try discriminate.
    injection E1 as <-. apply createGrid_noise in Eg as (Hn & Hc & _).
    unfold I. cbn. split; congruence. }
  apply (for_lt_inv I) in E; [exact E| |done].
  intros z t1 t2 H1 E1.
  apply (for_lt_inv I) in E1; [exact E1| |done].
  intros x. apply Hbody.
Qed.

(** X7: a frame of [animate] that returns leaves a terrain whose hash is the
    text of [CONFIG], and does not change [CONFIG]: the frame after it
    rebuilds nothing and returns the same page. *)
Theorem animate_settles (a a' : App) :
  animate simplex2 a = Ok a' ->
  hash (terrain a') = JSON_stringify (CONFIG a')
  /\ CONFIG a' = CONFIG a
  /\ animate simplex2 a' = Ok a'.
Proof.
  unfold animate at 1. intros E.
  assert (Hset : hash (terrain a') = JSON_stringify (CONFIG a')
                 /\ CONFIG a' = CONFIG a).
  { destruct (decide (hash (terrain a) <> JSON_stringify (CONFIG a)))
      as [Hne|Heq].
    - destruct (create simplex2 _) as [t3| |] eqn:Ec; cbn [bind] in E;
        try discriminate.
      injection E as <-. apply create_config in Ec as [Hc _].
      cbn. unfold hash. now rewrite Hc.
    - injection E as <-. split; [|done].
      destruct (decide (hash (terrain a) = JSON_stringify (CONFIG a)));
        [done|]. now exfalso. }
  destruct Hset as [Hh Hc]. split; [exact Hh|]. split; [exact Hc|].
  unfold animate. now rewrite decide_False by (intros H; now apply H).
Qed.

(** X8: the terrain [main] builds, and the one the button 'Generate new
    seed' builds, carry the configuration they were built from: the next
    frame of [animate] finds the hash equal to the text of [CONFIG] and
    rebuilds nothing. *)
Theorem no_rebuild_after_build :
  (forall (c : Config) (rnd : Z) (a : App),
     main simplex2 c rnd = Ok a -> animate simplex2 a = Ok a)
  /\ (forall (a a' : App) (rnd : Z),
        generate_new_seed simplex2 a rnd = Ok a' ->
        animate simplex2 a' = Ok a').
Proof.
  split.
  - intros c rnd a. unfold main. intros E.
    destruct (create simplex2 _) as [t| |] eqn:Ec; cbn [bind] in E;
      try discriminate.
    injection E as <-. apply create_config in Ec as [Hc _].
    unfold animate. cbn [terrain CONFIG].
    rewrite decide_False; [done|]. intros H. apply H. unfold hash.
    now rewrite Hc.
  - intros a a' rnd. unfold generate_new_seed. cbv zeta. intros E.
    destruct (create simplex2 _) as [t| |] eqn:Ec; cbn [bind] in E;
      try discriminate.
    injection E as <-. apply create_config in Ec as [Hc _].
    unfold animate. cbn [terrain CONFIG].
    rewrite decide_False; [done|]. intros H. apply H. unfold hash.
    now rewrite Hc.
Qed.

End Heights1.

Lemma build_heights_unit_or_NaN_witness :
  exists t',
    Variant1.create ramp (Variant1.Terrain_new small_config 7) = Ok t'
    /\ Forall (fun chunk => Forall (Forall unit_or_NaN) (Variant1.grid chunk))
         (Variant1.chunks t').
Proof.
  apply (build_heights_unit_or_NaN ramp (Variant1.Terrain_new small_config 7)
           (1 # 2) (inject_Z 9007199254740991) (inject_Z (-9007199254740991))).
  - exact ramp_bounded.
  - reflexivity.
  - reflexivity.
  - reflexivity.
  - discriminate.
  - discriminate.
  - constructor.
Defined.

Lemma animate_settles_witness :
  exists a',
    Variant1.animate ramp
      {| Variant1.terrain := Variant1.Terrain_new small_config 7;
         Variant1.CONFIG := small_config_wireframe |} = Ok a'
    /\ Variant1.animate ramp a' = Ok a'.
Proof.
  assert (E : exists a',
    Variant1.animate ramp
      {| Variant1.terrain := Variant1.Terrain_new small_config 7;
         Variant1.CONFIG := small_config_wireframe |} = Ok a')
    by (eexists; vm_compute; reflexivity).
  destruct E as (a' & E). exists a'. split; [exact E|].
  apply (animate_settles ramp _ a' E).
Defined.

Lemma no_rebuild_after_build_witness :
  exists a,
    Variant1.main ramp small_config 7 = Ok a
    /\ Variant1.animate ramp a = Ok a.
Proof.
  assert (E : exists a, Variant1.main ramp small_config 7 = Ok a)
    by (eexists; vm_compute; reflexivity).
  destruct E as (a & E). exists a. split; [exact E|].
  apply (proj1 (no_rebuild_after_build ramp) small_config 7%Z a E).
Defined.

(** ** The grid of a chunk, second version *)

Section Grid2.

Import Variant1.

Variable simplex2 : Z -> number -> number -> number.

Lemma v2_octave_loop_finite (t : Terrain) (nx nz cell : number) (p : Q) :
  bounded_noise simplex2 ->
  persistance (config t) = Fin p ->
  forall (n : nat) (a h : Q) (frequency : number),
    exists h',
      Variant2.octave_loop simplex2 t nx nz cell n (Fin a) frequency (Fin h)
      = Fin h'.
Proof.
  intros Hb Hp. induction n as [|n IH]; intros a h frequency.
  - now exists h.
  - cbn [Variant2.octave_loop]. rewrite Hp. unfold Variant2.Noise_getNoise.
    destruct (Hb (seed (noise t)) (nx * cell * frequency)%num
                 (nz * cell * frequency)%num) as (q & -> & Hq).
    destruct (half_of_bounded q Hq) as (v & -> & _).
    cbn [nmul nadd]. apply IH.
Qed.

Lemma v2_getHeight_unit_or_NaN (t : Terrain) (x z : Z) (p mn mx : Q) :
  bounded_noise simplex2 ->
  persistance (config t) = Fin p ->
  minHeight t = Fin mn -> maxHeight t = Fin mx ->
  unit_or_NaN (Variant2.getHeight simplex2 t x z).1
  /\ exists mn' mx',
       minHeight (Variant2.getHeight simplex2 t x z).2 = Fin mn'
       /\ maxHeight (Variant2.getHeight simplex2 t x z).2 = Fin mx'.
Proof.
  intros Hb Hp Hmn Hmx.
  assert (Hraw : exists h, Variant2.rawHeight simplex2 t x z = Fin h).
  { unfold Variant2.rawHeight. cbv zeta.
    apply (v2_octave_loop_finite t _ _ _ p Hb Hp). }
  destruct Hraw as (h & Hh).
  rewrite v2_getHeight_unfold. cbv zeta. rewrite Hh, Hmn, Hmx.
  cbn [fst snd minHeight maxHeight].
  destruct (Fin h <? Fin mn)%num; destruct (Fin mx <? Fin h)%num;
    (split; [|eauto]);
    match goal with |- unit_or_NaN (inverseLerp (Fin ?a) (Fin ?b) (Fin ?v)) =>
      destruct (inverseLerp_unit_or_NaN a b v) as [[_ ->]|[_ (r & -> & Hr)]];
        [now left | right; eauto]
    end.
Qed.

(** [createGrid] of the second version returns the heights in the order of
    the calls. *)
Lemma v2_createGrid_rows (cs res : Z) (offset : Offset) (t : Terrain) :
  res <> 0%Z -> (cs / res <= 4294967295)%Z ->
  Variant2.createGrid simplex2 cs res offset t
  = Ok (mapS (fun z =>
              mapS (fun x t =>
                      Variant2.getHeight simplex2 t (x + off_x offset)
                        (z + off_z offset))
                (seqZ 0 (cs / res)))
          (seqZ 0 (cs / res)) t).
Proof.
  intros Hres Hg. unfold Variant2.createGrid. rewrite floor_div_ofZ by done.
  set (g := (cs / res)%Z) in *. rewrite createEmptyMatrix_ofZ by done.
  cbn [bind]. rewrite for_lt_ofZ.
  set (n := Z.to_nat g).
  set (body := fun z => for_lt (ofZ g) _).
  set (row := fun z =>
    mapS (fun x t =>
            Variant2.getHeight simplex2 t (x + off_x offset) (z + off_z offset))
      (seqZ 0 g)).
  assert (Hbody : forall (zi : nat) g0 s r,
    g0 !! zi = Some r -> length r = n ->
    body (Z.of_nat zi) (g0, s)
    = let '(hs, s') := row (Z.of_nat zi) s in Ok (<[zi := hs]> g0, s')).
  { intros zi g0 s r Hrow Hlen. subst body. cbv beta.
    rewrite for_lt_ofZ, Nat2Z.id.
    pose proof (fill_row_loop
                  (fun x t => Variant2.getHeight simplex2 t (x + off_x offset)
                                (Z.of_nat zi + off_z offset))
                  zi r [] g0 s Hrow) as Hrowloop.
    cbn [length app] in Hrowloop. rewrite Hlen in Hrowloop.
    change (Z.of_nat 0) with 0%Z in Hrowloop.
    replace (Z.of_nat n) with (Z.max 0 g) in Hrowloop by lia.
    rewrite Hrowloop. unfold row. now rewrite seqZ_max. }
  pose proof (fill_grid_loop row n body Hbody
                (replicate n (replicate n (Fin 0))) [] t) as Hloop.
  cbn [length app] in Hloop. rewrite length_replicate in Hloop.
  change (Z.of_nat 0) with 0%Z in Hloop.
  replace (Z.of_nat n) with (Z.max 0 g) in Hloop by lia.
  rewrite Hloop.
  - rewrite seqZ_max. destruct (mapS row (seqZ 0 g) t). reflexivity.
  - apply Forall_replicate. apply length_replicate.
Qed.

(** X9: what [#createGrid] of the second version does, from any terrain.
    It throws the [RangeError] of [createEmptyMatrix] when the grid is too
    large for [Array.from]; otherwise it returns a square grid of side
    [floor(size / resolution)], leaves the configuration, the chunks and
    the noise of the terrain as they are and only widens its extremes; with
    finite samples, a finite persistence and finite extremes to start from,
    every height of the grid is a number of [[0, 1]] or [NaN]. *)
Theorem v2_createGrid_outcome (cs res : Z) (offset : Offset) (t : Terrain) :
  (grid_too_large cs res ->
   Variant2.createGrid simplex2 cs res offset t = Throw RangeError)
  /\ (~ grid_too_large cs res ->
      exists grid t',
        Variant2.createGrid simplex2 cs res offset t = Ok (grid, t')
        /\ square_grid (grid_side cs res) grid
        /\ config t' = config t /\ chunks t' = chunks t /\ noise t' = noise t
        /\ not_above (minHeight t') (minHeight t)
        /\ not_above (maxHeight t) (maxHeight t')
        /\ (bounded_noise simplex2 ->
            forall p mn mx,
              persistance (config t) = Fin p ->
              minHeight t = Fin mn -> maxHeight t = Fin mx ->
              Forall (Forall unit_or_NaN) grid)).
Proof.
  unfold grid_too_large, grid_side. split.
  - intros [[-> Hcs]|[Hres Hg]]; unfold Variant2.createGrid.
    + rewrite gridSize_zero_resolution.
      now replace (cs ?= 0)%Z with Gt by (symmetry; now apply Z.compare_gt_iff).
    + rewrite floor_div_ofZ by done.
      rewrite createEmptyMatrix_throws; [done|].
      unfold ToLength, ofZ. rewrite Qfloor_Z. lia.
  - intros Hok. destruct (decide (res = 0%Z)) as [->|Hres].
    + assert (Hcs : (cs <= 0)%Z).
      { destruct (Z.le_gt_cases cs 0); [done|].
        exfalso. apply Hok. left. split; [done|lia]. }
      exists [], t. unfold Variant2.createGrid.
      rewrite gridSize_zero_resolution. split.
      { destruct (Z.compare_spec cs 0) as [?|?|?];
          [reflexivity | reflexivity | lia]. }
      repeat split; try apply not_above_refl; constructor.
    + assert (Hg : (cs / res <= 4294967295)%Z).
      { destruct (Z.le_gt_cases (cs / res) 4294967295); [done|].
        exfalso. apply Hok. right. split; [done|lia]. }
      rewrite v2_createGrid_rows by done.
      set (g := (cs / res)%Z).
      set (get := fun z x t0 =>
        Variant2.getHeight simplex2 t0 (x + off_x offset) (z + off_z offset)).
      set (row := fun z => mapS (get z) (seqZ 0 g)).
      pose (cond := bounded_noise simplex2
                    /\ (exists p, persistance (config t) = Fin p)
                    /\ (exists mn, minHeight t = Fin mn)
                    /\ (exists mx, maxHeight t = Fin mx)).
      pose (K := fun s : Terrain =>
        (config s = config t /\ chunks s = chunks t /\ noise s = noise t)
        /\ (not_above (minHeight s) (minHeight t)
            /\ not_above (maxHeight t) (maxHeight s))
        /\ (cond -> exists mn mx, minHeight s = Fin mn /\ maxHeight s = Fin mx)).
      assert (Hget : forall z x s, K s ->
        (cond -> unit_or_NaN (get z x s).1) /\ K (get z x s).2).
      { intros z x s ((Hc & Hch & Hn) & (Hmn & Hmx) & Hfin). subst get.
        cbv beta.
        destruct (v2_getHeight_widens simplex2 s (x + off_x offset)
                    (z + off_z offset)) as [Hw1 Hw2].
        assert (Hframe :
          config (Variant2.getHeight simplex2 s (x + off_x offset)
                    (z + off_z offset)).2 = config s
          /\ chunks (Variant2.getHeight simplex2 s (x + off_x offset)
                       (z + off_z offset)).2 = chunks s
          /\ noise (Variant2.getHeight simplex2 s (x + off_x offset)
                      (z + off_z offset)).2 = noise s)
          by now rewrite v2_getHeight_unfold.
        destruct Hframe as (Hc' & Hch' & Hn').
        split; [|split; [|split]].
        - intros Hcond. destruct (Hfin Hcond) as (mn & mx & Emn & Emx).
          destruct Hcond as (Hb & (p & Hp) & _).
          apply (v2_getHeight_unit_or_NaN s _ _ p mn mx); try done.
          now rewrite Hc.
        - split; [congruence|]. split; congruence.
        - split; eapply not_above_trans; eauto.
        - intros Hcond. destruct (Hfin Hcond) as (mn & mx & Emn & Emx).
          destruct Hcond as (Hb & (p & Hp) & _).
          apply (v2_getHeight_unit_or_NaN s _ _ p mn mx); try done.
          now rewrite Hc. }
      assert (Hrow : forall z s, K s ->
        (length (row z s).1 = Z.to_nat g
         /\ (cond -> Forall unit_or_NaN (row z s).1))
        /\ K (row z s).2).
      { intros z s Hs. unfold row.
        destruct (mapS_inv K (fun h => cond -> unit_or_NaN h) (get z)
                    (seqZ 0 g) (Hget z) s Hs) as [Hall Hk].
        split; [|exact Hk]. split.
        - now rewrite mapS_length, length_seqZ.
        - intros Hcond. eapply Forall_impl; [exact Hall|]. auto. }
      destruct (mapS_inv K
                  (fun r => length r = Z.to_nat g
                            /\ (cond -> Forall unit_or_NaN r))
                  row (seqZ 0 g) Hrow t) as [Hall Hk].
      { split; [done|]. split; [split; apply not_above_refl|].
        intros (_ & _ & (mn & Emn) & (mx & Emx)). eauto. }
      pose proof (mapS_length row (seqZ 0 g) t) as Hlen.
      rewrite length_seqZ in Hlen.
      match goal with |- context [mapS ?r ?l t] =>
        change (mapS r l t) with (mapS row (seqZ 0 g) t) end.
      destruct (mapS row (seqZ 0 g) t) as [grid t'].
      cbn [fst snd] in *.
      destruct Hk as ((Hc & Hch & Hn) & (Hmn & Hmx) & _).
      exists grid, t'. split; [reflexivity|].
      split.
      { split; [exact Hlen|]. eapply Forall_impl; [exact Hall|].
        now intros r [Hr _]. }
      do 5 (split; [done|]).
      intros Hb p mn mx Hp Emn Emx.
      eapply Forall_impl; [exact Hall|]. intros r [_ Hr]. apply Hr.
      unfold cond. eauto 10.
Qed.

End Grid2.

Lemma v2_createGrid_outcome_witness :
  Variant2.createGrid ramp 4 0 origin
    (Variant1.Terrain_new zero_resolution_config 7) = Throw RangeError
  /\ exists grid t',
      Variant2.createGrid ramp 6 2 origin (Variant1.Terrain_new small_config 7)
      = Ok (grid, t')
      /\ Forall (Forall unit_or_NaN) grid.
Proof.
  split.
  - apply (proj1 (v2_createGrid_outcome ramp 4 0 origin
                    (Variant1.Terrain_new zero_resolution_config 7))).
    left. split; reflexivity.
  - destruct (proj2 (v2_createGrid_outcome ramp 6 2 origin
                       (Variant1.Terrain_new small_config 7)))
      as (grid & t' & E & _ & _ & _ & _ & _ & _ & Hu).
    + intros [[H _]|[_ H]]; [discriminate H|].
      vm_compute in H. discriminate H.
    + exists grid, t'. split; [exact E|].
      apply (Hu ramp_bounded (1 # 2) (inject_Z 9007199254740991)
               (inject_Z (-9007199254740991)));
        reflexivity.
Defined.

(** ** The vertices of a mesh *)

(** Rows of [G] consecutive indices, laid end to end. *)
Lemma flat_map_rows {X} (h : Z -> X) (G : Z) :
  (0 <= G)%Z ->
  forall (m : nat) (k : Z),
    flat_map (fun z => List.map (fun x => h (z * G + x)%Z) (seqZ 0 G))
      (seqZ k (Z.of_nat m))
    = List.map h (seqZ (k * G) (Z.of_nat m * G)).
Proof.
  intros HG. induction m as [|m IH]; intros k.
  - now rewrite Z.mul_0_l.
  - replace (Z.of_nat (Datatypes.S m)) with (1 + Z.of_nat m)%Z by lia.
    rewrite (seqZ_app k 1 (Z.of_nat m)) by lia.
    change (seqZ k 1) with [k]. cbn [app flat_map].
    replace ((1 + Z.of_nat m) * G)%Z with (G + Z.of_nat m * G)%Z by lia.
    rewrite (seqZ_app (k * G) G) by nia. rewrite List.map_app. f_equal.
    + replace (seqZ (k * G) G) with (List.map (Z.add (k * G)) (seqZ 0 G))
        by (rewrite <- (Z.add_0_r (k * G)) at 2; apply fmap_add_seqZ).
      now rewrite List.map_map.
    + rewrite IH. do 2 f_equal. lia.
Qed.

(** A loop nest that appends one vertex for every pair of indices. *)
Lemma mesh_loops {X} (vertex : Z -> Z -> X) (rows columns : Z) (mesh : list X) :
  forM (seqZ 0 rows)
    (fun z => for_lt (ofZ columns) (fun x mesh => Ok (mesh ++ [vertex z x])))
    mesh
  = Ok (mesh ++ flat_map (fun z => List.map (vertex z) (seqZ 0 (Z.max 0 columns)))
                  (seqZ 0 rows)).
Proof.
  assert (Hrow : forall z (m : list X),
    for_lt (ofZ columns) (fun x mesh => Ok (mesh ++ [vertex z x])) m
    = Ok (m ++ List.map (vertex z) (seqZ 0 (Z.max 0 columns)))).
  { intros z m. rewrite for_lt_ofZ.
    destruct (forM_trace (fun _ => True) (fun s : list X => s)
                (fun x => [vertex z x])
                (fun x mesh => Ok (mesh ++ [vertex z x])))
      with (l := seqZ 0 (Z.max 0 columns)) (s := m) as (s' & -> & _ & ->);
      [intros i s _; eauto | done |].
    now rewrite flat_map_singleton. }
  destruct (forM_trace (fun _ => True) (fun s : list X => s)
              (fun z => List.map (vertex z) (seqZ 0 (Z.max 0 columns)))
              (fun z => for_lt (ofZ columns)
                          (fun x mesh => Ok (mesh ++ [vertex z x]))))
    with (l := seqZ 0 rows) (s := mesh) as (s' & E & _ & ->);
    [intros i s _; rewrite Hrow; eauto | done | exact E].
Qed.

Lemma mesh_vertices {X} (vertex : Z -> Z -> X) (cell : Z -> X)
    (rows columns : Z) :
  (forall z x, (0 <= z)%Z -> (0 <= x < columns)%Z ->
               vertex z x = cell (z * columns + x)%Z) ->
  for_lt (ofZ rows)
    (fun z => for_lt (ofZ columns) (fun x mesh => Ok (mesh ++ [vertex z x])))
    []
  = Ok (List.map cell (seqZ 0 (Z.max 0 rows * Z.max 0 columns))).
Proof.
  intros Hv. rewrite for_lt_ofZ, mesh_loops. cbn [app]. f_equal.
  pose proof (flat_map_rows cell (Z.max 0 columns) ltac:(lia)
                (Z.to_nat (Z.max 0 rows)) 0) as E.
  rewrite Z.mul_0_l, Z2Nat.id in E by lia. rewrite <- E.
  assert (Hrows : forall l : list Z, Forall (fun z => 0 <= z)%Z l ->
    flat_map (fun z => List.map (vertex z) (seqZ 0 (Z.max 0 columns))) l
    = flat_map (fun z => List.map (fun x => cell (z * Z.max 0 columns + x)%Z)
                           (seqZ 0 (Z.max 0 columns))) l).
  { induction 1 as [|z l Hz _ IH]; cbn [flat_map]; [done|].
    rewrite IH. f_equal. apply map_ext_in. intros x Hx.
    apply list_elem_of_In, elem_of_seqZ in Hx.
    rewrite Hv by lia. f_equal. lia. }
  apply Hrows, List.Forall_forall. intros z Hz.
  apply list_elem_of_In, elem_of_seqZ in Hz. lia.
Qed.

(** X10: the vertices [#createMesh] of the first version writes, for a
    resolution other than 0 and with [G = floor(size / resolution)]: one
    vertex for each index [k] from 0 to [G * G - 1], in this order, whose
    elevation and colour are those of the cell [grid[k div G][k mod G]]. *)
Theorem v1_mesh_vertices (cs res : Z) (hm : number) (grid : list (list number)) :
  res <> 0%Z ->
  let G := Z.max 0 (cs / res) in
  Variant1.createMesh cs res hm grid
  = Ok (List.map (fun k =>
          let height := array_get2 grid (k / G) (k mod G) in
          (ofZ k, Variant1.elevation_of height hm, Variant1.color_of height))
        (seqZ 0 (G * G))).
Proof.
  intros Hres G. unfold Variant1.createMesh. rewrite floor_div_ofZ by done.
  cbv zeta.
  rewrite (mesh_vertices
    (fun z x => ((ofZ z * ofZ (cs / res) + ofZ x)%num,
                 Variant1.elevation_of (array_get2 grid z x) hm,
                 Variant1.color_of (array_get2 grid z x)))
    (fun k => (ofZ k,
               Variant1.elevation_of (array_get2 grid (k / G) (k mod G)) hm,
               Variant1.color_of (array_get2 grid (k / G) (k mod G))))); [done|].
  intros z x Hz Hx. rewrite nmul_ofZ, nadd_ofZ.
  assert (EG : G = (cs / res)%Z) by (unfold G; lia).
  rewrite EG.
  replace ((z * (cs / res) + x) / (cs / res))%Z with z
    by (symmetry; rewrite Z.add_comm, Z.div_add by lia;
        rewrite Z.div_small by lia; lia).
  replace ((z * (cs / res) + x) mod (cs / res))%Z with x
    by (symmetry; rewrite Z.add_comm, Z.mod_add by lia;
        apply Z.mod_small; lia).
  done.
Qed.

(** The same for [#createMesh] of [MapGenerator], over [rows] rows of
    [columns] cells. *)
Lemma v3_mesh_vertices (w h : Z) (hl : number) (map : list (list number)) :
  let W := Z.max 0 w in
  let H := Z.max 0 h in
  Variant3.createMesh (ofZ w) (ofZ h) hl map
  = Ok (List.map (fun k =>
          let height := array_get2 map (k / W) (k mod W) in
          (ofZ k, Variant3.elevation_of height hl, Variant3.color_of height))
        (seqZ 0 (H * W))).
Proof.
  intros W H. unfold Variant3.createMesh. cbv zeta.
  rewrite (mesh_vertices
    (fun y x => ((ofZ y * ofZ w + ofZ x)%num,
                 Variant3.elevation_of (array_get2 map y x) hl,
                 Variant3.color_of (array_get2 map y x)))
    (fun k => (ofZ k,
               Variant3.elevation_of (array_get2 map (k / W) (k mod W)) hl,
               Variant3.color_of (array_get2 map (k / W) (k mod W))))); [done|].
  intros y x Hy Hx. rewrite nmul_ofZ, nadd_ofZ.
  assert (EW : W = w) by (unfold W; lia).
  rewrite EW.
  replace ((y * w + x) / w)%Z with y
    by (symmetry; rewrite Z.add_comm, Z.div_add by lia;
        rewrite Z.div_small by lia; lia).
  replace ((y * w + x) mod w)%Z with x
    by (symmetry; rewrite Z.add_comm, Z.mod_add by lia;
        apply Z.mod_small; lia).
  done.
Qed.

Lemma v1_mesh_vertices_witness :
  Variant1.createMesh 4 2 (Fin 10) [[Fin (1 # 5); Fin (3 # 5)]; [Fin 1; NaN]]
  = Ok [(Fin 0, Fin (49 # 10), water); (Fin 1, Fin 6, grass);
        (Fin 2, Fin 10, snow); (Fin 3, NaN, snow)].
Proof.
  rewrite (v1_mesh_vertices 4 2 (Fin 10)
             [[Fin (1 # 5); Fin (3 # 5)]; [Fin 1; NaN]]) by discriminate.
  reflexivity.
Defined.

(** ** The map of a [MapGenerator] *)

Section Map3More.

Import Variant3.

Variable perlin_get : number -> number -> number.

Lemma observe_finite (e : number * number) (v : number) :
  (exists r, v = Fin r) ->
  (exists mn, e.1 = Fin mn) /\ (exists mx, e.2 = Fin mx) ->
  (exists mn, (observe e v).1 = Fin mn) /\ (exists mx, (observe e v).2 = Fin mx).
Proof.
  intros (r & ->) [(mn & Hmn) (mx & Hmx)]. unfold observe. cbn [fst snd].
  split.
  - destruct (Fin r <? e.1)%num; eauto.
  - destruct (e.2 <? Fin r)%num; eauto.
Qed.

Lemma fold_observe_finite (l : list number) (e : number * number) :
  Forall (fun v => exists r, v = Fin r) l ->
  (exists mn, e.1 = Fin mn) /\ (exists mx, e.2 = Fin mx) ->
  (exists mn, (fold_left observe l e).1 = Fin mn)
  /\ (exists mx, (fold_left observe l e).2 = Fin mx).
Proof.
  intros Hl. revert e. induction Hl as [|v l Hv _ IH]; intros e He;
    cbn [fold_left]; [done|].
  apply IH. now apply observe_finite.
Qed.

Lemma map_extremes_finite (c : MapConfig) (o : Offset) (w h : Z)
    (e : number * number) :
  (forall x y, exists r, rawHeight perlin_get c o x y = Fin r) ->
  (exists mn, e.1 = Fin mn) /\ (exists mx, e.2 = Fin mx) ->
  (exists mn, (map_extremes perlin_get c o w h e).1 = Fin mn)
  /\ (exists mx, (map_extremes perlin_get c o w h e).2 = Fin mx).
Proof.
  intros Hraw. unfold map_extremes. revert e.
  induction (seqZ 0 h) as [|y ys IH]; intros e He; cbn [fold_left]; [done|].
  apply IH. apply fold_observe_finite; [|done].
  apply List.Forall_forall. intros v Hin.
  apply in_map_iff in Hin as (x & <- & _). apply Hraw.
Qed.

Lemma MapGenerator_new_params (c : MapConfig) (o : Offset) (m : MapGenerator) :
  MapGenerator_new perlin_get c o = Ok m -> params m = c /\ offset m = o.
Proof.
  unfold MapGenerator_new. cbv zeta.
  destruct (createMap _ _ _ _ _ _ _) as [[[mp mn] mx]| |]; cbn [bind];
    try discriminate.
  destruct (createMesh _ _ _ _); cbn [bind]; try discriminate.
  intros E. injection E as <-. done.
Qed.

Lemma MapGenerator_new_hangs (c : MapConfig) (o : Offset) :
  cellSize c = 0%Z -> (0 < height c)%Z ->
  MapGenerator_new perlin_get c o = Hang.
Proof.
  intros Hcs Hh. unfold MapGenerator_new. rewrite Hcs, !floor_div_ofZ_0.
  apply Z.compare_gt_iff in Hh. rewrite Hh. cbn [inf_signed].
  unfold createMap, createFalloffMap, createIslandShapeGrid, for_lt.
  cbn [iterations]. now destruct (falloff c).
Qed.

(** X11: the map of a [MapGenerator] with a cell size other than 0 and
    numbers of rows and columns that are not negative, for finite samples
    and a finite persistence.  At every cell the extremes are
    finite and bracket the raw height of the cell, and the stored height is
    a number of [[0, 1]] or [NaN]; it is [NaN] exactly when the two extremes
    are equal, or when [falloff] is set and the column of the cell is not
    below the number of rows, where the square falloff grid has no value. *)
Theorem map_heights_unit_or_NaN (c : MapConfig) (o : Offset) (p : Q) :
  bounded_perlin perlin_get ->
  persistance c = Fin p ->
  cellSize c <> 0%Z ->
  let w := (width c / cellSize c)%Z in
  let h := (height c / cellSize c)%Z in
  (0 <= w)%Z -> (0 <= h)%Z ->
  exists m,
    MapGenerator_new perlin_get c o = Ok m
    /\ forall y x,
        (0 <= y < h)%Z -> (0 <= x < w)%Z ->
        exists mn mx r,
          minHeight m = Fin mn /\ maxHeight m = Fin mx
          /\ rawHeight perlin_get c o x y = Fin r
          /\ mn <= r <= mx
          /\ unit_or_NaN (array_get2 (map m) y x)
          /\ (array_get2 (map m) y x = NaN
              <-> mn == mx \/ (falloff c = true /\ (h <= x)%Z)).
Proof.
  intros Hb Hp Hcs w h Hw Hh.
  destruct (MapGenerator_new_cells perlin_get c o Hcs Hw Hh)
    as (m & E & Hmap & Hmn & Hmx & _).
  fold w h in Hmap, Hmn, Hmx.
  exists m. split; [exact E|]. intros y x Hy Hx.
  assert (Hraw : forall x y, exists r, rawHeight perlin_get c o x y = Fin r).
  { intros x' y'. apply (v3_rawHeight_finite perlin_get c o x' y' p Hb Hp). }
  destruct (map_extremes_finite c o w h
              (Number_MAX_SAFE_INTEGER, Number_MIN_SAFE_INTEGER) Hraw)
    as [(mn & Emn) (mx & Emx)]; [split; eexists; reflexivity|].
  destruct (Hraw x y) as (r & Er).
  destruct (map_extremes_bounds perlin_get c o w h
              (Number_MAX_SAFE_INTEGER, Number_MIN_SAFE_INTEGER) y x Hy Hx)
    as [Hhi Hlo].
  rewrite Emx, Er in Hhi. rewrite Emn, Er in Hlo.
  apply nlt_Fin_false in Hhi, Hlo.
  exists mn, mx, r.
  split; [congruence|]. split; [congruence|]. split; [exact Er|].
  split; [done|].
  rewrite Hmap, normalised_map_cell, Emn, Emx by done.
  unfold stored_cell. rewrite Er.
  assert (Hfin : forall v,
    unit_or_NaN (inverseLerp (Fin mn) (Fin mx) (Fin v))
    /\ (inverseLerp (Fin mn) (Fin mx) (Fin v) = NaN <-> mn == mx)).
  { intros v.
    destruct (inverseLerp_unit_or_NaN mn mx v) as [[Heq ->]|[Hne (r' & -> & Hr')]].
    - split; [now left|]. done.
    - split; [right; eauto|]. split; [done | intros Heq; now destruct Hne]. }
  destruct (falloff c) eqn:Ef.
  - destruct (Z.lt_ge_cases x h) as [Hlt|Hge].
    + unfold falloff_mask. rewrite mask_cell by lia.
      destruct (chebyshev_Fin h y x) as (d & -> & _ & Hd); [lia..|].
      rewrite evaluate_Fin, nsub_Fin by done.
      destruct (Hfin (Qred (r - Qred (falloff_curve d)))) as [Hu Hn].
      split; [exact Hu|]. rewrite Hn. split; [now left|].
      intros [Heq|[_ Hx']]; [done | lia].
    + assert (Emask : array_get2 (falloff_mask h) y x = NaN).
      { unfold array_get2, falloff_mask.
        rewrite list_lookup_fmap, (lookup_seqZ_lt 0 h (Z.to_nat y)) by lia.
        cbn [fmap option_fmap option_map].
        now rewrite list_lookup_fmap, (lookup_seqZ_ge 0 h (Z.to_nat x)) by lia. }
      rewrite Emask. change (inverseLerp (Fin mn) (Fin mx) (Fin r - NaN)) with NaN.
      split; [now left|]. split; [|done]. intros _. right. split; [done | lia].
  - destruct (Hfin r) as [Hu Hn]. split; [exact Hu|]. rewrite Hn.
    split; [now left|]. intros [Heq|[Hf _]]; [done | discriminate].
Qed.

(** X12: what [new MapGenerator] does.  With a cell size of 0 the numbers
    of rows and columns are not finite: with a positive height the loops of
    [#createMap] do not end; with a height of 0 the number of rows is [NaN],
    no row is visited, and the map and the mesh are empty, the extremes
    still the sentinels.  With any other cell size, and numbers of rows and
    columns that are not negative, it returns a map of
    [floor(height / cellSize)] rows of [floor(width / cellSize)] cells and a
    mesh with one vertex for each cell, row after row, whose elevation and
    colour are those of the cell. *)
Theorem MapGenerator_new_outcome (c : MapConfig) (o : Offset) :
  (cellSize c = 0%Z -> (0 < height c)%Z ->
   MapGenerator_new perlin_get c o = Hang)
  /\ (cellSize c = 0%Z -> height c = 0%Z ->
      exists m,
        MapGenerator_new perlin_get c o = Ok m
        /\ map m = [] /\ mesh m = []
        /\ minHeight m = Number_MAX_SAFE_INTEGER
        /\ maxHeight m = Number_MIN_SAFE_INTEGER)
  /\ (cellSize c <> 0%Z ->
      let W := (width c / cellSize c)%Z in
      let H := (height c / cellSize c)%Z in
      (0 <= W)%Z -> (0 <= H)%Z ->
      exists m,
        MapGenerator_new perlin_get c o = Ok m
        /\ params m = c /\ offset m = o
        /\ length (map m) = Z.to_nat H
        /\ Forall (fun row => length row = Z.to_nat W) (map m)
        /\ mesh m
           = List.map (fun k =>
               let height := array_get2 (map m) (k / W) (k mod W) in
               (ofZ k, elevation_of height (heightLimit c), color_of height))
             (seqZ 0 (H * W))).
Proof.
  split; [|split].
  - apply MapGenerator_new_hangs.
  - intros Hcs Hh. unfold MapGenerator_new. rewrite Hcs, Hh, !floor_div_ofZ_0.
    cbn [Z.compare inf_signed].
    unfold createMap, createMesh, createFalloffMap, createIslandShapeGrid, for_lt.
    cbn [iterations].
    destruct (falloff c); cbn; eexists; (split; [reflexivity|]); done.
  - intros Hcs W H HW HH. unfold MapGenerator_new.
    rewrite !floor_div_ofZ by done. rewrite createMap_cells. cbv zeta.
    cbn [bind]. set (nm := normalised_map _ _ _ _ _ _ _).
    pose proof (v3_mesh_vertices (width c / cellSize c) (height c / cellSize c)
                  (heightLimit c) nm) as Emesh.
    cbv zeta in Emesh. rewrite !Z.max_r in Emesh by done.
    rewrite Emesh. cbn [bind].
    eexists. split; [reflexivity|]. cbn [params offset map mesh].
    split; [done|]. split; [done|].
    split; [|split; [|reflexivity]].
    + subst nm. unfold normalised_map. rewrite length_map, length_seqZ.
      unfold H. lia.
    + subst nm. unfold normalised_map. apply List.Forall_forall.
      intros row Hin. apply in_map_iff in Hin as (y & <- & _).
      rewrite length_map, length_seqZ. unfold W. lia.
Qed.

End Map3More.

Lemma map_heights_unit_or_NaN_witness :
  exists m,
    Variant3.MapGenerator_new (ramp 0) wide_map map_origin = Ok m
    /\ array_get2 (Variant3.map m) 1 2 = NaN
    /\ unit_or_NaN (array_get2 (Variant3.map m) 1 1).
Proof.
  destruct (map_heights_unit_or_NaN (ramp 0) wide_map map_origin (1 # 2))
    as (m & E & Hcells).
  - exact (ramp_bounded 0%Z).
  - reflexivity.
  - discriminate.
  - discriminate.
  - discriminate.
  - exists m. split; [exact E|]. split.
    + destruct (Hcells 1%Z 2%Z) as (mn & mx & r & _ & _ & _ & _ & _ & Hnan);
        [split; [discriminate|reflexivity]..|].
      apply Hnan. right. split; [reflexivity | discriminate].
    + destruct (Hcells 1%Z 1%Z) as (mn & mx & r & _ & _ & _ & _ & Hu & _);
        [split; [discriminate|reflexivity]..|].
      exact Hu.
Defined.

Lemma MapGenerator_new_outcome_witness :
  Variant3.MapGenerator_new (ramp 0) zero_cell_map map_origin = Hang
  /\ exists m,
      Variant3.MapGenerator_new (ramp 0) wide_map map_origin = Ok m
      /\ length (Variant3.map m) = 2%nat.
Proof.
  split.
  - apply (proj1 (MapGenerator_new_outcome (ramp 0) zero_cell_map map_origin));
      reflexivity.
  - destruct (proj2 (proj2 (MapGenerator_new_outcome (ramp 0) wide_map
                              map_origin)))
      as (m & E & _ & _ & Hlen & _); [discriminate..|].
    exists m. split; [exact E | exact Hlen].
Defined.

(** ** The extremes of a map are heights of the map *)

Lemma inverseLerp_ends (mn mx : Q) :
  mn < mx ->
  inverseLerp (Fin mn) (Fin mx) (Fin mn) = Fin 0
  /\ inverseLerp (Fin mn) (Fin mx) (Fin mx) = Fin 1.
Proof.
  intros Hm. rewrite !inverseLerp_Fin by done. split.
  - change (Fin 0) with (Fin (Qred 0)). f_equal. apply Qred_complete.
    rewrite (Qclamp_below mn mx mn) by lra.
    assert (E : mn - mn == 0) by ring. rewrite E.
    unfold Qdiv. apply Qmult_0_l.
  - change (Fin 1) with (Fin (Qred 1)). f_equal. apply Qred_complete.
    rewrite (Qclamp_inside mn mx mx) by lra. field. lra.
Qed.

Lemma fold_observe_attains (l : list number) (e : number * number) :
  let e' := fold_left Variant3.observe l e in
  (e'.1 = e.1 \/ In e'.1 l) /\ (e'.2 = e.2 \/ In e'.2 l).
Proof.
  cbv zeta. revert e. induction l as [|v l IH]; intros e; cbn [fold_left].
  - split; now left.
  - destruct (IH (Variant3.observe e v)) as [H1 H2]. split.
    + destruct H1 as [H1|H1]; [|right; now right].
      rewrite H1. unfold Variant3.observe. cbn [fst].
      destruct (v <? e.1)%num; [right; now left | now left].
    + destruct H2 as [H2|H2]; [|right; now right].
      rewrite H2. unfold Variant3.observe. cbn [snd].
      destruct (e.2 <? v)%num; [right; now left | now left].
Qed.

Lemma fold_rows_attains (row : Z -> list number) (ys : list Z)
    (e : number * number) :
  let e' := fold_left (fun e y => fold_left Variant3.observe (row y) e) ys e in
  (e'.1 = e.1 \/ exists y, In y ys /\ In e'.1 (row y))
  /\ (e'.2 = e.2 \/ exists y, In y ys /\ In e'.2 (row y)).
Proof.
  cbv zeta. revert e. induction ys as [|y ys IH]; intros e; cbn [fold_left].
  - split; now left.
  - destruct (IH (fold_left Variant3.observe (row y) e)) as [H1 H2].
    destruct (fold_observe_attains (row y) e) as [G1 G2]. split.
    + destruct H1 as [H1|(y' & Hy' & H1)].
      * rewrite H1. destruct G1 as [G1|G1]; [now left|].
        right. exists y. split; [now left | exact G1].
      * right. exists y'. split; [now right | exact H1].
    + destruct H2 as [H2|(y' & Hy' & H2)].
      * rewrite H2. destruct G2 as [G2|G2]; [now left|].
        right. exists y. split; [now left | exact G2].
      * right. exists y'. split; [now right | exact H2].
Qed.

Section Range3.

Import Variant3.

Variable perlin_get : number -> number -> number.

Lemma map_extremes_attains (c : MapConfig) (o : Offset) (w h : Z)
    (e : number * number) :
  let e' := map_extremes perlin_get c o w h e in
  (e'.1 = e.1
   \/ exists y x, (0 <= y < h)%Z /\ (0 <= x < w)%Z
                  /\ e'.1 = rawHeight perlin_get c o x y)
  /\ (e'.2 = e.2
      \/ exists y x, (0 <= y < h)%Z /\ (0 <= x < w)%Z
                     /\ e'.2 = rawHeight perlin_get c o x y).
Proof.
  cbv zeta. unfold map_extremes.
  destruct (fold_rows_attains
              (fun y => List.map (fun x => rawHeight perlin_get c o x y)
                          (seqZ 0 w))
              (seqZ 0 h) e) as [H1 H2].
  split.
  - destruct H1 as [H1|(y & Hy & H1)]; [now left|]. right.
    apply in_map_iff in H1 as (x & E & Hx).
    apply list_elem_of_In, elem_of_seqZ in Hy, Hx.
    exists y, x. split; [lia|]. split; [lia|]. now symmetry.
  - destruct H2 as [H2|(y & Hy & H2)]; [now left|]. right.
    apply in_map_iff in H2 as (x & E & Hx).
    apply list_elem_of_In, elem_of_seqZ in Hy, Hx.
    exists y, x. split; [lia|]. split; [lia|]. now symmetry.
Qed.

(** X13: a [MapGenerator] uses the whole range.  For samples in [[-1, 1]], a
    persistence in [[0, 1]], fewer octaves than the sentinels are large, a
    cell size other than 0 and at least one cell, the extremes the
    constructor ends with are the raw heights of two cells of the map; when
    they differ and [falloff] is off, the first of these cells stores 0 and
    the second stores 1. *)
Theorem map_uses_full_range (c : MapConfig) (o : Offset) (p : Q) :
  bounded_perlin perlin_get ->
  persistance c = Fin p -> 0 <= p <= 1 ->
  (octaves c < 9007199254740991)%Z ->
  cellSize c <> 0%Z ->
  let w := (width c / cellSize c)%Z in
  let h := (height c / cellSize c)%Z in
  (0 < w)%Z -> (0 < h)%Z ->
  exists m,
    MapGenerator_new perlin_get c o = Ok m
    /\ (exists y x, (0 <= y < h)%Z /\ (0 <= x < w)%Z
                    /\ minHeight m = rawHeight perlin_get c o x y
                    /\ (falloff c = false -> (minHeight m <? maxHeight m)%num = true ->
                        array_get2 (map m) y x = Fin 0))
    /\ (exists y x, (0 <= y < h)%Z /\ (0 <= x < w)%Z
                    /\ maxHeight m = rawHeight perlin_get c o x y
                    /\ (falloff c = false -> (minHeight m <? maxHeight m)%num = true ->
                        array_get2 (map m) y x = Fin 1)).
Proof.
  intros Hb Hp Hp01 Ho Hcs w h Hw Hh.
  destruct (MapGenerator_new_cells perlin_get c o Hcs)
    as (m & E & Hmap & Hmn & Hmx & _);
    [apply Z.lt_le_incl; exact Hw | apply Z.lt_le_incl; exact Hh |].
  fold w h in Hmap, Hmn, Hmx.
  set (e := map_extremes perlin_get c o w h
              (Number_MAX_SAFE_INTEGER, Number_MIN_SAFE_INTEGER)) in *.
  exists m. split; [exact E|].
  assert (Hraw : forall x y, exists r,
            rawHeight perlin_get c o x y = Fin r
            /\ 0 <= r < 9007199254740991 # 1).
  { intros x y.
    destruct (v3_rawHeight_bounded perlin_get c o x y p Hb Hp Hp01)
      as (r & Er & Hr).
    exists r. split; [exact Er|]. split; [lra|].
    apply Qle_lt_trans with (inject_Z (Z.max 0 (octaves c))); [lra|].
    change (9007199254740991 # 1) with (inject_Z 9007199254740991).
    rewrite <- Zlt_Qlt. lia. }
  destruct (map_extremes_bounds perlin_get c o w h
              (Number_MAX_SAFE_INTEGER, Number_MIN_SAFE_INTEGER) 0 0)
    as [Hhi Hlo]; [lia | lia |].
  fold e in Hhi, Hlo.
  destruct (Hraw 0%Z 0%Z) as (r0 & Er0 & Hr0). rewrite Er0 in Hhi, Hlo.
  destruct (map_extremes_attains c o w h
              (Number_MAX_SAFE_INTEGER, Number_MIN_SAFE_INTEGER))
    as [Hmin Hmax].
  fold e in Hmin, Hmax. cbn [fst snd] in Hmin, Hmax.
  assert (Hcell : forall y x, (0 <= y < h)%Z -> (0 <= x < w)%Z ->
            falloff c = false ->
            array_get2 (map m) y x
            = inverseLerp e.1 e.2 (rawHeight perlin_get c o x y)).
  { intros y x Hy Hx Hf. rewrite Hmap, normalised_map_cell by done.
    unfold stored_cell. now rewrite Hf. }
  assert (Hmin' : exists y x, (0 <= y < h)%Z /\ (0 <= x < w)%Z
                     /\ e.1 = rawHeight perlin_get c o x y).
  { destruct Hmin as [Hmin|Hmin]; [|exact Hmin].
    exfalso. rewrite Hmin in Hlo. apply nlt_Fin_false in Hlo.
    change (inject_Z 9007199254740991) with (9007199254740991 # 1) in Hlo.
    lra. }
  assert (Hmax' : exists y x, (0 <= y < h)%Z /\ (0 <= x < w)%Z
                     /\ e.2 = rawHeight perlin_get c o x y).
  { destruct Hmax as [Hmax|Hmax]; [|exact Hmax].
    exfalso. rewrite Hmax in Hhi. apply nlt_Fin_false in Hhi.
    change (inject_Z (-9007199254740991)) with (-9007199254740991 # 1) in Hhi.
    lra. }
  destruct Hmin' as (y1 & x1 & Hy1 & Hx1 & Emin).
  destruct Hmax' as (y2 & x2 & Hy2 & Hx2 & Emax).
  destruct (Hraw x1 y1) as (r1 & Er1 & _).
  destruct (Hraw x2 y2) as (r2 & Er2 & _).
  split.
  - exists y1, x1. split; [done|]. split; [done|].
    split; [now rewrite Hmn|].
    intros Hf Hlt. rewrite Hcell by done.
    rewrite Hmn, Hmx, Emin, Emax, Er1, Er2 in Hlt. apply nlt_Fin in Hlt.
    rewrite Emin, Emax, Er1, Er2.
    apply (proj1 (inverseLerp_ends r1 r2 Hlt)).
  - exists y2, x2. split; [done|]. split; [done|].
    split; [now rewrite Hmx|].
    intros Hf Hlt. rewrite Hcell by done.
    rewrite Hmn, Hmx, Emin, Emax, Er1, Er2 in Hlt. apply nlt_Fin in Hlt.
    rewrite Emin, Emax, Er1, Er2.
    apply (proj2 (inverseLerp_ends r1 r2 Hlt)).
Qed.

End Range3.

Lemma map_uses_full_range_witness :
  exists m y x,
    Variant3.MapGenerator_new (ramp 0) (small_map false) map_origin = Ok m
    /\ Variant3.minHeight m
       = Variant3.rawHeight (ramp 0) (small_map false) map_origin x y.
Proof.
  destruct (map_uses_full_range (ramp 0) (small_map false) map_origin (1 # 2))
    as (m & E & (y & x & _ & _ & Hmin & _) & _).
  - exact (ramp_bounded 0%Z).
  - reflexivity.
  - split; discriminate.
  - reflexivity.
  - discriminate.
  - reflexivity.
  - reflexivity.
  - exists m, y, x. split; [exact E | exact Hmin].
Defined.

(** ** The matrix of chunks, third version *)

Lemma chunk_row_loop {X} (val : Z -> X) (i : nat)
    (body : Z -> list (list X) -> result (list (list X))) :
  (forall j chunks, body j chunks = Ok (alter (array_set j (val j)) i chunks)) ->
  forall (m : nat) (row : list X) (chunks : list (list X)),
    chunks !! i = Some row ->
    forM (seqZ (Z.of_nat (length row)) (Z.of_nat m)) body chunks
    = Ok (<[i := row ++ List.map val (seqZ (Z.of_nat (length row)) (Z.of_nat m))]>
            chunks).
Proof.
  intros Hbody. induction m as [|m IH]; intros row chunks Hrow.
  - rewrite seqZ_nil by lia. cbn. now rewrite app_nil_r, list_insert_id.
  - rewrite seqZ_succ. cbn [forM List.map]. rewrite Hbody. cbn [bind].
    rewrite (alter_at _ _ _ _ Hrow), array_set_end by done.
    specialize (IH (row ++ [val (Z.of_nat (length row))])
                  (<[i := row ++ [val (Z.of_nat (length row))]]> chunks)).
    rewrite length_app in IH. cbn [length] in IH.
    replace (Z.of_nat (length row + 1)) with (Z.of_nat (length row) + 1)%Z
      in IH by lia.
    rewrite IH.
    + now rewrite list_insert_insert_eq, <- app_assoc.
    + apply list_lookup_insert_eq. now apply lookup_lt_Some in Hrow.
Qed.

Lemma chunk_matrix_loop {X} (rowOf : Z -> list X)
    (body : Z -> list (list X) -> result (list (list X))) :
  (forall chunks, body (Z.of_nat (length chunks)) chunks
                  = Ok (chunks ++ [rowOf (Z.of_nat (length chunks))])) ->
  forall (m : nat) (acc : list (list X)),
    forM (seqZ (Z.of_nat (length acc)) (Z.of_nat m)) body acc
    = Ok (acc ++ List.map rowOf (seqZ (Z.of_nat (length acc)) (Z.of_nat m))).
Proof.
  intros Hbody. induction m as [|m IH]; intros acc.
  - rewrite seqZ_nil by lia. cbn. now rewrite app_nil_r.
  - rewrite seqZ_succ. cbn [forM List.map]. rewrite Hbody. cbn [bind].
    specialize (IH (acc ++ [rowOf (Z.of_nat (length acc))])).
    rewrite length_app in IH. cbn [length] in IH.
    replace (Z.of_nat (length acc + 1)) with (Z.of_nat (length acc) + 1)%Z
      in IH by lia.
    rewrite IH. now rewrite <- app_assoc.
Qed.

Section Chunks3.

Import Variant3.

Variable perlin_get : number -> number -> number.

(** X14: the matrix [createChunks] builds.  With a cell size other than 0
    and numbers of rows and columns that are not negative it returns [size] rows of [size] chunks; the chunk of row [i] and column
    [j] is the [MapGenerator] of the configuration at the offset
    [(j * width, i * height)], built on its own, and its hash is the text of
    the configuration.  With a cell size of 0, a positive height and at
    least one chunk to build, it does not return. *)
Theorem createChunks_layout (size : Z) (c : MapConfig) :
  (cellSize c <> 0%Z ->
   (0 <= width c / cellSize c)%Z -> (0 <= height c / cellSize c)%Z ->
   exists chunks,
     createChunks perlin_get size c = Ok chunks
     /\ length chunks = Z.to_nat size
     /\ Forall (fun row => length row = Z.to_nat size) chunks
     /\ forall i j,
         (0 <= i < size)%Z -> (0 <= j < size)%Z ->
         exists row m,
           chunks !! Z.to_nat i = Some row /\ row !! Z.to_nat j = Some m
           /\ MapGenerator_new perlin_get c
                {| off_x := j * width c; off_y := i * height c |} = Ok m
           /\ hash m = JSON_stringify c)
  /\ (cellSize c = 0%Z -> (0 < height c)%Z -> (1 <= size)%Z ->
      createChunks perlin_get size c = Hang).
Proof.
  split.
  - intros Hcs Hw Hh.
    pose (val := fun i j : Z =>
      match MapGenerator_new perlin_get c
              {| off_x := j * width c; off_y := i * height c |} with
      | Ok m => m
      | _ => {| params := c; offset := {| off_x := 0; off_y := 0 |};
                columns := NaN; rows := NaN; map := []; mesh := [];
                minHeight := NaN; maxHeight := NaN |}
      end).
    assert (Hval : forall i j,
      MapGenerator_new perlin_get c
        {| off_x := j * width c; off_y := i * height c |} = Ok (val i j)).
    { intros i j. unfold val.
      destruct (MapGenerator_new_cells perlin_get c
                  {| off_x := j * width c; off_y := i * height c |} Hcs Hw Hh)
        as (m & -> & _). done. }
    pose (rowOf := fun i => List.map (val i) (seqZ 0 (Z.max 0 size))).
    assert (E : createChunks perlin_get size c
                = Ok (List.map rowOf (seqZ 0 (Z.max 0 size)))).
    { unfold createChunks. rewrite for_lt_ofZ.
      match goal with |- forM _ ?b _ = _ => set (body := b) end.
      assert (Hbody : forall chunks,
        body (Z.of_nat (length chunks)) chunks
        = Ok (chunks ++ [rowOf (Z.of_nat (length chunks))])).
      { intros chunks. subst body. cbv beta zeta.
        rewrite array_set_end, for_lt_ofZ, Nat2Z.id by done.
        match goal with |- forM _ ?b _ = _ => set (inner := b) end.
        assert (Hinner : forall j chunks0,
          inner j chunks0
          = Ok (alter (array_set j (val (Z.of_nat (length chunks)) j))
                  (length chunks) chunks0)).
        { intros j chunks0. subst inner. cbv beta. now rewrite Hval. }
        pose proof (chunk_row_loop (val (Z.of_nat (length chunks)))
                      (length chunks) inner Hinner
                      (Z.to_nat (Z.max 0 size)) [] (chunks ++ [[]])) as Hrow.
        cbn [length app] in Hrow. change (Z.of_nat 0) with 0%Z in Hrow.
        rewrite Z2Nat.id in Hrow by lia.
        rewrite Hrow by now rewrite list_lookup_middle.
        rewrite insert_app_r_alt, Nat.sub_diag by lia. done. }
      pose proof (chunk_matrix_loop rowOf body Hbody
                    (Z.to_nat (Z.max 0 size)) []) as Hloop.
      cbn [length app] in Hloop. change (Z.of_nat 0) with 0%Z in Hloop.
      rewrite Z2Nat.id in Hloop by lia. exact Hloop. }
    exists (List.map rowOf (seqZ 0 (Z.max 0 size))).
    split; [exact E|].
    split; [rewrite length_map, length_seqZ; lia|].
    split.
    + apply List.Forall_forall. intros row Hin.
      apply in_map_iff in Hin as (i & <- & _). unfold rowOf.
      rewrite length_map, length_seqZ. lia.
    + intros i j Hi Hj. exists (rowOf i), (val i j).
      split.
      { change (List.map rowOf (seqZ 0 (Z.max 0 size)))
          with (rowOf <$> seqZ 0 (Z.max 0 size)).
        rewrite list_lookup_fmap, (lookup_seqZ_lt 0 _ (Z.to_nat i)) by lia.
        cbn. do 2 f_equal. lia. }
      split.
      { unfold rowOf.
        change (List.map (val i) (seqZ 0 (Z.max 0 size)))
          with (val i <$> seqZ 0 (Z.max 0 size)).
        rewrite list_lookup_fmap, (lookup_seqZ_lt 0 _ (Z.to_nat j)) by lia.
        cbn. do 2 f_equal. lia. }
      split; [apply Hval|].
      unfold hash. now destruct (MapGenerator_new_params perlin_get _ _ _ (Hval i j)) as [-> _].
  - intros Hcs Hh Hsize. unfold createChunks. rewrite !for_lt_ofZ.
    replace (Z.max 0 size) with (Z.of_nat (Datatypes.S (Z.to_nat (size - 1))))
      by lia.
    rewrite seqZ_succ. cbn [forM].
    rewrite for_lt_ofZ.
    replace (Z.max 0 size) with (Z.of_nat (Datatypes.S (Z.to_nat (size - 1))))
      by lia.
    rewrite seqZ_succ. cbn [forM].
    now rewrite MapGenerator_new_hangs.
Qed.

End Chunks3.

Lemma createChunks_layout_witness :
  Variant3.createChunks (ramp 0) 3 zero_cell_map = Hang
  /\ exists chunks,
      Variant3.createChunks (ramp 0) 3 wide_map = Ok chunks
      /\ length chunks = 3%nat.
Proof.
  split.
  - apply (proj2 (createChunks_layout (ramp 0) 3%Z zero_cell_map));
      [reflexivity | reflexivity | discriminate].
  - destruct (proj1 (createChunks_layout (ramp 0) 3%Z wide_map))
      as (chunks & E & Hlen & _); [discriminate..|].
    exists chunks. split; [exact E | exact Hlen].
Defined.

(** ** Elevations *)

Lemma floored_elevation (f h hm : Q) :
  ((if (Fin h <? Fin f)%num then Fin f else Fin h) * Fin hm)%num
  = Fin (Qred (Qmax f h * hm)).
Proof.
  destruct (Fin h <? Fin f)%num eqn:E.
  - apply nlt_Fin in E. cbn [nmul]. f_equal. apply Qred_complete.
    rewrite Q.max_l by lra. reflexivity.
  - apply nlt_Fin_false in E. cbn [nmul]. f_equal. apply Qred_complete.
    rewrite Q.max_r by lra. reflexivity.
Qed.

Lemma floored_elevation_order (f h1 h2 hm : Q) :
  0 <= hm -> h1 <= h2 ->
  f * hm <= Qred (Qmax f h1 * hm)
  /\ Qred (Qmax f h1 * hm) <= Qred (Qmax f h2 * hm).
Proof.
  intros Hhm Hh. rewrite !Qred_correct.
  assert (H1 : f <= Qmax f h1) by apply Q.le_max_l.
  assert (H2 : Qmax f h1 <= Qmax f h2) by (apply Q.max_le_compat_l; exact Hh).
  split; apply Qmult_le_compat_r; done.
Qed.

(** X15: the elevation of a vertex, for a height multiplier that is not
    negative, in each version: it is never below the water level (0.49,
    0.35 and 0.45 times the multiplier), it does not decrease when the
    height grows, and every vertex coloured as water lies exactly at the
    water level. *)
Theorem water_is_flat_and_lowest (hm : Q) :
  0 <= hm ->
  (forall h1 h2, h1 <= h2 ->
     exists e1 e2,
       Variant1.elevation_of (Fin h1) (Fin hm) = Fin e1
       /\ Variant1.elevation_of (Fin h2) (Fin hm) = Fin e2
       /\ (49 # 100) * hm <= e1 /\ e1 <= e2
       /\ (Variant1.color_of (Fin h1) = water -> e1 == (49 # 100) * hm))
  /\ (forall h1 h2, h1 <= h2 ->
        exists e1 e2,
          Variant2.elevation_of (Fin h1) (Fin hm) = Fin e1
          /\ Variant2.elevation_of (Fin h2) (Fin hm) = Fin e2
          /\ (35 # 100) * hm <= e1 /\ e1 <= e2
          /\ (Variant2.color_of (Fin h1) = water -> e1 == (35 # 100) * hm))
  /\ (forall h1 h2, h1 <= h2 ->
        exists e1 e2,
          Variant3.elevation_of (Fin h1) (Fin hm) = Fin e1
          /\ Variant3.elevation_of (Fin h2) (Fin hm) = Fin e2
          /\ (45 # 100) * hm <= e1 /\ e1 <= e2
          /\ (Variant3.color_of (Fin h1) = water -> e1 == (45 # 100) * hm)).
Proof.
  intros Hhm.
  assert (Hv3 : forall h, Variant3.elevation_of (Fin h) (Fin hm)
                          = Fin (Qred (Qmax (45 # 100) h * hm))).
  { intros h. rewrite <- floored_elevation. unfold Variant3.elevation_of.
    now destruct (Fin h <? Fin (45 # 100))%num. }
  split; [|split]; intros h1 h2 Hh.
  - unfold Variant1.elevation_of. rewrite !floored_elevation.
    destruct (floored_elevation_order (49 # 100) h1 h2 hm Hhm Hh) as [Hlo Hord].
    do 2 eexists. split; [reflexivity|]. split; [reflexivity|].
    split; [exact Hlo|]. split; [exact Hord|].
    unfold Variant1.color_of. destruct (Fin h1 <? Fin (45 # 100))%num eqn:E.
    + intros _. apply nlt_Fin in E. rewrite Qred_correct, Q.max_l by lra.
      reflexivity.
    + repeat match goal with |- context [if ?b then _ else _] => destruct b end;
        discriminate.
  - unfold Variant2.elevation_of. rewrite !floored_elevation.
    destruct (floored_elevation_order (35 # 100) h1 h2 hm Hhm Hh) as [Hlo Hord].
    do 2 eexists. split; [reflexivity|]. split; [reflexivity|].
    split; [exact Hlo|]. split; [exact Hord|].
    unfold Variant2.color_of. destruct (Fin h1 <? Fin (35 # 100))%num eqn:E.
    + intros _. apply nlt_Fin in E. rewrite Qred_correct, Q.max_l by lra.
      reflexivity.
    + repeat match goal with |- context [if ?b then _ else _] => destruct b end;
        discriminate.
  - rewrite !Hv3.
    destruct (floored_elevation_order (45 # 100) h1 h2 hm Hhm Hh) as [Hlo Hord].
    do 2 eexists. split; [reflexivity|]. split; [reflexivity|].
    split; [exact Hlo|]. split; [exact Hord|].
    unfold Variant3.color_of. destruct (Fin h1 <? Fin (45 # 100))%num eqn:E.
    + intros _. apply nlt_Fin in E. rewrite Qred_correct, Q.max_l by lra.
      reflexivity.
    + repeat match goal with |- context [if ?b then _ else _] => destruct b end;
        discriminate.
Qed.

(** ** The hash of a configuration *)

Lemma json_of_ofZ_inj (a b : Z) :
  json_of_number (ofZ a) = json_of_number (ofZ b) <-> a = b.
Proof.
  split; [|now intros ->]. unfold ofZ, json_of_number. intros E.
  injection E as E. apply Qred_eq_iff in E. now apply inject_Z_injective.
Qed.

Lemma json_of_number_eq (a b : number) :
  json_of_number a = json_of_number b <-> same_json_value a b.
Proof.
  destruct a as [p| | |], b as [q| | |]; cbn; try (split; [discriminate|done]);
    try (split; done).
  split.
  - intros E. injection E as E. now apply Qred_eq_iff.
  - intros E. f_equal. now apply Qred_complete.
Qed.

(** X16: the hash of a terrain equals the text of a configuration exactly
    when the two agree on the four whole-number fields and the two boxes,
    and on each of [persistance], [lacunarity] and [heightMultiplier] hold
    either the same finite value or two values that are not finite: these
    are the changes of [CONFIG] that [animate] does not answer with a
    rebuild. *)
Theorem hash_equal_iff (t : Variant1.Terrain) (c : Config) :
  Variant1.hash t = JSON_stringify c
  <-> size (Variant1.config t) = size c
      /\ chunkSize (Variant1.config t) = chunkSize c
      /\ resolution (Variant1.config t) = resolution c
      /\ octaves (Variant1.config t) = octaves c
      /\ same_json_value (persistance (Variant1.config t)) (persistance c)
      /\ same_json_value (lacunarity (Variant1.config t)) (lacunarity c)
      /\ same_json_value (heightMultiplier (Variant1.config t))
           (heightMultiplier c)
      /\ islands (Variant1.config t) = islands c
      /\ wireframe (Variant1.config t) = wireframe c.
Proof.
  unfold Variant1.hash, JSON_stringify. rewrite <- !json_of_number_eq.
  rewrite <- (json_of_ofZ_inj (size _)), <- (json_of_ofZ_inj (chunkSize _)),
    <- (json_of_ofZ_inj (resolution _)), <- (json_of_ofZ_inj (octaves _)).
  split.
  - intros E.
    repeat match goal with
    | E : _ :: _ = _ :: _ |- _ =>
        let E1 := fresh "E" in apply cons_eq_inv in E as [E1 E]
    | E : (_, _) = (_, _) |- _ =>
        let E1 := fresh "E" in apply pair_equal_spec in E as [_ E]
    end.
    repeat split; congruence.
  - intros (E1 & E2 & E3 & E4 & E5 & E6 & E7 & E8 & E9).
    now rewrite E1, E2, E3, E4, E5, E6, E7, E8, E9.
Qed.

Lemma water_is_flat_and_lowest_witness :
  exists e1 e2,
    Variant1.elevation_of (Fin (1 # 5)) (Fin 10) = Fin e1
    /\ Variant1.elevation_of (Fin (3 # 5)) (Fin 10) = Fin e2
    /\ e1 <= e2 /\ e1 == (49 # 100) * 10.
Proof.
  destruct (proj1 (water_is_flat_and_lowest 10 ltac:(discriminate))
              (1 # 5) (3 # 5) ltac:(discriminate))
    as (e1 & e2 & E1 & E2 & _ & Hord & Hwater).
  exists e1, e2. split; [exact E1|]. split; [exact E2|].
  split; [exact Hord|]. apply Hwater. reflexivity.
Defined.

Lemma hash_equal_iff_witness :
  Variant1.hash (Variant1.Terrain_new small_config 7)
  = JSON_stringify small_config
  /\ Variant1.hash (Variant1.Terrain_new small_config 7)
     <> JSON_stringify small_config_wireframe.
Proof.
  split.
  - apply (proj2 (hash_equal_iff (Variant1.Terrain_new small_config 7)
                    small_config)).
    repeat split; reflexivity.
  - intros E.
    apply (proj1 (hash_equal_iff (Variant1.Terrain_new small_config 7)
                    small_config_wireframe)) in E.
    destruct E as (_ & _ & _ & _ & _ & _ & _ & _ & E). discriminate E.
Defined.
